(** * ome_merge.py: merging labelled pull requests across submodules

    A shallow embedding of [src/ome_merge.py] and the properties of it
    that the specification states.

    Conventions of the embedding.
    - Python 2 byte strings ([str]) are [string]; the string and list
      operations the script uses are defined in [Module Py] with Python's
      semantics, integers are [Z].
    - Code that can raise runs in a state-and-exception monad [M]. A method
      that mutates [self] runs on the pair of the object and the process:
      what it has changed before it raises stays visible to the [finally]
      blocks, as in Python.
    - The process is a [World]: the working directory, the files written,
      the remotes git knows in each directory, and the trace of what was
      done (child processes with their exit codes, error log records,
      prints). Debug logging is left out.
    - The outside is an [Env]: GitHub as PyGithub shows it, where a failed
      lookup raises; the exit code and the output of every child process,
      which may depend on all that happened before; the directories that
      exist. Of git itself only this is modelled: a [git remote add] or
      [git remote rm] that exits with status zero adds the remote to, or
      removes it from, the checkout of the working directory.
    - [os.chdir] fails exactly on what is not an existing directory, and
      [open] for writing succeeds.
    - The recursion of [submodules] is bounded by a depth, as Python's is
      by the recursion limit of the interpreter. *)

From Stdlib Require Import ZArith Lia Ascii String.
From stdpp Require Import base tactics option list sorting strings gmap sets pretty.

Local Open Scope Z_scope.

(** ** Python string and list primitives *)

Module Py.

Definition nl : string := String "010"%char "".
Definition tab : string := String "009"%char "".

(** [str.lower()] in the C locale: only A-Z change. *)
Definition lower_char (c : ascii) : ascii :=
  let n := nat_of_ascii c in
  if ((65 <=? n)%nat && (n <=? 90)%nat)%bool then ascii_of_nat (n + 32) else c.

Fixpoint lower (s : string) : string :=
  match s with
  | "" => ""
  | String c s' => String (lower_char c) (lower s')
  end.

(** [s.startswith(p)] *)
Fixpoint startswith (s p : string) {struct p} : bool :=
  match p, s with
  | "", _ => true
  | String a p', String b s' => if Ascii.eqb a b then startswith s' p' else false
  | String _ _, "" => false
  end.

(** [sub in s] for strings *)
Fixpoint contains (sub s : string) : bool :=
  startswith s sub ||
  match s with
  | "" => false
  | String _ s' => contains sub s'
  end.

(** [s.replace(old, new)] for a non-empty [old]: occurrences are found
    from the left and do not overlap. [skip] counts the characters of a
    match that are still to be dropped. *)
Fixpoint replace_from (old new : string) (skip : nat) (s : string) : string :=
  match s with
  | "" => ""
  | String c s' =>
      match skip with
      | S k => replace_from old new k s'
      | O =>
          if startswith s old
          then new +:+ replace_from old new (String.length old - 1) s'
          else String c (replace_from old new O s')
      end
  end.

Definition replace (s old new : string) : string := replace_from old new O s.

(** [s.split(sep)] for a one-character separator, the only use the
    script makes of it. *)
Fixpoint split (s : string) (sep : ascii) : list string :=
  match s with
  | "" => [""]
  | String c s' =>
      if Ascii.eqb c sep then "" :: split s' sep
      else match split s' sep with
           | w :: ws => String c w :: ws
           | [] => [String c ""]
           end
  end.

(** [s.splitlines()] of a byte string: a line ends at LF, CR or CR LF,
    and a final line end produces no empty last line. *)
Fixpoint splitlines (s : string) : list string :=
  match s with
  | "" => []
  | String c s' =>
      if Ascii.eqb c "010" then "" :: splitlines s'
      else if Ascii.eqb c "013" then
        match s' with
        | String "010" s'' => "" :: splitlines s''
        | _ => "" :: splitlines s'
        end
      else match splitlines s' with
           | w :: ws => String c w :: ws
           | [] => [String c ""]
           end
  end.

(** [s.strip()] *)
Fixpoint lstrip (s : string) : string :=
  match s with
  | String c s' => if Ascii.is_space c then lstrip s' else s
  | "" => ""
  end.

Fixpoint rstrip (s : string) : string :=
  match s with
  | "" => ""
  | String c s' =>
      match rstrip s' with
      | "" => if Ascii.is_space c then "" else String c ""
      | r => String c r
      end
  end.

Definition strip (s : string) : string := rstrip (lstrip s).

(** [sep.join(l)] *)
Definition join (sep : string) (l : list string) : string := String.concat sep l.

(** Slices [l[a:b]]: a negative bound counts from the end, and both
    bounds are clipped to the length. *)
Definition clip (len i : Z) : Z :=
  let i := if i <? 0 then i + len else i in
  Z.max 0 (Z.min len i).

Definition slice {A} (l : list A) (a b : Z) : list A :=
  let len := Z.of_nat (length l) in
  let lo := clip len a in
  let hi := clip len b in
  take (Z.to_nat (hi - lo)) (drop (Z.to_nat lo) l).

Definition str_slice (s : string) (a b : Z) : string :=
  string_of_list_ascii (slice (list_ascii_of_string s) a b).

Definition len (s : string) : Z := Z.of_nat (String.length s).

(** [l[i]]: [None] stands for IndexError. *)
Definition item {A} (l : list A) (i : Z) : option A :=
  let len := Z.of_nat (length l) in
  let i := if i <? 0 then i + len else i in
  if (0 <=? i) && (i <? len) then l !! Z.to_nat i else None.

(** [s.endswith(suffix)] *)
Definition endswith (s suffix : string) : bool :=
  (len suffix <=? len s) &&
  bool_decide (str_slice s (len s - len suffix) (len s) = suffix).

(** [int(s)] on a decimal literal: [None] stands for ValueError. *)
Fixpoint digits (acc : Z) (s : string) : option Z :=
  match s with
  | "" => Some acc
  | String c s' =>
      match Ascii.is_nat c with
      | Some d => digits (10 * acc + Z.of_nat d) s'
      | None => None
      end
  end.

Definition int (s : string) : option Z :=
  match strip s with
  | "" => None
  | String "-" "" | String "+" "" => None
  | String "-" r => Z.opp <$> digits 0 r
  | String "+" r => digits 0 r
  | r => digits 0 r
  end.

(** [str(n)] *)
Definition str (n : Z) : string := pretty n.

End Py.

(** ** Exceptions and the state-and-exception monad *)

(** The exceptions that can arise in the modelled code. All of them are
    subclasses of Python's [Exception]. *)
Inductive exn :=
| CallFailed (rc : Z)   (* [Exception("rc=%s" % rc)] raised by [OME.call] *)
| GithubException       (* a failed lookup in the GitHub client *)
| AttributeError        (* reading an attribute that was never assigned *)
| NameError             (* reading a global name that is not bound *)
| IndexError
| ValueError
| OSError               (* [os.chdir] to something that is not a directory *)
| RuntimeError.         (* maximum recursion depth exceeded *)

Inductive result (A : Type) :=
| Return (a : A)
| Raise (e : exn).
Arguments Return {A} a.
Arguments Raise {A} e.

Definition M (S A : Type) : Type := S -> result A * S.

Definition ret {S A} (a : A) : M S A := fun s => (Return a, s).
Definition raise {S A} (e : exn) : M S A := fun s => (Raise e, s).
Definition bind {S A B} (m : M S A) (k : A -> M S B) : M S B :=
  fun s => match m s with
           | (Return a, s') => k a s'
           | (Raise e, s') => (Raise e, s')
           end.

Declare Scope py_scope.
Delimit Scope py_scope with py.
Notation "x <- m ;; k" := (bind m (fun x => k))
  (at level 20, m at level 99, k at level 200, only parsing) : py_scope.
Notation "' x <- m ;; k" := (bind m (fun x => k))
  (at level 20, x pattern, m at level 99, k at level 200, only parsing) : py_scope.
Notation "m ;; k" := (bind m (fun _ => k))
  (at level 100, k at level 200, only parsing, right associativity) : py_scope.
Local Open Scope py_scope.

(** [try: body finally: fin]: [fin] always runs, on the state [body] left;
    an exception of [fin] replaces the outcome of [body]. *)
Definition try_finally {S A} (body : M S A) (fin : M S unit) : M S A :=
  fun s => let '(r, s1) := body s in
           match fin s1 with
           | (Return _, s2) => (r, s2)
           | (Raise e, s2) => (Raise e, s2)
           end.

(** [try: body except: handler] *)
Definition try_except {S A} (body : M S A) (handler : exn -> M S A) : M S A :=
  fun s => match body s with
           | (Return a, s1) => (Return a, s1)
           | (Raise e, s1) => handler e s1
           end.

Fixpoint for_each {S A} (l : list A) (body : A -> M S unit) : M S unit :=
  match l with
  | [] => ret tt
  | x :: l' => body x ;; for_each l' body
  end.

Definition of_result {S A} (r : result A) : M S A := fun s => (r, s).
Definition of_option {S A} (e : exn) (o : option A) : M S A :=
  match o with Some a => ret a | None => raise e end.

(** ** The process and its environment *)

Inductive event :=
| Popen (dir : string) (command : list string) (rc : Z)
| LogError (msg : string) (args : list string)
| Print (line : string)
| PrintList (l : list string).

Record World := {
  cwd : string;                          (* [os.getcwd()] *)
  git_remotes : gmap string (gset string); (* per directory, the remotes of the checkout *)
  files : gmap string string;            (* contents of the files written *)
  trace : list event                     (* what the process did, oldest first *)
}.

(** GitHub as seen through PyGithub. [None] is a lookup that raises. *)
Record Issue := {
  issue_labels : list string;            (* [x.name for x in issue.labels] *)
  issue_comments : Z;                    (* [issue.comments], the count *)
  issue_get_comments : list string       (* [x.body for x in issue.get_comments()] *)
}.
Record PullRequest := {
  head_sha : string;
  base_ref : string;
  head_user_login : string;
  pr_title : string;
  issue_url : string
}.
Record Repository := {
  get_pulls : list PullRequest;
  get_issue : Z -> option Issue
}.
Record Organization := {
  get_repo : string -> option Repository;
  has_in_public_members : string -> bool
}.
Record Github := {
  get_user_login : option string;        (* [gh.get_user().login] *)
  get_organization : string -> option Organization
}.

(** The outside world: GitHub, the exit code and standard output of each
    child process (they may depend on everything that happened before),
    and the directories that exist. *)
Record Env := {
  github : Github;
  git : list event -> string -> list string -> Z * string;
  isdir : string -> bool
}.

Definition set_cwd (d : string) (w : World) : World :=
  {| cwd := d; git_remotes := git_remotes w; files := files w; trace := trace w |}.
Definition set_git_remotes (r : gmap string (gset string)) (w : World) : World :=
  {| cwd := cwd w; git_remotes := r; files := files w; trace := trace w |}.
Definition set_files (f : gmap string string) (w : World) : World :=
  {| cwd := cwd w; git_remotes := git_remotes w; files := f; trace := trace w |}.
Definition add_event (ev : event) (w : World) : World :=
  {| cwd := cwd w; git_remotes := git_remotes w; files := files w;
     trace := trace w ++ [ev] |}.

Definition emit (ev : event) : M World unit := fun w => (Return tt, add_event ev w).

(** Run a computation on the process state next to some local state. *)
Definition lift_w {X A} (m : M World A) : M (X * World) A :=
  fun '(x, w) => let '(r, w') := m w in (r, (x, w')).

Definition get_self {X} : M (X * World) X := fun '(x, w) => (Return x, (x, w)).
Definition modify_self {X} (f : X -> X) : M (X * World) unit :=
  fun '(x, w) => (Return tt, (f x, w)).

(** [open(name, 'w')] and [f.write(s)]; the handle is the path. *)
Definition open_w (name : string) : M World string :=
  fun w => let path := cwd w +:+ "/" +:+ name in
           (Return path, set_files (<[path := ""]> (files w)) w).
Definition write (f s : string) : M World unit :=
  fun w => (Return tt, set_files (<[f := default "" (files w !! f) +:+ s]> (files w)) w).

(** Truth value of an optional list of labels ([None] and [[]] are false). *)
Definition truthy (l : option (list string)) : bool :=
  match l with
  | Some (_ :: _) => true
  | _ => false
  end.

Definition items (l : option (list string)) : list string := default [] l.

(** ** class Data *)

Module Data.

Record t := {
  pr : PullRequest;
  sha : string;
  base : string;
  login : string;
  title : string;
  num : Z;
  labels : list string;
  comments : list string
}.

Definition init (repo : Repository) (pr : PullRequest) : result t :=
  match Py.item (Py.split (issue_url pr) "/") (-1) with
  | None => Raise IndexError
  | Some last =>
      match Py.int last with
      | None => Raise ValueError
      | Some num =>
          match get_issue repo num with
          | None => Raise GithubException
          | Some issue =>
              Return {| pr := pr; sha := head_sha pr; base := base_ref pr;
                        login := head_user_login pr; title := pr_title pr;
                        num := num; labels := issue_labels issue;
                        comments := if issue_comments issue =? 0 then []
                                    else issue_get_comments issue |}
          end
      end
  end.

Definition test_directories (self : t) : list string :=
  flat_map
    (fun comment =>
       flat_map (fun line => if Py.startswith line "--test"
                             then [Py.replace line "--test" ""] else [])
                (Py.splitlines comment))
    (comments self).

End Data.

(** ** class OME *)

Module OME.

Record t := {
  name : string;
  reset : bool;
  base : string;
  commit_msg : string;
  include : option (list string);
  exclude : option (list string);
  remotes : gmap string string;
  token : option string;
  storage : list Data.t;
  modifications : Z;
  unique_logins : gset string
}.

Definition set_remotes (r : gmap string string) (self : t) : t :=
  {| name := name self; reset := reset self; base := base self;
     commit_msg := commit_msg self; include := include self;
     exclude := exclude self; remotes := r; token := token self;
     storage := storage self; modifications := modifications self;
     unique_logins := unique_logins self |}.
Definition set_modifications (n : Z) (self : t) : t :=
  {| name := name self; reset := reset self; base := base self;
     commit_msg := commit_msg self; include := include self;
     exclude := exclude self; remotes := remotes self; token := token self;
     storage := storage self; modifications := n;
     unique_logins := unique_logins self |}.

(** [filter.lower() in [x.lower() for x in data.labels]] *)
Definition label_in (filter : string) (data : Data.t) : bool :=
  bool_decide (Py.lower filter ∈ Py.lower <$> Data.labels data).

(** The value of [found] after the two tests of the loop body
    (lines 247-265). *)
Definition qualifies (org : Organization) (base : string)
    (include exclude : option (list string)) (data : Data.t) : bool :=
  let found := false in
  let found :=
    if bool_decide (Data.base data = base) then
      if has_in_public_members org (Data.login data) then true
      else if truthy include then
        foldl (fun found filter => if label_in filter data then true else found)
              found (items include)
      else found
    else found in
  if found && truthy exclude then
    foldl (fun found filter => if label_in filter data then false else found)
          found (items exclude)
  else found.

(** [self.storage.sort(lambda a, b: cmp(a.num, b.num))]: Python's sort is
    stable, and so is this insertion sort, so both return the same list. *)
Fixpoint insert_sorted (x : Data.t) (l : list Data.t) : list Data.t :=
  match l with
  | [] => [x]
  | y :: l' =>
      match Data.num x ?= Data.num y with
      | Gt => y :: insert_sorted x l'
      | _ => x :: l
      end
  end.
Definition sort (l : list Data.t) : list Data.t := foldr insert_sorted [] l.

(** The commit message built from [base], [include] and [exclude]. *)
Definition make_commit_msg (base : string) (include exclude : option (list string)) : string :=
  let commit_msg := "merge" +:+ "_into_" +:+ base in
  let commit_msg :=
    if truthy include then commit_msg +:+ "+" +:+ Py.join "+" (items include)
    else commit_msg in
  if truthy exclude then commit_msg +:+ "-" +:+ Py.join "-" (items exclude)
  else commit_msg.

(** What git does to the remotes of the checkout in [dir] when the
    command exits with status zero. *)
Definition git_effect (dir : string) (command : list string)
    (m : gmap string (gset string)) : gmap string (gset string) :=
  match command with
  | [a; b; c; k; _] =>
      if bool_decide ([a; b; c] = ["git"; "remote"; "add"])
      then <[dir := {[k]} ∪ m !!! dir]> m else m
  | [a; b; c; k] =>
      if bool_decide ([a; b; c] = ["git"; "remote"; "rm"])
      then <[dir := m !!! dir ∖ {[k]}]> m else m
  | _ => m
  end.

Definition abspath (cwd path : string) : string :=
  if Py.startswith path "/" then path else cwd +:+ "/" +:+ path.

(** The two lines [git submodule foreach] prints for a submodule are
    parsed into the directory (lines 331-332) ... *)
Definition parse_dir (line : string) : result string :=
  let dir := Py.strip line in
  match Py.item (Py.split dir " ") 1 with
  | Some d => Return (Py.str_slice d 1 (-1))
  | None => Raise IndexError
  end.

(** ... and into the organization and the repository of its origin URL
    (lines 333-341). *)
Definition parse_origin (line : string) : result (string * string) :=
  let repo := Py.split (Py.strip line) "/" in
  let sz := Z.of_nat (length repo) in
  match Py.slice repo (sz - 2) sz with
  | [org; repo] =>
      match (if Py.contains ":" org then Py.item (Py.split org ":") (-1) else Some org) with
      | Some org =>
          Return (org, if Py.endswith repo ".git" then Py.str_slice repo 0 (-4) else repo)
      | None => Raise IndexError
      end
  | _ => Raise ValueError
  end.

Definition commit_command (self : t) : list string :=
  ["git"; "commit"; "--allow-empty"; "-a"; "-n"; "-m";
   commit_msg self +:+ ": Update all modules w/o hooks"].

Section Methods.
Context (E : Env).
(** ["%g" % build_number] *)
Context (format_g : Z -> string).

(** [call]: run the command, wait, raise on a nonzero exit code. The
    value returned is the standard output of the child. *)
Definition call (command : list string) : M World string :=
  fun w =>
    let '(rc, out) := git E (trace w) (cwd w) command in
    let w' :=
      add_event (Popen (cwd w) command rc)
        (if rc =? 0
         then set_git_remotes (git_effect (cwd w) command (git_remotes w)) w
         else w) in
    if rc =? 0 then (Return out, w') else (Raise (CallFailed rc), w').

Definition cd (dir : string) : M World unit :=
  fun w =>
    let target := abspath (cwd w) dir in
    if isdir E target then (Return tt, set_cwd target w) else (Raise OSError, w).

(** The loop over the pull requests (lines 245-277). The three values
    it updates are [self.storage], [self.unique_logins] and
    [directories_log]. *)
Definition scan_pr (org : Organization) (repo : Repository) (base : string)
    (include exclude : option (list string)) (pr : PullRequest)
    (st : list Data.t * gset string * option string)
  : M World (list Data.t * gset string * option string) :=
  let '(storage, unique_logins, directories_log) := st in
  data <- of_result (Data.init repo pr) ;;
  if qualifies org base include exclude data then
    let unique_logins := {[Data.login data]} ∪ unique_logins in
    let storage := storage ++ [data] in
    let directories := Data.test_directories data in
    match directories with
    | [] => ret (storage, unique_logins, directories_log)
    | _ :: _ =>
        f <- match directories_log with
             | None => open_w "directories.txt"
             | Some f => ret f
             end ;;
        for_each directories (fun directory => write f directory ;; write f Py.nl) ;;
        ret (storage, unique_logins, Some f)
    end
  else ret st.

Fixpoint scan (org : Organization) (repo : Repository) (base : string)
    (include exclude : option (list string)) (pulls : list PullRequest)
    (st : list Data.t * gset string * option string)
  : M World (list Data.t * gset string * option string) :=
  match pulls with
  | [] => ret st
  | pr :: pulls' =>
      st' <- scan_pr org repo base include exclude pr st ;;
      scan org repo base include exclude pulls' st'
  end.

(** [OME.__init__] *)
Definition init (org name base : string) (reset : bool)
    (exclude include : option (list string)) (token : option string) : M World t :=
  (if reset then call ["git"; "reset"; "--hard"; "HEAD"] ;; ret tt else ret tt) ;;
  call ["git"; "log"; "--oneline"; "-n"; "1"; "HEAD"] ;;
  call ["git"; "submodule"; "status"] ;;
  (if truthy exclude then emit (PrintList (items exclude)) else ret tt) ;;
  (match token with
   | Some (String _ _) => of_option GithubException (get_user_login (github E)) ;; ret tt
   | _ => ret tt
   end) ;;
  org_ <- of_option GithubException (get_organization (github E) org) ;;
  repo <- try_except
            (r <- of_option GithubException (get_repo org_ name) ;; ret (Some r))
            (fun _ => emit (LogError "Failed to find %s" [name]) ;; ret None) ;;
  repo <- of_option AttributeError repo ;;
  '(storage, unique_logins, _) <-
     scan org_ repo base include exclude (get_pulls repo) ([], ∅, None) ;;
  ret {| name := name; reset := reset; base := base;
         commit_msg := make_commit_msg base include exclude;
         include := include; exclude := exclude; remotes := ∅; token := token;
         storage := sort storage; modifications := 0;
         unique_logins := unique_logins |}.

(** [info]: the name [ome] in its body is not [self] but the module
    global, which [__main__] binds to the top-level instance; it is the
    argument [ome] here, [None] while the name is unbound. Only
    [storage] is read through it, which is not assigned after
    [__init__]. *)
Definition info (ome : option t) : M (t * World) unit :=
  g <- of_option NameError ome ;;
  for_each (storage g) (fun data =>
    lift_w (emit (Print ("# " +:+ Py.join " " (Data.labels data)))) ;;
    lift_w (emit (Print (issue_url (Data.pr data) +:+ " " +:+ Data.title data +:+ " by "
                           +:+ Data.login data +:+ " for " +:+ Py.tab +:+ Py.tab +:+ "[???]"))) ;;
    lift_w (emit (Print ""))).

Definition remote_key (user : string) : string := "merge_" +:+ user.
Definition remote_url (user name : string) : string :=
  "git://github.com/" +:+ user +:+ "/" +:+ name +:+ ".git".
Definition merge_message (self : t) (data : Data.t) : string :=
  commit_msg self +:+ ": PR " +:+ Py.str (Data.num data) +:+ " (" +:+ Data.title data +:+ ")".

Definition merge : M (t * World) unit :=
  self <- get_self ;;
  for_each (elements (unique_logins self)) (fun user =>
    let key := remote_key user in
    let url := remote_url user (name self) in
    lift_w (call ["git"; "remote"; "add"; key; url]) ;;
    modify_self (fun self => set_remotes (<[key := url]> (remotes self)) self) ;;
    lift_w (call ["git"; "fetch"; key]) ;;
    ret tt) ;;
  for_each (storage self) (fun data =>
    lift_w (call ["git"; "merge"; "--no-ff"; "-m"; merge_message self data; Data.sha data]) ;;
    modify_self (fun self => set_modifications (modifications self + 1) self)) ;;
  lift_w (call ["git"; "submodule"; "update"]) ;;
  ret tt.

(** [cleanup]. The format string of the log record has no place for [k];
    the logging module reports that on stderr and does not raise. *)
Definition cleanup : M (t * World) unit :=
  self <- get_self ;;
  for_each (map_to_list (remotes self)) (fun '(k, v) =>
    try_except
      (lift_w (call ["git"; "remote"; "rm"; k]) ;; ret tt)
      (fun e => lift_w (emit (LogError "Failed to remove" [k])))).

(** Run a method of the local variable [ome] of [submodules]. *)
Definition on_ome {A} (m : M (t * World) A) : M ((t * option t) * World) A :=
  fun '((self, ome), w) =>
    match ome with
    | Some o => let '(r, (o', w')) := m (o, w) in (r, ((self, Some o'), w'))
    | None => (Raise AttributeError, ((self, ome), w))
    end.

(** The loop body of [submodules] from [try] on (lines 343-358). Its
    state is [self], the local variable [ome] and the process.
    [submodules] is the method itself, for the recursive call
    [ome.submodules(info)]; [g] is the module global [ome]. *)
Definition step_try (submodules : bool -> M (t * World) unit) (g : option t)
    (info_mode : bool) (dir org repo : string) : M ((t * option t) * World) unit :=
  modify_self (fun '(self, _) => (self, None)) ;;
  lift_w (cd dir) ;;
  locals <- get_self ;;
  let self := fst locals in
  ome <- lift_w (init org repo (base self) (reset self) (exclude self)
                      (include self) (token self)) ;;
  modify_self (fun '(self, _) => (self, Some ome)) ;;
  (if info_mode then on_ome (info g) else on_ome merge) ;;
  on_ome (submodules info_mode) ;;
  modify_self (fun '(self, ome) =>
    (set_modifications (modifications self + from_option modifications 0 ome) self, ome)).

Definition step_finally (cwd : string) : M ((t * option t) * World) unit :=
  try_finally
    (locals <- get_self ;;
     match snd locals with
     | Some _ => on_ome cleanup
     | None => ret tt
     end)
    (lift_w (cd cwd)).

Definition step (submodules : bool -> M (t * World) unit) (g : option t)
    (info_mode : bool) (cwd dir org repo : string) : M (t * World) unit :=
  fun '(self, w) =>
    let '(r, ((self', _), w')) :=
      try_finally (step_try submodules g info_mode dir org repo) (step_finally cwd)
                  ((self, None), w) in
    (r, (self', w')).

(** The [while "".join(lines)] loop of [submodules] (lines 330-358). *)
Fixpoint submodules_loop (submodules : bool -> M (t * World) unit) (g : option t)
    (info_mode : bool) (cwd : string) (lines : list string) : M (t * World) unit :=
  match lines with
  | [] => ret tt
  | l1 :: rest =>
      if bool_decide (Py.join "" lines = "") then ret tt
      else
        dir <- of_result (parse_dir l1) ;;
        match rest with
        | [] => raise IndexError
        | l2 :: lines' =>
            '(org, repo) <- of_result (parse_origin l2) ;;
            step submodules g info_mode cwd dir org repo ;;
            submodules_loop submodules g info_mode cwd lines'
        end
  end.

(** [submodules]. [depth] is what is left of the interpreter's
    recursion limit: when it is used up Python raises RuntimeError. *)
Fixpoint submodules (depth : nat) (g : option t) (info_mode : bool)
  : M (t * World) unit :=
  match depth with
  | O => raise RuntimeError
  | S depth' =>
      o <- lift_w (call ["git"; "submodule"; "foreach";
                         "git config --get remote.origin.url"]) ;;
      cwd <- lift_w (fun w => (Return (abspath (cwd w) (cwd w)), w)) ;;
      submodules_loop (submodules depth' g) g info_mode cwd (Py.split o "010") ;;
      self <- get_self ;;
      if modifications self =? 0 then ret tt
      else lift_w (call (commit_command self)) ;; ret tt
  end.

Definition pushTeam (base : string) (build_number : Z) : M World unit :=
  call ["git"; "push"; "team"; "HEAD:" +:+ base +:+ "/" +:+ format_g build_number] ;;
  ret tt.

(** The body of [__main__] from the construction of the top-level
    instance on; the global name [ome] is bound to that instance. *)
Definition main (depth : nat) (org repo base : string) (reset info_mode : bool)
    (exclude include : option (list string)) (buildnumber : option Z)
    (token : option string) : M World unit :=
  ome <- init org repo base reset exclude include token ;;
  fun w =>
    let '(r, (_, w')) :=
      try_finally
        ((if info_mode then ret tt else merge) ;;
         submodules depth (Some ome) info_mode ;;
         match buildnumber with
         | Some n => if n =? 0 then ret tt else lift_w (pushTeam base n)
         | None => ret tt
         end)
        cleanup (ome, w) in
    (r, w').

End Methods.

End OME.


(** ** [os.path] on POSIX *)

Module Path.

(** [s.rfind(c)] for one character: the index of its last occurrence,
    or -1. *)
Fixpoint rfind (s : string) (c : ascii) : Z :=
  match s with
  | "" => -1
  | String a s' =>
      let i := rfind s' c in
      if 0 <=? i then i + 1 else if Ascii.eqb a c then 0 else -1
  end.

(** [s.rstrip(c)] for one character. *)
Fixpoint rstrip_char (s : string) (c : ascii) : string :=
  match s with
  | "" => ""
  | String a s' =>
      match rstrip_char s' c with
      | "" => if Ascii.eqb a c then "" else String a ""
      | r => String a r
      end
  end.

(** [s == c * len(s)] *)
Fixpoint only (s : string) (c : ascii) : bool :=
  match s with
  | "" => true
  | String a s' => Ascii.eqb a c && only s' c
  end.

Definition dirname (p : string) : string :=
  let i := rfind p "/" + 1 in
  let head := Py.str_slice p 0 i in
  if negb (Py.len head =? 0) && negb (only head "/") then rstrip_char head "/" else head.

Definition basename (p : string) : string :=
  let i := rfind p "/" + 1 in
  Py.str_slice p i (Py.len p).

(** [splitext]: the extension starts at the last dot of the last
    component, unless only dots come before it there. The loop over
    [filenameIndex] looks for a character that is not a dot. *)
Definition splitext (p : string) : string * string :=
  let sepIndex := rfind p "/" in
  let dotIndex := rfind p "." in
  if (sepIndex <? dotIndex)
     && existsb (fun c => negb (Ascii.eqb c "."))
                (Py.slice (list_ascii_of_string p) (sepIndex + 1) dotIndex)
  then (Py.str_slice p 0 dotIndex, Py.str_slice p dotIndex (Py.len p))
  else (p, "").

End Path.

(** ** [LoggerWrapper.run] *)

Module LoggerWrapper.

(** [s[-1]] of a string that is not empty *)
Definition last_char (s : string) : option string :=
  (fun c => String c "") <$> Py.item (list_ascii_of_string s) (-1).

(** The loop of the thread. [pipe] is what the successive calls of
    [self.pipeReader.readline()] return, the end of the list being the
    end of the file; the value is the list of the messages passed to
    [self._write], in order. *)
Fixpoint run (linesep : string) (pipe : list string) : list string :=
  match pipe with
  | [] => []
  | messageFromPipe :: pipe' =>
      if Py.len messageFromPipe =? 0 then []
      else
        let messageToLog :=
          if bool_decide (last_char messageFromPipe = Some linesep)
          then Py.str_slice messageFromPipe 0 (-1)
          else messageFromPipe in
        messageToLog :: run linesep pipe'
  end.

End LoggerWrapper.

(** ** [getRepository] *)

(** How [getRepository] ends: with its value, or with one of the two
    exceptions it raises itself. The assertion is checked, as it is when
    the interpreter runs without [-O]. *)
Inductive outcome (A : Type) :=
| Ok (a : A)
| CalledProcessError (returncode : Z) (output : string)
| AssertionError (message : string).
Arguments Ok {A} a.
Arguments CalledProcessError {A} returncode output.
Arguments AssertionError {A} message.

Definition getRepository (E : Env) : World -> outcome string * World :=
  fun w =>
    let command := ["git"; "config"; "--get"; "remote.origin.url"] in
    let '(retcode, originname) := git E (trace w) (cwd w) command in
    let w' := add_event (Popen (cwd w) command retcode) w in
    if negb (retcode =? 0) then (CalledProcessError retcode originname, w')
    else
      let dir := Path.dirname originname in
      if negb (Py.contains "github" dir)
      then (AssertionError ("Origin URL " +:+ dir +:+ " is not on GitHub"), w')
      else
        let base := Path.basename originname in
        let repository_name := fst (Path.splitext base) in
        (Ok repository_name, w').
(** ** Vocabulary of the statements *)

(** Some filter of the list matches a label of the pull request. *)
Definition hit (filters : list string) (data : Data.t) : bool :=
  existsb (fun f => OME.label_in f data) filters.

(** Two label lists meet up to letter case. *)
Definition meet_nocase (filters labels : list string) : Prop :=
  exists f l, f ∈ filters /\ l ∈ labels /\ Py.lower f = Py.lower l.

(** Two label lists have a common element. *)
Definition meet (filters labels : list string) : Prop :=
  exists x, x ∈ filters /\ x ∈ labels.

(** The filters of an optional list, all in lower case. *)
Definition lower_filters (l : option (list string)) : option (list string) :=
  option_map (fun fs => Py.lower <$> fs) l.

(** A pull request with other labels. *)
Definition relabel (labels : list string) (d : Data.t) : Data.t :=
  {| Data.pr := Data.pr d; Data.sha := Data.sha d; Data.base := Data.base d;
     Data.login := Data.login d; Data.title := Data.title d; Data.num := Data.num d;
     Data.labels := labels; Data.comments := Data.comments d |}.

(** The text of a file that holds the given lines. *)
Fixpoint lines_text (lines : list string) : string :=
  match lines with
  | [] => ""
  | l :: ls => l +:+ Py.nl +:+ lines_text ls
  end.

(** The [Data] objects of all the pull requests, when each can be built. *)
Fixpoint all_data (repo : Repository) (pulls : list PullRequest) : option (list Data.t) :=
  match pulls with
  | [] => Some []
  | pr :: pulls' =>
      match Data.init repo pr with
      | Return d => option_map (cons d) (all_data repo pulls')
      | Raise _ => None
      end
  end.

(** The qualifying pull requests, in the order GitHub lists them. *)
Definition candidates (org : Organization) (base : string)
    (include exclude : option (list string)) (ds : list Data.t) : list Data.t :=
  List.filter (OME.qualifies org base include exclude) ds.

Definition side_file (w : World) : string := cwd w +:+ "/" +:+ "directories.txt".

(** What the loop has done to the side file when the directories [acc]
    have been written. *)
Definition logged (files0 : gmap string string) (path : string)
    (log : option string) (fs : gmap string string) (acc : list string) : Prop :=
  (log = None /\ acc = [] /\ fs = files0) \/
  (log = Some path /\ acc <> [] /\ fs = <[path := lines_text acc]> files0).

(** [m], run next to an object, does to the process what [mw] does. *)
Definition acts_as {X A} (m : M (X * World) A) (mw : M World A) : Prop :=
  forall x w, fst (m (x, w)) = fst (mw w) /\ snd (snd (m (x, w))) = snd (mw w).

(** [r] and [w'] are what is left after the commands [cs] were run in
    order from [w], each through [call], up to the first that failed:
    [rcs] are the exit codes of those that were started. *)
Definition issued {A} (cs : list (list string)) (w : World) (r : result A) (w' : World) : Prop :=
  exists rcs,
    trace w' = trace w ++ zip_with (Popen (cwd w)) cs rcs /\
    cwd w' = cwd w /\
    match r with
    | Return _ => length rcs = length cs /\ Forall (fun rc => rc = 0) rcs
    | Raise e =>
        exists rcs0 rc, rcs = rcs0 ++ [rc] /\ rc <> 0 /\ e = CallFailed rc /\
                        Forall (fun rc => rc = 0) rcs0 /\ (length rcs <= length cs)%nat
    end.

Definition issues {A} (m : M World A) (cs : list (list string)) : Prop :=
  forall w, issued cs w (fst (m w)) (snd (m w)).

(** The commands of a merge pass, in the order of the specification. *)
Definition merge_commands (self : OME.t) : list (list string) :=
  flat_map (fun user =>
              [["git"; "remote"; "add"; OME.remote_key user;
                OME.remote_url user (OME.name self)];
               ["git"; "fetch"; OME.remote_key user]])
           (elements (OME.unique_logins self))
  ++ map (fun data => ["git"; "merge"; "--no-ff"; "-m"; OME.merge_message self data;
                       Data.sha data])
         (OME.storage self)
  ++ [["git"; "submodule"; "update"]].

Definition by_num (R : Z -> Z -> Prop) (a b : Data.t) : Prop := R (Data.num a) (Data.num b).

(** What [merge] does to the process. *)
Definition merge_w (E : Env) (self : OME.t) : M World unit :=
  for_each (elements (OME.unique_logins self)) (fun user =>
    OME.call E ["git"; "remote"; "add"; OME.remote_key user;
                OME.remote_url user (OME.name self)] ;;
    ret tt ;;
    OME.call E ["git"; "fetch"; OME.remote_key user] ;;
    ret tt) ;;
  for_each (OME.storage self) (fun data =>
    OME.call E ["git"; "merge"; "--no-ff"; "-m"; OME.merge_message self data;
                Data.sha data] ;;
    ret tt) ;;
  OME.call E ["git"; "submodule"; "update"] ;;
  ret tt.

(** The character [c] does not occur in [s]. *)
Definition no_char (c : ascii) (s : string) : Prop := Py.contains (String c "") s = false.

Definition is_log_error (ev : event) : Prop :=
  match ev with
  | LogError _ _ => True
  | _ => False
  end.

(** The token, when there is one, is accepted by GitHub. *)
Definition token_accepted (E : Env) (token : option string) : Prop :=
  match token with
  | Some (String _ _) => is_Some (get_user_login (github E))
  | _ => True
  end.

(** [m] relates every state to the state it leaves, whatever the outcome. *)
Definition preserves {S A} (P : S -> S -> Prop) (m : M S A) : Prop :=
  forall s, P s (snd (m s)).

(** The remotes of the checkout in [dir]. *)
Definition remotes_in (w : World) (dir : string) : gset string := git_remotes w !!! dir.

(** Among the events [evs], a [git remote rm k] run in [dir] that failed. *)
Definition rm_failed (evs : list event) (dir k : string) : Prop :=
  exists rc, rc <> 0 /\ Popen dir ["git"; "remote"; "rm"; k] rc ∈ evs.

(** From [w] to [w'] the process went on without touching the working
    directory or any remote. *)
Definition quiet (w w' : World) : Prop :=
  cwd w' = cwd w /\ git_remotes w' = git_remotes w /\
  exists evs, trace w' = trace w ++ evs.

(** From [w] to [w'] no remote was left behind: a remote that is there
    in [w'] was there in [w], or removing it failed. *)
Definition clean (w w' : World) : Prop :=
  exists evs, trace w' = trace w ++ evs /\
    forall dir k, k ∈ remotes_in w' dir -> k ∈ remotes_in w dir \/ rm_failed evs dir k.

(** What [merge] keeps: the remotes it has added to the checkout of the
    working directory are registered in [self.remotes]. *)
Definition registered (s s' : OME.t * World) : Prop :=
  cwd (snd s') = cwd (snd s) /\
  (exists evs, trace (snd s') = trace (snd s) ++ evs) /\
  dom (OME.remotes (fst s)) ⊆ dom (OME.remotes (fst s')) /\
  forall dir k, k ∈ remotes_in (snd s') dir ->
                k ∈ remotes_in (snd s) dir \/
                (dir = cwd (snd s) /\ k ∈ dom (OME.remotes (fst s'))).

(** A method has changed nothing of [self] but [modifications]. *)
Definition only_modifications (self self' : OME.t) : Prop :=
  self' = OME.set_modifications (OME.modifications self') self.

(** A method has left [self] alone and was [quiet]. *)
Definition untouched (s s' : OME.t * World) : Prop :=
  fst s' = fst s /\ quiet (snd s) (snd s').

(** A method started on [self] in [w] has ended in the directory [dir],
    has left no remote behind and has changed nothing of [self] but
    [modifications]. *)
Definition walked (dir : string) (self : OME.t) (w : World) (s' : OME.t * World) : Prop :=
  cwd (snd s') = dir /\ clean w (snd s') /\ only_modifications self (fst s').

(** The property of [submodules] that its loop body relies on for the
    recursive call: started in an existing directory given by an absolute
    path, it ends there, whatever the outcome. *)
Definition walks (E : Env) (submodules : bool -> M (OME.t * World) unit) : Prop :=
  forall info_mode o w,
    Py.startswith (cwd w) "/" = true -> isdir E (cwd w) = true ->
    walked (cwd w) o w (snd (submodules info_mode (o, w))).

(** Inside the loop body of [submodules] started on [self] in [w]: the
    remotes that are there and were not there in [w] are registered in the
    local [ome], for the working directory, unless their removal failed. *)
Definition pending (self : OME.t) (w : World) (s : (OME.t * option OME.t) * World) : Prop :=
  only_modifications self (fst (fst s)) /\
  exists evs, trace (snd s) = trace w ++ evs /\
    forall dir k, k ∈ remotes_in (snd s) dir ->
      k ∈ remotes_in w dir \/ rm_failed evs dir k \/
      exists o, snd (fst s) = Some o /\ dir = cwd (snd s) /\ k ∈ dom (OME.remotes o).

(** The loop body of [submodules] changes nothing of [self] but
    [modifications]. *)
Definition keeps_self {X} (s s' : (OME.t * X) * World) : Prop :=
  only_modifications (fst (fst s)) (fst (fst s')).

(** ** A concrete run

    The checkout in [/work] of the repository [top], with one submodule
    [sub]. Four pull requests are open against [top] and one against
    [sub]; [bob] is the only public member. *)

Module Scenario.

Definition pull (n login base title : string) : PullRequest :=
  {| head_sha := "sha" +:+ n; base_ref := base; head_user_login := login;
     pr_title := title;
     issue_url := "https://api.github.com/repos/openmicroscopy/r/issues/" +:+ n |}.

Definition issue (labels comments : list string) : Issue :=
  {| issue_labels := labels; issue_comments := Z.of_nat (length comments);
     issue_get_comments := comments |}.

Definition top : Repository :=
  {| get_pulls := [pull "7" "alice" "dev" "seven"; pull "3" "bob" "dev" "three";
                   pull "5" "alice" "dev" "five"; pull "9" "carol" "dev" "nine"];
     get_issue := fun n =>
       if n =? 7 then
         Some (issue ["Include"] ["hello" +:+ Py.nl +:+ "--test integration/foo"])
       else if n =? 9 then Some (issue ["include"; "EXCLUDE"] [])
       else Some (issue ["include"] []) |}.

Definition sub : Repository :=
  {| get_pulls := [pull "2" "dave" "dev" "two"];
     get_issue := fun n => Some (issue ["include"] []) |}.

Definition org : Organization :=
  {| get_repo := fun n => if bool_decide (n = "top") then Some top
                          else if bool_decide (n = "sub") then Some sub else None;
     has_in_public_members := fun l => bool_decide (l = "bob") |}.

Definition gh : Github :=
  {| get_user_login := Some "ci";
     get_organization := fun o =>
       if bool_decide (o = "openmicroscopy") then Some org else None |}.

Definition foreach : list string :=
  ["git"; "submodule"; "foreach"; "git config --get remote.origin.url"].

(** Every command succeeds; [git submodule foreach] finds [sub] in [/work]. *)
Definition git_ok (history : list event) (dir : string) (command : list string)
  : Z * string :=
  if bool_decide (command = foreach) && bool_decide (dir = "/work")
  then (0, "Entering 'sub'" +:+ Py.nl +:+ "git@github.com:openmicroscopy/sub.git" +:+ Py.nl)
  else (0, "").

(** The same, but [git fetch] exits with status 1 in the submodule ... *)
Definition git_bad (history : list event) (dir : string) (command : list string)
  : Z * string :=
  if bool_decide (take 2 command = ["git"; "fetch"]) && bool_decide (dir = "/work/sub")
  then (1, "")
  else git_ok history dir command.

(** ... and [git remote rm] everywhere. *)
Definition git_worse (history : list event) (dir : string) (command : list string)
  : Z * string :=
  if bool_decide (take 3 command = ["git"; "remote"; "rm"]) then (1, "")
  else git_bad history dir command.

Definition dirs (d : string) : bool :=
  bool_decide (d = "/work") || bool_decide (d = "/work/sub").

Definition env : Env := {| github := gh; git := git_ok; isdir := dirs |}.
Definition env_bad : Env := {| github := gh; git := git_bad; isdir := dirs |}.
Definition env_worse : Env := {| github := gh; git := git_worse; isdir := dirs |}.

(** GitHub without the organization, and with an organization that
    does not have the repository. *)
Definition env_no_org : Env :=
  {| github := {| get_user_login := Some "ci"; get_organization := fun _ => None |};
     git := git_ok; isdir := dirs |}.
Definition env_no_repo : Env :=
  {| github := {| get_user_login := Some "ci";
                  get_organization := fun _ =>
                    Some {| get_repo := fun _ => None;
                            has_in_public_members := fun _ => false |} |};
     git := git_ok; isdir := dirs |}.

Definition w0 : World := {| cwd := "/work"; git_remotes := ∅; files := ∅; trace := [] |}.

Definition include : option (list string) := Some ["INCLUDE"].
Definition exclude : option (list string) := Some ["exclude"].

(** An instance for [top] with no pull request to merge. *)
Definition self0 : OME.t :=
  {| OME.name := "top"; OME.reset := false; OME.base := "dev";
     OME.commit_msg := OME.make_commit_msg "dev" include exclude;
     OME.include := include; OME.exclude := exclude; OME.remotes := ∅;
     OME.token := None; OME.storage := []; OME.modifications := 0;
     OME.unique_logins := ∅ |}.

Definition init (E : Env) : result OME.t * World :=
  OME.init E "openmicroscopy" "top" "dev" false exclude include None w0.

Definition main (E : Env) (info_mode : bool) : result unit * World :=
  OME.main E Py.str 5 "openmicroscopy" "top" "dev" false info_mode exclude include
           None None w0.

End Scenario.

(** ** Vocabulary of the further properties *)

(** What is read from a pipe before the end of the file. *)
Fixpoint until_eof (pipe : list string) : list string :=
  match pipe with
  | [] => []
  | m :: pipe' => if bool_decide (m = "") then [] else m :: until_eof pipe'
  end.

(** What [git submodule foreach "git config --get remote.origin.url"]
    prints for submodules given by their directory and origin URL. *)
Definition foreach_output (subs : list (string * string)) : string :=
  lines_text (flat_map (fun '(dir, url) => ["Entering '" +:+ dir +:+ "'"; url]) subs).

(** A [git merge] that exited with status zero, and how many of them
    there are among some events. *)
Definition merged_event (ev : event) : bool :=
  match ev with
  | Popen _ command rc => bool_decide (take 2 command = ["git"; "merge"]) && (rc =? 0)
  | _ => false
  end.

Definition merged (evs : list event) : Z := Z.of_nat (length (List.filter merged_event evs)).

(** From [w] to [w'] the process went on, and every event was [ok]. *)
Definition journal (ok : event -> Prop) (w w' : World) : Prop :=
  exists evs, trace w' = trace w ++ evs /\ Forall ok evs.

(** Every event but a child process is [ok]. *)
Definition ok_but_popen (ok : event -> Prop) : Prop :=
  forall ev, match ev with Popen _ _ _ => True | _ => ok ev end.

Definition calm : World -> World -> Prop := journal (fun ev => merged_event ev = false).

(** A relation on the process, for the states that have a process. *)
Definition on_world {X} (R : World -> World -> Prop) (s s' : X * World) : Prop :=
  R (snd s) (snd s').

(** The local state is the same, and the process is related by [R]. *)
Definition aside {X} (R : World -> World -> Prop) (s s' : X * World) : Prop :=
  fst s' = fst s /\ R (snd s) (snd s').

(** From a state where [I] holds, [I] holds again and [R] relates the two. *)
Definition keeps {S} (I : S -> Prop) (R : S -> S -> Prop) (s s' : S) : Prop :=
  I s -> I s' /\ R s s'.

(** From [s] to [s'], [modifications] has grown by the number of merges. *)
Definition tallied (s s' : OME.t * World) : Prop :=
  exists evs, trace (snd s') = trace (snd s) ++ evs /\
    OME.modifications (fst s') = OME.modifications (fst s) + merged evs.

Definition returned {A} (r : result A) : bool :=
  match r with Return _ => true | Raise _ => false end.

(** From [self] in [w] to [s'], [modifications] has grown by at most the
    number of merges, and by that number when [exact]. *)
Definition counts (self : OME.t) (w : World) (exact : bool) (s' : OME.t * World) : Prop :=
  exists evs, trace (snd s') = trace w ++ evs /\
    OME.modifications self <= OME.modifications (fst s')
                           <= OME.modifications self + merged evs /\
    (exact = true -> OME.modifications (fst s') = OME.modifications self + merged evs).

(** [modifications] counts the merges of a method that returns. *)
Definition accounts {A} (m : M (OME.t * World) A) : Prop :=
  forall self w, counts self w (returned (fst (m (self, w)))) (snd (m (self, w))).

(** A remote that [merge] does not name. *)
Definition foreign (k : string) : Prop := forall user, k <> OME.remote_key user.

(** From [w] to [w'] no foreign remote was removed. *)
Definition spares (w w' : World) : Prop :=
  forall dir k, foreign k -> k ∈ remotes_in w dir -> k ∈ remotes_in w' dir.

(** The remotes registered in the instance are named by [merge]. *)
Definition keys_ok (o : OME.t) : Prop :=
  forall k, k ∈ dom (OME.remotes o) -> exists user, k = OME.remote_key user.

(** The commands of a dry run. *)
Definition dry_command (command : list string) : bool :=
  bool_decide (command ∈ [["git"; "reset"; "--hard"; "HEAD"];
                          ["git"; "log"; "--oneline"; "-n"; "1"; "HEAD"];
                          ["git"; "submodule"; "status"];
                          ["git"; "submodule"; "foreach"; "git config --get remote.origin.url"]])
  || bool_decide (take 3 command = ["git"; "push"; "team"]).

Definition dry_event (ev : event) : Prop :=
  match ev with
  | Popen _ command _ => dry_command command = true
  | _ => True
  end.

(** From [w] to [w'] the remotes are the same and only the commands of
    a dry run were run. *)
Definition dry (w w' : World) : Prop :=
  git_remotes w' = git_remotes w /\ journal dry_event w w'.

(** An instance that has registered no remote and counted no merge. *)
Definition plain (o : OME.t) : Prop := OME.remotes o = ∅ /\ OME.modifications o = 0.

(** [J] holds of the local state again, and [R] relates the processes. *)
Definition holding {X} (J : X -> Prop) (R : World -> World -> Prop)
  : X * World -> X * World -> Prop :=
  keeps (fun s => J (fst s)) (on_world R).

(** [J] holds of the local variable [ome] of [submodules] when it is set. *)
Definition of_ome (J : OME.t -> Prop) (locals : OME.t * option OME.t) : Prop :=
  forall o, snd locals = Some o -> J o.

(** The git commands of a run, [git config] of [getRepository] apart:
    the build number is pushed when there is one that is not zero. *)
Definition known_command (format_g : Z -> string) (base : string) (buildnumber : option Z)
    (command : list string) : Prop :=
  command ∈ [["git"; "reset"; "--hard"; "HEAD"];
             ["git"; "log"; "--oneline"; "-n"; "1"; "HEAD"];
             ["git"; "submodule"; "status"];
             ["git"; "submodule"; "update"];
             ["git"; "submodule"; "foreach"; "git config --get remote.origin.url"]] \/
  (exists user name,
     command = ["git"; "remote"; "add"; OME.remote_key user; OME.remote_url user name]) \/
  (exists user, command = ["git"; "fetch"; OME.remote_key user]) \/
  (exists message sha, command = ["git"; "merge"; "--no-ff"; "-m"; message; sha]) \/
  (exists message, command = ["git"; "commit"; "--allow-empty"; "-a"; "-n"; "-m"; message]) \/
  (exists user, command = ["git"; "remote"; "rm"; OME.remote_key user]) \/
  (exists n, buildnumber = Some n /\ n <> 0 /\
             command = ["git"; "push"; "team"; "HEAD:" +:+ base +:+ "/" +:+ format_g n]).

Definition known_event (format_g : Z -> string) (base : string) (buildnumber : option Z)
    (ev : event) : Prop :=
  match ev with
  | Popen _ command _ => known_command format_g base buildnumber command
  | _ => True
  end.

(** The concrete run of [Scenario], in a checkout whose origin is [url]
    and which has the remote [origin]. *)
Definition origin_env (url : string) : Env :=
  {| github := Scenario.gh;
     git := fun history dir command =>
       if bool_decide (command = ["git"; "config"; "--get"; "remote.origin.url"])
       then (0, url) else Scenario.git_ok history dir command;
     isdir := Scenario.dirs |}.

Definition w_origin : World :=
  {| cwd := "/work"; git_remotes := {["/work" := {["origin"]}]}; files := ∅; trace := [] |}.

(** The events of the constructor. *)
Definition init_event (reset : bool) (ev : event) : Prop :=
  match ev with
  | Popen _ command _ =>
      command ∈ (if reset then [["git"; "reset"; "--hard"; "HEAD"]] else [])
                ++ [["git"; "log"; "--oneline"; "-n"; "1"; "HEAD"];
                    ["git"; "submodule"; "status"]]
  | _ => True
  end.

(** The path of the side file of some directory. *)
Definition side_path (p : string) : Prop := exists dir, p = dir +:+ "/" +:+ "directories.txt".

(** From [w] to [w'] no file was written but side files. *)
Definition side_only (w w' : World) : Prop :=
  forall p, files w' !! p <> files w !! p -> side_path p.

(** ** The Python primitives on examples *)

Example split_examples :
  Py.split "git@github.com:org/repo.git" "/" = ["git@github.com:org"; "repo.git"] /\
  Py.split "https://github.com/org/repo" "/" = ["https:"; ""; "github.com"; "org"; "repo"] /\
  Py.split "" "/" = [""] /\ Py.split "a/" "/" = ["a"; ""].
Proof. repeat split; reflexivity. Qed.

Example splitlines_examples :
  Py.splitlines ("a" +:+ Py.nl +:+ Py.nl +:+ "b" +:+ String "013" Py.nl +:+ "c" +:+ Py.nl)
  = ["a"; ""; "b"; "c"] /\
  Py.splitlines "" = [] /\ Py.splitlines Py.nl = [""].
Proof. repeat split; reflexivity. Qed.

Example replace_examples :
  Py.replace "--test a--testb--tes" "--test" "" = " ab--tes" /\
  Py.replace "aaa" "aa" "b" = "ba".
Proof. repeat split; reflexivity. Qed.

Example slice_examples :
  Py.str_slice "'path'" 1 (-1) = "path" /\ Py.str_slice "repo.git" 0 (-4) = "repo" /\
  Py.str_slice "git" 0 (-4) = "" /\
  Py.slice [1] (-1) 1 = [1] /\ Py.slice [1; 2; 3] 1 3 = [2; 3] /\
  Py.item [1; 2; 3] (-1) = Some 3 /\ Py.item [1; 2; 3] 3 = None.
Proof. repeat split; reflexivity. Qed.

Example string_examples :
  Py.strip "  a b  " = "a b" /\ Py.lower "AbZ[@z" = "abz[@z" /\
  Py.endswith "repo.git" ".git" = true /\ Py.endswith "git" ".git" = false /\
  Py.contains ":" "a:b" = true /\
  Py.int " -12 " = Some (-12) /\ Py.int "1 2" = None /\ Py.int "" = None /\
  Py.str (-12) = "-12".
Proof. repeat split; vm_compute; reflexivity. Qed.

(** ** The filter *)

Lemma foldl_include data (l : list string) (b : bool) :
  foldl (fun found filter => if OME.label_in filter data then true else found) b l
  = b || hit l data.
Proof.
  revert b. induction l as [|f l IH]; intros b; simpl.
  - by rewrite orb_false_r.
  - rewrite IH. destruct (OME.label_in f data), b; reflexivity.
Qed.

Lemma foldl_exclude data (l : list string) (b : bool) :
  foldl (fun found filter => if OME.label_in filter data then false else found) b l
  = b && negb (hit l data).
Proof.
  revert b. induction l as [|f l IH]; intros b; simpl.
  - by rewrite andb_true_r.
  - rewrite IH. destruct (OME.label_in f data), b; reflexivity.
Qed.

Lemma truthy_false_items l : truthy l = false -> items l = [].
Proof. destruct l as [[|]|]; simpl; congruence. Qed.

Lemma qualifies_closed_form org base include exclude data :
  OME.qualifies org base include exclude data
  = bool_decide (Data.base data = base)
    && (has_in_public_members org (Data.login data) || hit (items include) data)
    && negb (hit (items exclude) data).
Proof.
  unfold OME.qualifies.
  destruct (bool_decide (Data.base data = base)); simpl.
  2: { by destruct (truthy exclude). }
  destruct (has_in_public_members org (Data.login data)); simpl.
  - destruct (truthy exclude) eqn:He.
    + by rewrite foldl_exclude.
    + by rewrite (truthy_false_items _ He).
  - destruct (truthy include) eqn:Hi.
    + rewrite foldl_include. simpl.
      destruct (hit (items include) data); simpl.
      * destruct (truthy exclude) eqn:He.
        -- by rewrite foldl_exclude.
        -- by rewrite (truthy_false_items _ He).
      * by destruct (truthy exclude).
    + rewrite (truthy_false_items _ Hi). simpl. by destruct (truthy exclude).
Qed.

Lemma hit_meet filters data :
  hit filters data = true <-> meet_nocase filters (Data.labels data).
Proof.
  unfold hit, meet_nocase. rewrite existsb_exists. split.
  - intros (f & Hf & Hl). apply bool_decide_eq_true in Hl.
    apply list_elem_of_fmap in Hl as (l & Hl & Hin).
    exists f, l. by rewrite list_elem_of_In.
  - intros (f & l & Hf & Hl & Heq). exists f. split; [by apply list_elem_of_In|].
    apply bool_decide_eq_true. apply list_elem_of_fmap. by exists l.
Qed.

Lemma hit_lower filters data :
  hit filters data
  = existsb (fun f => bool_decide (f ∈ Py.lower <$> Data.labels data)) (Py.lower <$> filters).
Proof. unfold hit. induction filters as [|f l IH]; simpl; [done|]. by rewrite IH. Qed.

Lemma items_lower (a b : option (list string)) :
  lower_filters a = lower_filters b ->
  Py.lower <$> items a = Py.lower <$> items b.
Proof. destruct a, b; simpl; congruence. Qed.

(** C1, as amended. A pull request qualifies exactly when its base is the
    target base, its author is a public member of the organization or one
    of its labels equals an include filter up to letter case, and none of
    its labels equals an exclude filter up to letter case. In particular a
    pull request that matches both an include and an exclude filter does
    not qualify. *)
Theorem qualifies_iff org base include exclude data :
  (OME.qualifies org base include exclude data = true <->
   Data.base data = base /\
   (has_in_public_members org (Data.login data) = true \/
    meet_nocase (items include) (Data.labels data)) /\
   ~ meet_nocase (items exclude) (Data.labels data)) /\
  (meet_nocase (items include) (Data.labels data) ->
   meet_nocase (items exclude) (Data.labels data) ->
   OME.qualifies org base include exclude data = false).
Proof.
  rewrite qualifies_closed_form. split.
  - rewrite !andb_true_iff, orb_true_iff, negb_true_iff, bool_decide_eq_true.
    rewrite <- not_true_iff_false, !hit_meet. tauto.
  - intros _ He. apply hit_meet in He. rewrite He. by rewrite andb_false_r.
Qed.

(** C1 as the specification words it, with labels compared as they are
    written, fails: the label [Bug] does not occur in the include set
    [bug], and the pull request qualifies all the same. *)
Lemma qualifies_exact_labels_counterexample :
  let nobody := {| get_repo := fun _ => None; has_in_public_members := fun _ => false |} in
  let data := {| Data.pr := {| head_sha := "c0ffee"; base_ref := "develop";
                               head_user_login := "mallory"; pr_title := "Fix";
                               issue_url := "https://api.github.com/repos/o/r/issues/4" |};
                 Data.sha := "c0ffee"; Data.base := "develop"; Data.login := "mallory";
                 Data.title := "Fix"; Data.num := 4; Data.labels := ["Bug"];
                 Data.comments := [] |} in
  ~ (OME.qualifies nobody "develop" (Some ["bug"]) None data = true <->
     Data.base data = "develop" /\
     (has_in_public_members nobody (Data.login data) = true \/
      meet (items (Some ["bug"])) (Data.labels data)) /\
     ~ meet (items None) (Data.labels data)).
Proof.
  intros nobody data [H _].
  destruct (H eq_refl) as (_ & [Hm | (x & Hx & Hl)] & _).
  - discriminate Hm.
  - simpl in Hx, Hl. apply list_elem_of_singleton in Hx, Hl. congruence.
Qed.

(** C10. Changing the letter case of the labels of a pull request, of the
    include filters or of the exclude filters does not change whether the
    pull request qualifies. *)
Theorem qualifies_case_insensitive org base include include' exclude exclude' data labels' :
  Py.lower <$> labels' = Py.lower <$> Data.labels data ->
  lower_filters include' = lower_filters include ->
  lower_filters exclude' = lower_filters exclude ->
  OME.qualifies org base include' exclude' (relabel labels' data)
  = OME.qualifies org base include exclude data.
Proof.
  intros Hl Hi He. rewrite !qualifies_closed_form, !hit_lower. simpl.
  by rewrite Hl, (items_lower _ _ Hi), (items_lower _ _ He).
Qed.

Lemma qualifies_case_insensitive_witness :
  let data := {| Data.pr := Scenario.pull "5" "alice" "dev" "five"; Data.sha := "sha5";
                 Data.base := "dev"; Data.login := "alice"; Data.title := "five";
                 Data.num := 5; Data.labels := ["include"; "Wip"]; Data.comments := [] |} in
  OME.qualifies Scenario.org "dev" (Some ["INCLUDE"]) (Some ["WIP"])
                (relabel ["Include"; "wip"] data)
  = OME.qualifies Scenario.org "dev" (Some ["include"]) (Some ["wip"]) data.
Proof.
  intros data. apply qualifies_case_insensitive; reflexivity.
Defined.
(** ** Strings *)

Lemma app_nil_r_str (s : string) : s +:+ "" = s.
Proof. induction s as [|c s IH]; [reflexivity|]. unfold String.app in *. simpl. by rewrite IH. Qed.

Lemma app_assoc_str (a b c : string) : (a +:+ b) +:+ c = a +:+ (b +:+ c).
Proof. induction a as [|x a IH]; [reflexivity|]. unfold String.app in *. simpl. by rewrite IH. Qed.

Lemma app_cons_str (x : ascii) (a b : string) : String x a +:+ b = String x (a +:+ b).
Proof. reflexivity. Qed.

Lemma startswith_app (p s : string) : Py.startswith (p +:+ s) p = true.
Proof.
  induction p as [|a p IH]; [reflexivity|].
  rewrite app_cons_str. simpl. by rewrite Ascii.eqb_refl.
Qed.

Lemma replace_from_skip old new (t rest : string) :
  Py.replace_from old new (String.length t) (t +:+ rest) = Py.replace_from old new O rest.
Proof.
  induction t as [|c t IH]; [reflexivity|].
  rewrite app_cons_str. simpl. exact IH.
Qed.

Lemma replace_prefix (a : ascii) (old' new rest : string) :
  Py.replace (String a old' +:+ rest) (String a old') new
  = new +:+ Py.replace rest (String a old') new.
Proof.
  unfold Py.replace. rewrite app_cons_str.
  change (Py.replace_from (String a old') new 0 (String a (old' +:+ rest)))
    with (if Py.startswith (String a (old' +:+ rest)) (String a old')
          then new +:+ Py.replace_from (String a old') new
                         (String.length (String a old') - 1) (old' +:+ rest)
          else String a (Py.replace_from (String a old') new 0 (old' +:+ rest))).
  rewrite <- app_cons_str, startswith_app.
  replace (String.length (String a old') - 1)%nat with (String.length old') by (simpl; lia).
  by rewrite replace_from_skip.
Qed.

Lemma replace_absent (old new s : string) :
  Py.contains old s = false -> Py.replace s old new = s.
Proof.
  unfold Py.replace. induction s as [|c s IH]; [done|].
  intros H. simpl in H. apply orb_false_iff in H as [H1 H2].
  destruct old as [|a old]; [discriminate|].
  simpl in *. rewrite H1. by rewrite IH.
Qed.
(** ** The constructor *)

Section Scan.
Context (E : Env).

Lemma write_dirs f (d : string) (dirs : list string) (w : World) :
  for_each (d :: dirs) (fun directory => write f directory ;; write f Py.nl) w
  = (Return tt,
     set_files (<[f := default "" (files w !! f) +:+ lines_text (d :: dirs)]> (files w)) w).
Proof.
  revert d w. induction dirs as [|d' dirs IH]; intros d w.
  - unfold for_each, bind, write, ret, set_files. simpl.
    rewrite lookup_insert_eq, insert_insert_eq. simpl.
    by rewrite app_assoc_str, app_nil_r_str.
  - change (for_each (d :: d' :: dirs) ?b) with (b d ;; for_each (d' :: dirs) b).
    unfold bind at 1. unfold bind at 1. unfold write at 1 2.
    rewrite IH. unfold set_files. simpl.
    rewrite !lookup_insert_eq, !insert_insert_eq. simpl.
    by rewrite !app_assoc_str.
Qed.

Lemma lines_text_app a b : lines_text (a ++ b) = lines_text a +:+ lines_text b.
Proof.
  induction a as [|x a IH]; [reflexivity|]. simpl. by rewrite IH, !app_assoc_str.
Qed.

Lemma scan_returns org repo base include exclude files0 pulls :
  forall st u log w acc st' u' log' w',
    logged files0 (side_file w) log (files w) acc ->
    OME.scan org repo base include exclude pulls (st, u, log) w
    = (Return (st', u', log'), w') ->
    exists ds, all_data repo pulls = Some ds /\
      let sel := candidates org base include exclude ds in
      st' = st ++ sel /\
      u' = list_to_set (Data.login <$> sel) ∪ u /\
      cwd w' = cwd w /\ trace w' = trace w /\ git_remotes w' = git_remotes w /\
      logged files0 (side_file w) log' (files w')
             (acc ++ flat_map Data.test_directories sel).
Proof.
  induction pulls as [|pr pulls IH]; intros st u log w acc st' u' log' w' Hlog H.
  - simpl in H. unfold ret in H. simplify_eq. exists []. simpl.
    rewrite !app_nil_r. repeat split; [by rewrite (left_id_L ∅ (∪)) | done].
  - simpl in H. unfold bind at 1 in H. unfold OME.scan_pr in H.
    unfold bind at 1 in H. unfold of_result at 1 in H.
    destruct (Data.init repo pr) as [d|e] eqn:Hd; [|discriminate].
    destruct (OME.qualifies org base include exclude d) eqn:Hq.
    + destruct (Data.test_directories d) as [|dir dirs] eqn:Hdirs.
      * unfold ret at 1 in H.
        destruct (IH _ _ _ _ acc _ _ _ _ Hlog H) as (ds & Hds & Hs).
        exists (d :: ds). simpl. rewrite Hd, Hds. split; [done|].
        unfold candidates in *. simpl. rewrite Hq. simpl. rewrite Hdirs. simpl.
        destruct Hs as (-> & -> & ? & ? & ? & ?).
        rewrite <- app_assoc. repeat split; try done.
        by rewrite (assoc_L (∪)), (comm_L (∪) _ {[Data.login d]}).
      * unfold bind at 1 in H.
        assert (exists w1, (match log with
                            | Some f => ret f
                            | None => open_w "directories.txt"
                            end) w = (Return (side_file w), w1) /\
                  cwd w1 = cwd w /\ trace w1 = trace w /\ git_remotes w1 = git_remotes w /\
                  files w1 = <[side_file w := lines_text acc]> files0)
          as (w1 & Hw1 & Hc1 & Ht1 & Hg1 & Hf1).
        { destruct Hlog as [(-> & -> & Hf) | (-> & _ & Hf)].
          - eexists. split; [reflexivity|]. simpl. by rewrite Hf.
          - exists w. unfold ret. repeat split; try done.  }
        rewrite Hw1 in H. unfold bind at 1 in H. rewrite write_dirs in H.
        unfold ret at 1 in H.
        match type of H with
        | OME.scan _ _ _ _ _ _ _ ?w2 = _ =>
            assert (Hlog2 : logged files0 (side_file w2) (Some (side_file w)) (files w2)
                              (acc ++ dir :: dirs))
        end.
        { right. unfold side_file. simpl. rewrite Hc1. split; [done|].
          split; [by destruct acc|].
          rewrite Hf1, lookup_insert_eq, insert_insert_eq. simpl.
          by rewrite lines_text_app. }
        destruct (IH _ _ _ _ _ _ _ _ _ Hlog2 H) as (ds & Hds & Hs).
        exists (d :: ds). simpl. rewrite Hd, Hds. split; [done|].
        unfold candidates in *. simpl. rewrite Hq. simpl. rewrite Hdirs.
        destruct Hs as (-> & -> & Hc & Ht & Hg & Hl). simpl in Hc, Ht, Hg.
        rewrite <- !app_assoc. simpl.
        repeat split; try congruence;
          [by rewrite (assoc_L (∪)), (comm_L (∪) _ {[Data.login d]})|].
        unfold side_file in *. simpl in Hl. rewrite Hc1 in Hl.
        by rewrite <- app_assoc in Hl.
    + unfold ret at 1 in H.
      destruct (IH _ _ _ _ acc _ _ _ _ Hlog H) as (ds & Hds & Hs).
      exists (d :: ds). simpl. rewrite Hd, Hds. split; [done|].
      unfold candidates in *. simpl. by rewrite Hq.
Qed.

End Scan.

Lemma bind_returns {S A B} (m : M S A) (k : A -> M S B) s b s' :
  bind m k s = (Return b, s') ->
  exists a s1, m s = (Return a, s1) /\ k a s1 = (Return b, s').
Proof.
  unfold bind. destruct (m s) as [[a|e] s1]; [|discriminate]. intros H. by exists a, s1.
Qed.

Section Init.
Context (E : Env).

Lemma call_frame command w r w' :
  OME.call E command w = (r, w') ->
  cwd w' = cwd w /\ files w' = files w /\
  exists rc, trace w' = trace w ++ [Popen (cwd w) command rc] /\
             (r = Raise (CallFailed rc) /\ rc <> 0 /\ git_remotes w' = git_remotes w \/
              (exists out, r = Return out) /\ rc = 0 /\
              git_remotes w' = OME.git_effect (cwd w) command (git_remotes w)).
Proof.
  unfold OME.call. destruct (git E (trace w) (cwd w) command) as [rc out].
  destruct (rc =? 0) eqn:Hrc; intros H; simplify_eq; simpl;
    (split; [done|]); (split; [done|]); exists rc; (split; [done|]).
  - right. apply Z.eqb_eq in Hrc. eauto.
  - left. apply Z.eqb_neq in Hrc. eauto.
Qed.

Lemma init_returns org name base reset exclude include token w self w' :
  OME.init E org name base reset exclude include token w = (Return self, w') ->
  exists o repo ds,
    get_organization (github E) org = Some o /\
    get_repo o name = Some repo /\
    all_data repo (get_pulls repo) = Some ds /\
    let sel := candidates o base include exclude ds in
    self = {| OME.name := name; OME.reset := reset; OME.base := base;
              OME.commit_msg := OME.make_commit_msg base include exclude;
              OME.include := include; OME.exclude := exclude; OME.remotes := ∅;
              OME.token := token; OME.storage := OME.sort sel;
              OME.modifications := 0;
              OME.unique_logins := list_to_set (Data.login <$> sel) |} /\
    cwd w' = cwd w /\
    files w' = match flat_map Data.test_directories sel with
               | [] => files w
               | dirs => <[side_file w := lines_text dirs]> (files w)
               end.
Proof.
  unfold OME.init. intros H.
  apply bind_returns in H as (? & w1 & H1 & H).
  assert (cwd w1 = cwd w /\ files w1 = files w) as [Hc1 Hf1].
  { destruct reset.
    - apply bind_returns in H1 as (? & ? & H1 & H1'). unfold ret in H1'. simplify_eq.
      apply call_frame in H1. tauto.
    - unfold ret in H1. by simplify_eq. }
  apply bind_returns in H as (? & w2 & H2 & H). apply call_frame in H2 as (Hc2 & Hf2 & _).
  apply bind_returns in H as (? & w3 & H3 & H). apply call_frame in H3 as (Hc3 & Hf3 & _).
  apply bind_returns in H as (? & w4 & H4 & H).
  assert (cwd w4 = cwd w3 /\ files w4 = files w3) as [Hc4 Hf4].
  { destruct (truthy exclude); unfold emit, ret in H4; by simplify_eq. }
  apply bind_returns in H as (? & w5 & H5 & H).
  assert (w5 = w4) as ->.
  { destruct token as [[|]|]; unfold ret in H5; simplify_eq; try done.
    apply bind_returns in H5 as (? & ? & H5 & H5'). unfold ret in H5'.
    destruct (get_user_login (github E)); unfold of_option, ret, raise in H5; by simplify_eq. }
  apply bind_returns in H as (o & w6 & H6 & H).
  destruct (get_organization (github E) org) as [o'|] eqn:Ho;
    unfold of_option, ret, raise in H6; simplify_eq.
  apply bind_returns in H as (orepo & w7 & H7 & H).
  unfold try_except, bind in H7.
  destruct (get_repo o name) as [repo|] eqn:Hr; simpl in H7; unfold ret in H7; simplify_eq.
  apply bind_returns in H as (repo' & w8 & H8 & H). simpl in H8. unfold ret in H8. simplify_eq.
  apply bind_returns in H as ([[st u] log] & w9 & H9 & H).
  unfold ret in H. simplify_eq.
  match type of H9 with
  | OME.scan _ _ _ _ _ _ _ ?wx = _ =>
      assert (cwd wx = cwd w /\ files wx = files w) as [Hcx Hfx] by (split; congruence);
      eapply (scan_returns _ _ _ _ _ (files wx) _ _ _ _ _ []) in H9 as (ds & Hds & Hs);
      [|by left];
      assert (side_file wx = side_file w) as Hsf by (unfold side_file; congruence)
  end.
  exists o, repo', ds. split; [done|]. split; [done|]. split; [done|].
  simpl in Hs. destruct Hs as (-> & -> & Hc & _ & _ & Hl).
  split; [f_equal; by rewrite (right_id_L ∅ (∪))|].
  split; [congruence|].
  rewrite Hsf, Hfx in Hl.
  destruct Hl as [(_ & -> & ->) | (_ & Hne & ->)]; [done|].
  by destruct (flat_map _ _).
Qed.

End Init.

(** ** Sorting *)

Lemma insert_sorted_perm x l : OME.insert_sorted x l ≡ₚ x :: l.
Proof.
  induction l as [|y l IH]; simpl; [done|].
  destruct (Data.num x ?= Data.num y); try done.
  rewrite IH. apply Permutation_swap.
Qed.

Lemma sort_perm l : OME.sort l ≡ₚ l.
Proof.
  unfold OME.sort. induction l as [|x l IH]; simpl; [done|].
  by rewrite insert_sorted_perm, IH.
Qed.

Lemma insert_sorted_sorted x l :
  StronglySorted (by_num Z.le) l -> StronglySorted (by_num Z.le) (OME.insert_sorted x l).
Proof.
  induction 1 as [|y l Hs IH Hy]; simpl.
  - repeat constructor.
  - destruct (Data.num x ?= Data.num y) eqn:Hc.
    + apply Z.compare_eq in Hc. constructor; [by constructor|].
      constructor; [unfold by_num; lia|].
      eapply Forall_impl; [exact Hy|]. unfold by_num. intros; simpl in *; lia.
    + rewrite Z.compare_lt_iff in Hc. constructor; [by constructor|].
      constructor; [unfold by_num; lia|].
      eapply Forall_impl; [exact Hy|]. unfold by_num. intros; simpl in *; lia.
    + rewrite Z.compare_gt_iff in Hc. constructor; [done|].
      rewrite insert_sorted_perm. constructor; [unfold by_num; lia | done].
Qed.

Lemma sort_sorted l : StronglySorted (by_num Z.le) (OME.sort l).
Proof.
  unfold OME.sort. induction l as [|x l IH]; simpl; [constructor|].
  by apply insert_sorted_sorted.
Qed.

Lemma sorted_strict l :
  StronglySorted (by_num Z.le) l -> NoDup (Data.num <$> l) ->
  StronglySorted (by_num Z.lt) l.
Proof.
  induction 1 as [|y l Hs IH Hy]; intros Hnd; [constructor|].
  simpl in Hnd. apply NoDup_cons in Hnd as [Hy' Hnd].
  constructor; [by apply IH|].
  apply Forall_forall. intros z Hz.
  rewrite Forall_forall in Hy. specialize (Hy z Hz). unfold by_num in *.
  assert (Data.num z <> Data.num y); [|lia].
  intros Heq. apply Hy'. rewrite <- Heq. apply list_elem_of_fmap. eauto.
Qed.

(** ** Commands issued *)

Lemma zip_with_short {A B C} (f : A -> B -> C) (l1 l1' : list A) (l2 : list B) :
  (length l2 <= length l1)%nat -> zip_with f (l1 ++ l1') l2 = zip_with f l1 l2.
Proof.
  revert l2. induction l1 as [|a l1 IH]; intros [|b l2] Hl; simpl in *; try lia; try done.
  - by destruct l1'.
  - f_equal. apply IH. lia.
Qed.

Section Issues.
Context (E : Env).

Lemma issues_ret {A} (a : A) : issues (ret a) [].
Proof. intros w. exists []. simpl. by rewrite app_nil_r. Qed.

Lemma issues_call command : issues (OME.call E command) [command].
Proof.
  intros w. destruct (OME.call E command w) as [r w'] eqn:H.
  apply call_frame in H as (Hc & _ & rc & Ht & Hr). exists [rc]. simpl.
  split; [done|]. split; [done|].
  destruct Hr as [(-> & Hrc & _) | ((out & ->) & -> & _)].
  - exists [], rc. repeat split; try done.
  - split; [done|]. by constructor.
Qed.

Lemma issues_bind {A B} (m : M World A) (k : A -> M World B) cs cs' :
  issues m cs -> (forall a, issues (k a) cs') -> issues (bind m k) (cs ++ cs').
Proof.
  intros Hm Hk w. unfold bind. specialize (Hm w).
  destruct (m w) as [[a|e] w1]; simpl in *.
  - destruct Hm as (rcs & Ht & Hc & Hl & Hz). specialize (Hk a w1).
    destruct (k a w1) as [r w2]; simpl in *.
    destruct Hk as (rcs' & Ht' & Hc' & Hr). exists (rcs ++ rcs').
    rewrite zip_with_app by done. rewrite Ht', Ht, Hc, <- app_assoc.
    split; [done|]. split; [congruence|].
    destruct r.
    + destruct Hr as [Hl' Hz']. rewrite !length_app. split; [lia|].
      by apply Forall_app.
    + destruct Hr as (rcs0 & rc & -> & Hrc & -> & Hz' & Hl').
      exists (rcs ++ rcs0), rc. rewrite app_assoc. repeat split; try done.
      * by apply Forall_app.
      * rewrite !length_app in *. simpl in *. lia.
  - destruct Hm as (rcs & Ht & Hc & rcs0 & rc & -> & Hrc & -> & Hz & Hl).
    exists (rcs0 ++ [rc]). rewrite zip_with_short by done.
    split; [done|]. split; [done|]. exists rcs0, rc. repeat split; try done.
    rewrite !length_app in *. simpl in *. lia.
Qed.

Lemma issues_for_each {A} (l : list A) (body : A -> M World unit) f :
  (forall x, issues (body x) (f x)) -> issues (for_each l body) (flat_map f l).
Proof.
  intros H. induction l as [|x l IH]; simpl.
  - apply issues_ret.
  - apply issues_bind; [apply H | intros _; apply IH].
Qed.

End Issues.

Lemma acts_as_ret {X A} (a : A) : acts_as (X := X) (ret a) (ret a).
Proof. by intros x w. Qed.

Lemma acts_as_lift_w {X A} (m : M World A) : acts_as (X := X) (lift_w m) m.
Proof. intros x w. unfold lift_w. by destruct (m w). Qed.

Lemma acts_as_modify_self {X} (f : X -> X) : acts_as (modify_self f) (ret tt).
Proof. by intros x w. Qed.

Lemma acts_as_bind {X A B} (m : M (X * World) A) mw (k : A -> M (X * World) B) kw :
  acts_as m mw -> (forall a, acts_as (k a) (kw a)) -> acts_as (bind m k) (bind mw kw).
Proof.
  intros Hm Hk x w. unfold bind. specialize (Hm x w).
  destruct (m (x, w)) as [r [x1 w1]], (mw w) as [r' w1']. simpl in Hm.
  destruct Hm as [-> ->]. destruct r'; [apply Hk | done].
Qed.

Lemma acts_as_for_each {X A} (l : list A) (body : A -> M (X * World) unit) bw :
  (forall a, acts_as (body a) (bw a)) -> acts_as (for_each l body) (for_each l bw).
Proof.
  intros H. induction l as [|a l IH]; simpl.
  - apply acts_as_ret.
  - apply acts_as_bind; [apply H | intros _; apply IH].
Qed.

(** ** merge *)

Section Merge.
Context (E : Env).

Lemma merge_acts_as self w :
  fst (OME.merge E (self, w)) = fst (merge_w E self w) /\
  snd (snd (OME.merge E (self, w))) = snd (merge_w E self w).
Proof.
  unfold OME.merge.
  change (bind get_self ?k (self, w)) with (k self (self, w)).
  match goal with
  | |- fst (?m (self, w)) = _ /\ _ => cut (acts_as m (merge_w E self)); [intros Ha; apply Ha|]
  end.
  apply acts_as_bind.
  { apply acts_as_for_each. intros user.
    apply acts_as_bind; [apply acts_as_lift_w | intros _].
    apply acts_as_bind; [apply acts_as_modify_self | intros _].
    apply acts_as_bind; [apply acts_as_lift_w | intros _]. apply acts_as_ret. }
  intros _. apply acts_as_bind.
  { apply acts_as_for_each. intros data.
    apply acts_as_bind; [apply acts_as_lift_w | intros _].
    apply acts_as_modify_self. }
  intros _. apply acts_as_bind; [apply acts_as_lift_w | intros _]. apply acts_as_ret.
Qed.

Lemma map_as_flat_map {A B} (f : A -> B) (l : list A) :
  map f l = flat_map (fun x => [f x]) l.
Proof. induction l as [|x l IH]; simpl; [done|]. by rewrite IH. Qed.

Lemma merge_w_issues self : issues (merge_w E self) (merge_commands self).
Proof.
  unfold merge_w, merge_commands.
  apply issues_bind.
  { apply issues_for_each. intros user.
    apply (issues_bind _ _ [_] [_]); [apply issues_call | intros _].
    apply (issues_bind _ _ [] [_]); [apply issues_ret | intros _].
    apply (issues_bind _ _ [_] []); [apply issues_call | intros _]. apply issues_ret. }
  intros _. apply issues_bind.
  { rewrite map_as_flat_map. apply issues_for_each. intros data.
    apply (issues_bind _ _ [_] []); [apply issues_call | intros _]. apply issues_ret. }
  intros _.
  apply (issues_bind _ _ [_] []); [apply issues_call | intros _]. apply issues_ret.
Qed.

Lemma merge_issued self w :
  issued (merge_commands self) w
         (fst (OME.merge E (self, w))) (snd (snd (OME.merge E (self, w)))).
Proof.
  destruct (merge_acts_as self w) as [-> ->]. apply merge_w_issues.
Qed.

End Merge.

(** ** The merge pass and the side file *)

Lemma sort_7_3_5 (a b c : Data.t) :
  Data.num a = 7 -> Data.num b = 3 -> Data.num c = 5 -> OME.sort [a; b; c] = [b; c; a].
Proof.
  intros Ha Hb Hc. unfold OME.sort. simpl.
  rewrite Hb, Hc. simpl. rewrite Ha, Hb, Hc. reflexivity.
Qed.

(** C2. The commands of a merge pass are, in this order: for each login
    of [unique_logins] (each once, the logins of the qualifying pull
    requests) [git remote add] and then [git fetch]; one [git merge --no-ff]
    for each qualifying pull request, by ascending number (strictly so when
    the numbers are distinct; pull requests numbered 7, 3, 5 are stored as
    3, 5, 7); one [git submodule update]. The pass issues them in that order
    up to the first that fails, all of them when it returns. *)
Theorem merge_sequence E org name base reset exclude include token w0 self w1 w :
  OME.init E org name base reset exclude include token w0 = (Return self, w1) ->
  issued (merge_commands self) w
         (fst (OME.merge E (self, w))) (snd (snd (OME.merge E (self, w)))) /\
  (exists o repo ds,
     get_organization (github E) org = Some o /\ get_repo o name = Some repo /\
     all_data repo (get_pulls repo) = Some ds /\
     OME.storage self ≡ₚ candidates o base include exclude ds /\
     forall u, u ∈ elements (OME.unique_logins self) <->
               exists d, d ∈ candidates o base include exclude ds /\ Data.login d = u) /\
  NoDup (elements (OME.unique_logins self)) /\
  StronglySorted (by_num Z.le) (OME.storage self) /\
  (NoDup (Data.num <$> OME.storage self) ->
   StronglySorted (by_num Z.lt) (OME.storage self)) /\
  (forall a b c, Data.num a = 7 -> Data.num b = 3 -> Data.num c = 5 ->
                 OME.sort [a; b; c] = [b; c; a]).
Proof.
  intros H. apply init_returns in H as (o & repo & ds & Ho & Hr & Hds & Hself & _).
  simpl in Hself. split; [apply merge_issued|].
  split.
  { exists o, repo, ds. repeat split; try done; subst self; simpl.
    - apply sort_perm.
    - rewrite elem_of_elements, elem_of_list_to_set, list_elem_of_fmap.
      intros (d & -> & Hd). eauto.
    - rewrite elem_of_elements, elem_of_list_to_set, list_elem_of_fmap.
      intros (d & Hd & <-). eauto. }
  split; [apply NoDup_elements|].
  assert (StronglySorted (by_num Z.le) (OME.storage self)) as Hs
    by (subst self; apply sort_sorted).
  split; [done|]. split; [by apply sorted_strict|]. apply sort_7_3_5.
Qed.

Lemma merge_sequence_witness :
  exists self w1,
    Scenario.init Scenario.env = (Return self, w1) /\
    Data.num <$> OME.storage self = [3; 5; 7] /\
    issued (merge_commands self) w1
           (fst (OME.merge Scenario.env (self, w1)))
           (snd (snd (OME.merge Scenario.env (self, w1)))).
Proof.
  eexists; eexists. split; [vm_compute; reflexivity|]. split; [vm_compute; reflexivity|].
  eapply (merge_sequence Scenario.env "openmicroscopy" "top" "dev" false
            Scenario.exclude Scenario.include None Scenario.w0).
  vm_compute. reflexivity.
Defined.

Lemma test_directories_elem (d : Data.t) (x : string) :
  x ∈ Data.test_directories d <->
  exists comment line, comment ∈ Data.comments d /\ line ∈ Py.splitlines comment /\
                       Py.startswith line "--test" = true /\
                       x = Py.replace line "--test" "".
Proof.
  unfold Data.test_directories. rewrite list_elem_of_In, in_flat_map. split.
  - intros (comment & Hc & Hx). apply in_flat_map in Hx as (line & Hl & Hx).
    exists comment, line. rewrite !list_elem_of_In.
    destruct (Py.startswith line "--test"); [|done].
    apply list_elem_of_In, list_elem_of_singleton in Hx. done.
  - intros (comment & line & Hc & Hl & Hs & ->). exists comment.
    split; [by apply list_elem_of_In|]. apply in_flat_map. exists line.
    split; [by apply list_elem_of_In|]. rewrite Hs. by left.
Qed.

(** C4, as amended. When the constructor returns, the side file
    [directories.txt] of the working directory holds one line for each
    line of a comment of a qualifying pull request that begins with
    [--test], in the order GitHub lists the pull requests: that line with
    every occurrence of [--test] deleted, which is the rest of the line,
    leading blank included, when [--test] does not occur again in it.
    A comment line [--test integration/foo] gives the line
    [ integration/foo]. A pull request without such lines adds nothing, and
    without any such line the file is not written. *)
Theorem test_directories_side_file E org name base reset exclude include token w self w' :
  OME.init E org name base reset exclude include token w = (Return self, w') ->
  exists o repo ds,
    get_organization (github E) org = Some o /\ get_repo o name = Some repo /\
    all_data repo (get_pulls repo) = Some ds /\
    let sel := candidates o base include exclude ds in
    OME.storage self ≡ₚ sel /\
    files w' = match flat_map Data.test_directories sel with
               | [] => files w
               | dirs => <[side_file w := lines_text dirs]> (files w)
               end /\
    (forall d comment line,
       d ∈ sel -> comment ∈ Data.comments d -> line ∈ Py.splitlines comment ->
       Py.startswith line "--test" = true ->
       Py.replace line "--test" "" ∈ flat_map Data.test_directories sel) /\
    (forall d,
       (forall comment line, comment ∈ Data.comments d -> line ∈ Py.splitlines comment ->
                             Py.startswith line "--test" = false) ->
       Data.test_directories d = []) /\
    (forall rest,
       Py.replace ("--test" +:+ rest) "--test" "" = Py.replace rest "--test" "" /\
       (Py.contains "--test" rest = false ->
        Py.replace ("--test" +:+ rest) "--test" "" = rest)) /\
    Py.replace "--test integration/foo" "--test" "" = " integration/foo".
Proof.
  intros H. apply init_returns in H as (o & repo & ds & Ho & Hr & Hds & Hself & _ & Hf).
  exists o, repo, ds. cbv zeta in *. repeat split; try done.
  - subst self. apply sort_perm.
  - intros d comment line Hd Hc Hl Hs.
    rewrite list_elem_of_In, in_flat_map. exists d. rewrite <- !list_elem_of_In.
    split; [done|]. apply test_directories_elem. by exists comment, line.
  - intros d Hno. destruct (Data.test_directories d) as [|x l] eqn:Hx; [done|].
    assert (x ∈ Data.test_directories d) as Hin by (rewrite Hx; left).
    apply test_directories_elem in Hin as (comment & line & Hc & Hl & Hs & _).
    rewrite (Hno _ _ Hc Hl) in Hs. discriminate.
  - intros Hn. rewrite (replace_prefix "-" "-test" "" rest).
    rewrite (replace_absent _ _ _ Hn). reflexivity.
Qed.

Lemma test_directories_side_file_witness :
  exists self w',
    Scenario.init Scenario.env = (Return self, w') /\
    files w' !! "/work/directories.txt" = Some (" integration/foo" +:+ Py.nl).
Proof.
  eexists; eexists. split; [vm_compute; reflexivity|].
  destruct (test_directories_side_file Scenario.env "openmicroscopy" "top" "dev" false
              Scenario.exclude Scenario.include None Scenario.w0 _ _ eq_refl)
    as (o & repo & ds & Ho & Hr & Hds & _ & Hf & _).
  vm_compute in Ho. injection Ho as <-. vm_compute in Hr. injection Hr as <-.
  vm_compute in Hds. injection Hds as <-.
  vm_compute. reflexivity.
Defined.

(** C4 as the specification words it fails on its own example: pull
    request 7 qualifies and has the comment line [--test integration/foo],
    and the side file holds the line [ integration/foo], with the blank,
    not the line [integration/foo]. *)
Lemma test_directive_counterexample :
  exists self w' d text,
    Scenario.init Scenario.env = (Return self, w') /\
    d ∈ OME.storage self /\
    "--test integration/foo" ∈ flat_map Py.splitlines (Data.comments d) /\
    files w' !! "/work/directories.txt" = Some text /\
    Py.splitlines text = [" integration/foo"] /\
    "integration/foo" ∉ Py.splitlines text.
Proof.
  eexists; eexists; eexists; eexists.
  split; [vm_compute; reflexivity|].
  split; [simpl; right; right; left|].
  split; [vm_compute; right; left|].
  split; [vm_compute; reflexivity|].
  split; [vm_compute; reflexivity|].
  vm_compute. intros H. apply list_elem_of_singleton in H. discriminate H.
Qed.

(** ** Origin URLs *)

Lemma no_char_cons c x s : no_char c (String x s) <-> x <> c /\ no_char c s.
Proof.
  unfold no_char. simpl. destruct (Ascii.eqb_spec c x) as [->|Hne]; simpl.
  - split; [discriminate | intros [? _]; congruence].
  - split; [intros; split; congruence | tauto].
Qed.

Lemma no_char_app c a b : no_char c a -> no_char c b -> no_char c (a +:+ b).
Proof.
  intros Ha Hb. induction a as [|x a IH]; [exact Hb|].
  rewrite app_cons_str. apply no_char_cons in Ha as [Hx Ha].
  apply no_char_cons. auto.
Qed.

Lemma split_snoc s sep : exists l x, Py.split s sep = l ++ [x].
Proof.
  induction s as [|c s (l & x & IH)]; simpl.
  - by exists [], "".
  - destruct (Ascii.eqb c sep).
    + exists ("" :: l), x. by rewrite IH.
    + rewrite IH. destruct l as [|w l]; simpl.
      * by exists [], (String c x).
      * by exists (String c w :: l), x.
Qed.

Lemma split_absent s sep : no_char sep s -> Py.split s sep = [s].
Proof.
  induction s as [|c s IH]; [done|]. intros [Hc Hs]%no_char_cons. simpl.
  destruct (Ascii.eqb_spec c sep); [done|]. by rewrite IH.
Qed.

Lemma split_app_sep a b sep :
  Py.split (a +:+ String sep b) sep = Py.split a sep ++ Py.split b sep.
Proof.
  induction a as [|c a IH].
  - change ("" +:+ String sep b) with (String sep b). simpl. by rewrite Ascii.eqb_refl.
  - rewrite app_cons_str. simpl. rewrite IH.
    destruct (Ascii.eqb c sep); [done|].
    destruct (split_snoc a sep) as (l & x & ->). by destruct l.
Qed.

Lemma split_not_nil s sep : Py.split s sep <> [].
Proof. destruct (split_snoc s sep) as (l & x & ->). by destruct l. Qed.

Lemma split_app_absent a b sep l x :
  Py.split a sep = l ++ [x] -> no_char sep b ->
  Py.split (a +:+ b) sep = l ++ [x +:+ b].
Proof.
  revert l x. induction a as [|c a IH]; intros l x Ha Hb.
  - change ("" +:+ b) with b. rewrite split_absent by done.
    simpl in Ha. destruct l as [|? [|? ?]]; [|discriminate..].
    injection Ha as <-. reflexivity.
  - rewrite app_cons_str. simpl in *. destruct (Ascii.eqb c sep).
    + destruct l as [|w l]; simpl in Ha.
      { injection Ha as _ Ha. by apply split_not_nil in Ha. }
      injection Ha as <- Ha. by rewrite (IH l x).
    + destruct (split_snoc a sep) as (l' & x' & Hl). rewrite Hl in Ha.
      rewrite (IH _ _ Hl Hb).
      destruct l' as [|w' l']; simpl in *.
      * destruct l as [|? [|? ?]]; [|discriminate..].
        injection Ha as <-. reflexivity.
      * destruct l as [|w l]; simpl in Ha.
        { injection Ha as _ Ha. by destruct l'. }
        injection Ha as <- Ha. apply app_inj_tail in Ha as [-> ->]. reflexivity.
Qed.

Lemma clip_in len i : 0 <= i <= len -> Py.clip len i = i.
Proof. unfold Py.clip. destruct (Z.ltb_spec i 0); lia. Qed.

Lemma clip_neg len i : - len <= i < 0 -> Py.clip len i = len + i.
Proof. unfold Py.clip. destruct (Z.ltb_spec i 0); lia. Qed.

Lemma slice_last_two {A} (l : list A) (u v : A) :
  Py.slice (l ++ [u; v]) (Z.of_nat (length (l ++ [u; v])) - 2)
           (Z.of_nat (length (l ++ [u; v]))) = [u; v].
Proof.
  unfold Py.slice. rewrite !clip_in by (rewrite length_app; simpl; lia).
  rewrite length_app. simpl.
  replace (Z.to_nat (Z.of_nat (length l + 2) - 2)) with (length l) by lia.
  replace (Z.to_nat _) with 2%nat by lia.
  by rewrite drop_app_length.
Qed.

Lemma item_last {A} (l : list A) (x : A) : Py.item (l ++ [x]) (-1) = Some x.
Proof.
  unfold Py.item. rewrite length_app. simpl.
  replace (-1 + Z.of_nat (length l + 1)) with (Z.of_nat (length l)) by lia.
  destruct (Z.leb_spec 0 (Z.of_nat (length l))); [|lia].
  destruct (Z.ltb_spec (Z.of_nat (length l)) (Z.of_nat (length l + 1))); [|lia].
  simpl. rewrite Nat2Z.id. by rewrite list_lookup_middle.
Qed.

Lemma contains_middle (sub a b : string) : Py.contains sub (a +:+ sub +:+ b) = true.
Proof.
  induction a as [|c a IH].
  - change ("" +:+ sub +:+ b) with (sub +:+ b).
    destruct sub as [|x sub]; [by destruct b|].
    rewrite app_cons_str. simpl. rewrite Ascii.eqb_refl.
    by rewrite startswith_app.
  - rewrite app_cons_str. simpl. rewrite IH. apply orb_true_r.
Qed.

Lemma list_ascii_app (a b : string) :
  list_ascii_of_string (a +:+ b) = list_ascii_of_string a ++ list_ascii_of_string b.
Proof. induction a as [|c a IH]; [done|]. rewrite app_cons_str. simpl. by rewrite IH. Qed.

Lemma length_list_ascii (s : string) : length (list_ascii_of_string s) = String.length s.
Proof. induction s; simpl; auto. Qed.

Lemma length_app_str (a b : string) :
  String.length (a +:+ b) = (String.length a + String.length b)%nat.
Proof. induction a as [|c a IH]; [done|]. rewrite app_cons_str. simpl. by rewrite IH. Qed.

Lemma endswith_app (s suffix : string) : Py.endswith (s +:+ suffix) suffix = true.
Proof.
  unfold Py.endswith, Py.len. rewrite length_app_str.
  apply andb_true_iff. split; [apply Z.leb_le; lia|].
  apply bool_decide_eq_true. unfold Py.str_slice, Py.slice.
  rewrite list_ascii_app, length_app, !length_list_ascii.
  rewrite !clip_in by lia.
  replace (Z.to_nat (Z.of_nat (String.length s + String.length suffix)
                     - Z.of_nat (String.length suffix)))
    with (length (list_ascii_of_string s)) by (rewrite length_list_ascii; lia).
  rewrite drop_app_length, take_ge by (rewrite length_list_ascii; lia).
  apply string_of_list_ascii_of_string.
Qed.

Lemma strip_dot_git (s : string) : Py.str_slice (s +:+ ".git") 0 (-4) = s.
Proof.
  unfold Py.str_slice, Py.slice.
  rewrite list_ascii_app, length_app, !length_list_ascii.
  change (String.length ".git") with 4%nat.
  rewrite (clip_in _ 0), (clip_neg _ (-4)) by lia.
  change (Z.to_nat 0) with 0%nat. rewrite drop_0.
  replace (Z.to_nat _) with (length (list_ascii_of_string s))
    by (rewrite length_list_ascii; lia).
  rewrite take_app_length. apply string_of_list_ascii_of_string.
Qed.

Lemma parse_origin_parts (line : string) (l : list string) (u v : string) :
  Py.split (Py.strip line) "/" = l ++ [u; v] ->
  OME.parse_origin line
  = match (if Py.contains ":" u then Py.item (Py.split u ":") (-1) else Some u) with
    | Some org =>
        Return (org, if Py.endswith v ".git" then Py.str_slice v 0 (-4) else v)
    | None => Raise IndexError
    end.
Proof. intros H. unfold OME.parse_origin. by rewrite H, slice_last_two. Qed.

Lemma split_origin (host org rest : string) (sep : ascii) :
  sep = "/"%char \/ sep = ":"%char -> no_char "/" org -> no_char "/" rest ->
  exists l u,
    Py.split (host +:+ String sep (org +:+ "/" +:+ rest)) "/" = l ++ [u; rest] /\
    (sep = "/"%char /\ u = org \/ sep = ":"%char /\ exists x, u = x +:+ ":" +:+ org).
Proof.
  intros Hsep Ho Hr.
  replace (host +:+ String sep (org +:+ "/" +:+ rest))
    with ((host +:+ String sep org) +:+ String "/" rest)
    by (by rewrite app_assoc_str, !app_cons_str).
  rewrite split_app_sep, (split_absent rest) by done.
  destruct Hsep as [-> | ->].
  - rewrite split_app_sep, (split_absent org) by done.
    exists (Py.split host "/"), org. rewrite <- app_assoc. split; [done|]. by left.
  - destruct (split_snoc host "/") as (l & x & Hl).
    rewrite (split_app_absent _ _ _ _ _ Hl).
    2: { apply no_char_cons. split; [done|]. exact Ho. }
    exists l, (x +:+ ":" +:+ org). rewrite <- app_assoc. split; [done|]. right. eauto.
Qed.

(** C5. The origin URL of a submodule is parsed into the organization and
    the repository for the slash form and for the colon form, and one
    trailing [.git] is dropped: [git@github.com:org/repo.git] and
    [https://github.com/org/repo] both give [org] and [repo]. In general,
    any line that is, up to the blanks around it, a host followed by [/]
    or [:], an organization without [/] and [:], a [/] and a repository
    name without [/], with or without the suffix [.git], gives that
    organization and that repository. *)
Theorem parse_origin_forms (line host org repo : string) (sep : ascii) :
  sep = "/"%char \/ sep = ":"%char ->
  no_char "/" org -> no_char ":" org -> no_char "/" repo ->
  OME.parse_origin "git@github.com:org/repo.git" = Return ("org", "repo") /\
  OME.parse_origin "https://github.com/org/repo" = Return ("org", "repo") /\
  (Py.strip line = host +:+ String sep (org +:+ "/" +:+ (repo +:+ ".git")) ->
   OME.parse_origin line = Return (org, repo)) /\
  (Py.endswith repo ".git" = false ->
   Py.strip line = host +:+ String sep (org +:+ "/" +:+ repo) ->
   OME.parse_origin line = Return (org, repo)).
Proof.
  intros Hsep Ho Hc Hr.
  split; [vm_compute; reflexivity|]. split; [vm_compute; reflexivity|].
  assert (forall rest, no_char "/" rest ->
            Py.strip line = host +:+ String sep (org +:+ "/" +:+ rest) ->
            OME.parse_origin line
            = Return (org, if Py.endswith rest ".git" then Py.str_slice rest 0 (-4)
                           else rest)) as Hparse.
  { intros rest Hrest Hline.
    destruct (split_origin host org rest sep Hsep Ho Hrest) as (l & u & Hs & Hu).
    rewrite <- Hline in Hs. rewrite (parse_origin_parts _ _ _ _ Hs).
    destruct Hu as [[_ ->] | [_ [x ->]]].
    - unfold no_char in Hc. by rewrite Hc.
    - rewrite contains_middle.
      replace (x +:+ ":" +:+ org) with (x +:+ String ":" org) by done.
      rewrite split_app_sep, (split_absent org) by done.
      by rewrite item_last. }
  split.
  - intros Hline. rewrite (Hparse (repo +:+ ".git")); [|by apply no_char_app|done].
    by rewrite endswith_app, strip_dot_git.
  - intros Hend Hline. rewrite (Hparse repo) by done. by rewrite Hend.
Qed.

Lemma parse_origin_forms_witness :
  OME.parse_origin ("  ssh://git@example.org:ome/bio-formats.git" +:+ Py.nl)
  = Return ("ome", "bio-formats") /\
  OME.parse_origin "https://github.com/openmicroscopy/ome-documentation"
  = Return ("openmicroscopy", "ome-documentation").
Proof.
  split.
  - refine (proj1 (proj2 (proj2
      (parse_origin_forms ("  ssh://git@example.org:ome/bio-formats.git" +:+ Py.nl)
         "ssh://git@example.org" "ome" "bio-formats" ":"
         (or_intror eq_refl) eq_refl eq_refl eq_refl))) eq_refl).
  - refine (proj2 (proj2 (proj2
      (parse_origin_forms "https://github.com/openmicroscopy/ome-documentation"
         "https://github.com" "openmicroscopy" "ome-documentation" "/"
         (or_introl eq_refl) eq_refl eq_refl eq_refl))) eq_refl eq_refl).
Defined.

(** ** Failed lookups *)

Section Lookups.
Context (E : Env).
Hypothesis git_succeeds : forall history dir command, fst (git E history dir command) = 0.

Lemma call_succeeds command w :
  exists out w', OME.call E command w = (Return out, w') /\
    exists evs, trace w' = trace w ++ evs /\ Forall (fun ev => ~ is_log_error ev) evs.
Proof.
  unfold OME.call. specialize (git_succeeds (trace w) (cwd w) command).
  destruct (git E (trace w) (cwd w) command) as [rc out]. simpl in git_succeeds.
  subst rc. simpl. eexists _, _. split; [reflexivity|]. simpl.
  eexists. split; [reflexivity|]. constructor; [simpl; tauto | constructor].
Qed.

(** The statements of the constructor before the organization lookup. *)
Lemma init_reaches_lookup org name base reset exclude include token w :
  token_accepted E token ->
  exists w1 evs,
    trace w1 = trace w ++ evs /\ Forall (fun ev => ~ is_log_error ev) evs /\
      OME.init E org name base reset exclude include token w
      = bind (org_ <- of_option GithubException (get_organization (github E) org) ;;
              repo <- try_except
                        (r <- of_option GithubException (get_repo org_ name) ;;
                         ret (Some r))
                        (fun _ => emit (LogError "Failed to find %s" [name]) ;;
                                  ret None) ;;
              ret (org_, repo))
             (fun '(org_, repo) =>
                repo <- of_option AttributeError repo ;;
                '(storage, unique_logins, _) <-
                  OME.scan org_ repo base include exclude (get_pulls repo) ([], ∅, None) ;;
                ret {| OME.name := name; OME.reset := reset; OME.base := base;
                       OME.commit_msg := OME.make_commit_msg base include exclude;
                       OME.include := include; OME.exclude := exclude;
                       OME.remotes := ∅; OME.token := token;
                       OME.storage := OME.sort storage; OME.modifications := 0;
                       OME.unique_logins := unique_logins |}) w1.
Proof.
  intros Htok. unfold OME.init.
  assert (exists wa evs, (if reset then OME.call E ["git"; "reset"; "--hard"; "HEAD"] ;; ret tt
                          else ret tt) w = (Return tt, wa) /\
                         trace wa = trace w ++ evs /\
                         Forall (fun ev => ~ is_log_error ev) evs)
    as (wa & evsa & Ha & Hta & Hea).
  { destruct reset.
    - destruct (call_succeeds ["git"; "reset"; "--hard"; "HEAD"] w)
        as (out & w' & Hc & evs & Ht & He).
      exists w', evs. unfold bind. by rewrite Hc.
    - exists w, []. unfold ret. by rewrite app_nil_r. }
  destruct (call_succeeds ["git"; "log"; "--oneline"; "-n"; "1"; "HEAD"] wa)
    as (outb & wb & Hb & evsb & Htb & Heb).
  destruct (call_succeeds ["git"; "submodule"; "status"] wb)
    as (outc & wc & Hc & evsc & Htc & Hec).
  assert (exists wd evs, (if truthy exclude then emit (PrintList (items exclude))
                          else ret tt) wc = (Return tt, wd) /\
                         trace wd = trace wc ++ evs /\
                         Forall (fun ev => ~ is_log_error ev) evs)
    as (wd & evsd & Hd & Htd & Hed).
  { destruct (truthy exclude).
    - eexists _, _. split; [reflexivity|]. simpl. split; [reflexivity|].
      constructor; [simpl; tauto | constructor].
    - exists wc, []. unfold ret. by rewrite app_nil_r. }
  assert ((match token with
           | Some (String _ _) =>
               of_option GithubException (get_user_login (github E)) ;; ret tt
           | _ => ret tt
           end) wd = (Return tt, wd)) as Hf.
  { destruct token as [[|a s]|]; try reflexivity.
    destruct Htok as [login Hlogin]. unfold bind. by rewrite Hlogin. }
  exists wd, (evsa ++ evsb ++ evsc ++ evsd).
  split; [by rewrite Htd, Htc, Htb, Hta, <- !app_assoc|].
  split; [by rewrite !Forall_app|].
  unfold bind at 1. rewrite Ha. unfold bind at 1. rewrite Hb.
  unfold bind at 1. rewrite Hc. unfold bind at 1. rewrite Hd.
  unfold bind at 1. rewrite Hf. unfold bind.
  destruct (of_option GithubException (get_organization (github E) org) wd)
    as [[o|e] w2]; [|done].
  by destruct (try_except _ _ w2) as [[r|e] w3].
Qed.

(** C8, as amended. When the commands and the check of the token before
    it have succeeded: a failed lookup of the repository is logged, the
    handle stays unset and the constructor goes on to its next
    statement, which reads the handle and raises AttributeError; a failed
    lookup of the organization is not logged, and the constructor ends
    there with the error of the lookup. *)
Theorem lookup_failures org name base reset exclude include token w :
  token_accepted E token ->
  let r := fst (OME.init E org name base reset exclude include token w) in
  let w' := snd (OME.init E org name base reset exclude include token w) in
  (forall o, get_organization (github E) org = Some o -> get_repo o name = None ->
     r = Raise AttributeError /\
     exists evs, trace w' = trace w ++ evs ++ [LogError "Failed to find %s" [name]] /\
                 Forall (fun ev => ~ is_log_error ev) evs) /\
  (get_organization (github E) org = None ->
     r = Raise GithubException /\
     exists evs, trace w' = trace w ++ evs /\
                 Forall (fun ev => ~ is_log_error ev) evs).
Proof.
  intros Htok.
  destruct (init_reaches_lookup org name base reset exclude include token w Htok)
    as (w1 & evs & Ht & He & Hinit).
  simpl. rewrite Hinit. clear Hinit.
  split.
  - intros o Ho Hr. rewrite Ho. cbv [bind of_option ret raise try_except emit].
    rewrite Hr. simpl. split; [done|]. exists evs. by rewrite Ht, <- app_assoc.
  - intros Ho. rewrite Ho. cbv [bind of_option ret raise try_except emit]. simpl.
    split; [done|]. by exists evs.
Qed.

End Lookups.

Lemma git_ok_succeeds history dir command : fst (Scenario.git_ok history dir command) = 0.
Proof. unfold Scenario.git_ok. by destruct (_ && _). Qed.

Lemma lookup_failures_witness :
  fst (Scenario.init Scenario.env_no_repo) = Raise AttributeError /\
  fst (Scenario.init Scenario.env_no_org) = Raise GithubException.
Proof.
  split.
  - refine (proj1 (proj1 (lookup_failures Scenario.env_no_repo git_ok_succeeds
                            "openmicroscopy" "top" "dev" false Scenario.exclude
                            Scenario.include None Scenario.w0 I) _ eq_refl eq_refl)).
  - refine (proj1 (proj2 (lookup_failures Scenario.env_no_org git_ok_succeeds
                            "openmicroscopy" "top" "dev" false Scenario.exclude
                            Scenario.include None Scenario.w0 I) eq_refl)).
Defined.

(** C8 as the specification words it fails for the organization: when
    its lookup fails the constructor ends with the error of the lookup and
    nothing has been logged. *)
Lemma organization_lookup_counterexample :
  get_organization (github Scenario.env_no_org) "openmicroscopy" = None /\
  fst (Scenario.init Scenario.env_no_org) = Raise GithubException /\
  Forall (fun ev => ~ is_log_error ev) (trace (snd (Scenario.init Scenario.env_no_org))).
Proof.
  split; [reflexivity|]. split; [vm_compute; reflexivity|].
  vm_compute. repeat (constructor; [tauto|]). constructor.
Qed.

(** ** info *)

Lemma info_acts_as (g : OME.t) :
  exists mw : M World unit, acts_as (X := OME.t) (OME.info (Some g)) mw.
Proof.
  eexists. unfold OME.info.
  eapply acts_as_bind; [apply acts_as_ret|]. intros g0.
  eapply acts_as_for_each. intros data.
  eapply acts_as_bind; [apply acts_as_lift_w | intros ?].
  eapply acts_as_bind; [apply acts_as_lift_w | intros ?].
  apply acts_as_lift_w.
Qed.

Lemma info_ignores_self (g self : OME.t) (w : World) :
  fst (OME.info (Some g) (self, w)) = fst (OME.info (Some g) (g, w)) /\
  snd (snd (OME.info (Some g) (self, w))) = snd (snd (OME.info (Some g) (g, w))).
Proof.
  destruct (info_acts_as g) as [mw H].
  destruct (H self w) as [-> ->]. destruct (H g w) as [-> ->]. done.
Qed.

(** C9 fails on the code. In info mode the pass built for the submodule
    [sub] holds pull request 2 of [sub]; what it prints, through the global
    name [ome], are the three candidates of the top-level repository, and
    pull request 2 is not printed. In general [info] prints the storage of
    the global instance whatever instance it is called on. *)
Theorem info_prints_the_global_storage :
  (forall g self w,
     snd (snd (OME.info (Some g) (self, w))) = snd (snd (OME.info (Some g) (g, w)))) /\
  (let '(r, w) := OME.init Scenario.env "openmicroscopy" "sub" "dev" false
                    Scenario.exclude Scenario.include None
                    (set_cwd "/work/sub" Scenario.w0) in
   exists self, r = Return self /\ Data.num <$> OME.storage self = [2]) /\
  omap (fun ev => match ev with Print line => Some line | _ => None end)
       (trace (snd (Scenario.main Scenario.env true)))
  = ["# include";
     "https://api.github.com/repos/openmicroscopy/r/issues/3 three by bob for "
       +:+ Py.tab +:+ Py.tab +:+ "[???]"; "";
     "# include";
     "https://api.github.com/repos/openmicroscopy/r/issues/5 five by alice for "
       +:+ Py.tab +:+ Py.tab +:+ "[???]"; "";
     "# Include";
     "https://api.github.com/repos/openmicroscopy/r/issues/7 seven by alice for "
       +:+ Py.tab +:+ Py.tab +:+ "[???]"; ""].
Proof.
  split; [intros; apply info_ignores_self|].
  split; [vm_compute; eexists; split; reflexivity|].
  vm_compute. reflexivity.
Qed.

(** ** What the methods leave unchanged *)

Lemma preserves_ret {S A} (P : S -> S -> Prop) `{!Reflexive P} (a : A) :
  preserves P (ret a).
Proof. intros s. simpl. reflexivity. Qed.

Lemma preserves_raise {S A} (P : S -> S -> Prop) `{!Reflexive P} e :
  preserves P (raise (A := A) e).
Proof. intros s. simpl. reflexivity. Qed.

Lemma preserves_of_option {S A} (P : S -> S -> Prop) `{!Reflexive P} e (o : option A) :
  preserves P (of_option e o).
Proof. destruct o; [apply preserves_ret | apply preserves_raise]; done. Qed.

Lemma preserves_of_result {S A} (P : S -> S -> Prop) `{!Reflexive P} (r : result A) :
  preserves P (of_result r).
Proof. intros s. simpl. reflexivity. Qed.

Lemma preserves_bind {S A B} (P : S -> S -> Prop) `{!Transitive P}
    (m : M S A) (k : A -> M S B) :
  preserves P m -> (forall a, preserves P (k a)) -> preserves P (bind m k).
Proof.
  intros Hm Hk s. unfold bind. specialize (Hm s).
  destruct (m s) as [[a|e] s1]; simpl in *; [|done].
  etrans; [exact Hm | apply Hk].
Qed.

Lemma preserves_try_except {S A} (P : S -> S -> Prop) `{!Transitive P}
    (m : M S A) (h : exn -> M S A) :
  preserves P m -> (forall e, preserves P (h e)) -> preserves P (try_except m h).
Proof.
  intros Hm Hh s. unfold try_except. specialize (Hm s).
  destruct (m s) as [[a|e] s1]; simpl in *; [done|].
  etrans; [exact Hm | apply Hh].
Qed.

Lemma preserves_for_each {S A} (P : S -> S -> Prop) `{!Reflexive P, !Transitive P}
    (l : list A) (body : A -> M S unit) :
  (forall x, preserves P (body x)) -> preserves P (for_each l body).
Proof.
  intros H. induction l as [|x l IH]; simpl.
  - by apply preserves_ret.
  - apply preserves_bind; [done | apply H | intros _; apply IH].
Qed.

Lemma preserves_lift_w {X A} (Pw : World -> World -> Prop)
    (P : X * World -> X * World -> Prop) (m : M World A) :
  (forall x w w', Pw w w' -> P (x, w) (x, w')) ->
  preserves Pw m -> preserves P (lift_w m).
Proof.
  intros HP Hm [x w]. unfold lift_w. specialize (Hm w).
  destruct (m w) as [r w']. by apply HP.
Qed.

Global Instance quiet_refl : Reflexive quiet.
Proof. intros w. repeat split. exists []. by rewrite app_nil_r. Qed.

Global Instance quiet_trans : Transitive quiet.
Proof.
  intros w1 w2 w3 (Hc & Hg & evs & Ht) (Hc' & Hg' & evs' & Ht').
  split; [congruence|]. split; [congruence|].
  exists (evs ++ evs'). by rewrite Ht', Ht, app_assoc.
Qed.

Lemma rm_failed_app_l evs evs' dir k : rm_failed evs dir k -> rm_failed (evs ++ evs') dir k.
Proof. intros (rc & Hrc & Hin). exists rc. split; [done|]. apply elem_of_app. by left. Qed.

Lemma rm_failed_app_r evs evs' dir k : rm_failed evs' dir k -> rm_failed (evs ++ evs') dir k.
Proof. intros (rc & Hrc & Hin). exists rc. split; [done|]. apply elem_of_app. by right. Qed.

Global Instance clean_refl : Reflexive clean.
Proof. intros w. exists []. rewrite app_nil_r. split; [done|]. by left. Qed.

Global Instance clean_trans : Transitive clean.
Proof.
  intros w1 w2 w3 (evs & Ht & H) (evs' & Ht' & H').
  exists (evs ++ evs'). split; [by rewrite Ht', Ht, app_assoc|].
  intros dir k Hk. destruct (H' dir k Hk) as [Hk'|Hf].
  - destruct (H dir k Hk') as [?|Hf]; [by left|]. right. by apply rm_failed_app_l.
  - right. by apply rm_failed_app_r.
Qed.

Lemma quiet_clean w w' : quiet w w' -> clean w w'.
Proof.
  intros (_ & Hg & evs & Ht). exists evs. split; [done|].
  intros dir k Hk. left. unfold remotes_in in *. by rewrite <- Hg.
Qed.

Global Instance registered_refl : Reflexive registered.
Proof.
  intros [o w]. split; [done|]. split; [exists []; by rewrite app_nil_r|].
  split; [done|]. intros dir k Hk. by left.
Qed.

Global Instance registered_trans : Transitive registered.
Proof.
  intros [o1 w1] [o2 w2] [o3 w3] (Hc & (evs & Ht) & Hd & H) (Hc' & (evs' & Ht') & Hd' & H').
  unfold registered. simpl in *. split; [congruence|].
  split; [exists (evs ++ evs'); by rewrite Ht', Ht, app_assoc|].
  split; [by etrans|].
  intros dir k Hk. destruct (H' dir k Hk) as [Hk'|[Hdir Hk']].
  - destruct (H dir k Hk') as [?|[Hdir ?]]; [by left|]. right. split; [done|]. by apply Hd'.
  - right. split; [congruence | done].
Qed.

(** One step through a computation, by its outermost combinator. *)
Ltac frame_step :=
  lazymatch goal with
  | |- preserves _ (ret _) => apply preserves_ret; apply _
  | |- preserves _ (raise _) => apply preserves_raise; apply _
  | |- preserves _ (of_option _ _) => apply preserves_of_option; apply _
  | |- preserves _ (of_result _) => apply preserves_of_result; apply _
  | |- preserves _ (bind _ _) => apply preserves_bind; [apply _ | | intros ?]
  | |- preserves _ (try_except _ _) => apply preserves_try_except; [apply _ | | intros ?]
  | |- preserves _ (for_each _ _) =>
      apply preserves_for_each; [apply _ | apply _ | intros ?]
  end.

Section Frames.
Context (E : Env).

Lemma emit_quiet ev : preserves quiet (emit ev).
Proof. intros w. simpl. repeat split. by exists [ev]. Qed.

(** A command that is neither [git remote add] nor [git remote rm]. *)
Lemma call_quiet command :
  (forall dir m, OME.git_effect dir command m = m) ->
  preserves quiet (OME.call E command).
Proof.
  intros Heff w. destruct (OME.call E command w) as [r w'] eqn:H. simpl.
  apply call_frame in H as (Hc & _ & rc & Ht & Hr).
  split; [done|]. split; [|by eexists].
  destruct Hr as [(_ & _ & ->) | (_ & _ & ->)]; [done | apply Heff].
Qed.

Lemma files_quiet {A} (m : M World A) :
  (forall w, cwd (snd (m w)) = cwd w /\ git_remotes (snd (m w)) = git_remotes w /\
             trace (snd (m w)) = trace w) ->
  preserves quiet m.
Proof.
  intros H w. destruct (H w) as (Hc & Hg & Ht).
  split; [done|]. split; [done|]. exists []. by rewrite app_nil_r.
Qed.

Lemma scan_quiet org repo base include exclude pulls st :
  preserves quiet (OME.scan org repo base include exclude pulls st).
Proof.
  revert st. induction pulls as [|pr pulls IH]; intros st; simpl.
  - frame_step.
  - frame_step; [|apply IH].
    unfold OME.scan_pr. destruct st as [[storage logins] log].
    frame_step; [frame_step|].
    destruct (OME.qualifies _ _ _ _ _); [|frame_step].
    destruct (Data.test_directories _) as [|d dirs]; [frame_step|].
    frame_step.
    { destruct log; [frame_step | by apply files_quiet]. }
    frame_step; [|frame_step].
    frame_step. frame_step; by apply files_quiet.
Qed.

Lemma init_quiet org name base reset exclude include token :
  preserves quiet (OME.init E org name base reset exclude include token).
Proof.
  unfold OME.init.
  frame_step.
  { destruct reset; [|frame_step].
    frame_step; [by apply call_quiet | frame_step]. }
  frame_step; [by apply call_quiet|].
  frame_step; [by apply call_quiet|].
  frame_step.
  { destruct (truthy exclude); [apply emit_quiet | frame_step]. }
  frame_step.
  { destruct token as [[|? ?]|]; try frame_step; frame_step. }
  frame_step; [frame_step|].
  frame_step.
  { frame_step.
    - frame_step; frame_step.
    - frame_step; [apply emit_quiet | frame_step]. }
  frame_step; [frame_step|].
  apply preserves_bind; [apply _ | apply scan_quiet | intros [[st u] log]].
  frame_step.
Qed.

End Frames.

(** ** Remotes: merge registers, cleanup removes *)

Lemma set_modifications_same (o : OME.t) : only_modifications o o.
Proof. unfold only_modifications. by destruct o. Qed.

Lemma only_modifications_trans (a b c : OME.t) :
  only_modifications a b -> only_modifications b c -> only_modifications a c.
Proof. unfold only_modifications. intros -> ->. by destruct a. Qed.

Lemma only_modifications_remotes (a b : OME.t) :
  only_modifications a b -> OME.remotes b = OME.remotes a.
Proof. unfold only_modifications. by intros ->. Qed.

Lemma quiet_registered (o : OME.t) (w w' : World) : quiet w w' -> registered (o, w) (o, w').
Proof.
  intros (Hc & Hg & Ht). split; [done|]. split; [done|]. split; [done|].
  intros dir k Hk. left. unfold remotes_in in *. simpl in *. by rewrite <- Hg.
Qed.

Lemma preserves_get_self {X} (P : X * World -> X * World -> Prop) `{!Reflexive P} :
  preserves P get_self.
Proof. intros [x w]. simpl. reflexivity. Qed.

Global Instance untouched_refl : Reflexive untouched.
Proof. intros [o w]. split; [done | reflexivity]. Qed.

Global Instance untouched_trans : Transitive untouched.
Proof.
  intros [? ?] [? ?] [? ?] [? ?] [? ?]. unfold untouched in *. simpl in *.
  split; [congruence | by etrans].
Qed.

Section Remotes.
Context (E : Env).

Lemma add_registered (user name : string) :
  preserves registered
    (lift_w (OME.call E ["git"; "remote"; "add"; OME.remote_key user;
                         OME.remote_url user name]) ;;
     modify_self (fun self =>
       OME.set_remotes (<[OME.remote_key user := OME.remote_url user name]>
                          (OME.remotes self)) self) ;;
     lift_w (OME.call E ["git"; "fetch"; OME.remote_key user]) ;;
     ret tt).
Proof.
  intros [o w]. unfold bind at 1. unfold lift_w at 1.
  destruct (OME.call E _ w) as [r w1] eqn:Hadd.
  apply call_frame in Hadd as (Hc & _ & rc & Ht & Hr).
  destruct Hr as [(-> & _ & Hg) | ((out & ->) & _ & Hg)]; simpl.
  - split; [done|]. split; [by eexists|]. split; [done|].
    intros dir k Hk. left. unfold remotes_in in *. simpl in *. by rewrite <- Hg.
  - unfold bind at 1. simpl.
    match goal with
    | |- registered _ (snd (?m ?s)) =>
        transitivity s; [|cut (preserves registered m); [intros Hp; apply Hp|]]
    end.
    + split; [done|]. split; [by eexists|]. simpl.
      split; [apply dom_insert_subseteq|].
      intros dir k Hk. unfold remotes_in in *. simpl in *. rewrite Hg in Hk.
      simpl in Hk. destruct (decide (dir = cwd w)) as [->|Hne].
      * rewrite lookup_total_insert_eq in Hk. apply elem_of_union in Hk as [Hk|Hk].
        -- right. split; [done|]. apply elem_of_singleton in Hk as ->.
           rewrite dom_insert_L. apply elem_of_union. left. by apply elem_of_singleton.
        -- by left.
      * rewrite lookup_total_insert_ne in Hk by done. by left.
    + frame_step; [|frame_step].
      apply (preserves_lift_w quiet); [intros; by apply quiet_registered|].
      by apply call_quiet.
Qed.

Lemma merge_registered : preserves registered (OME.merge E).
Proof.
  unfold OME.merge.
  frame_step; [apply preserves_get_self; apply _|].
  frame_step. { frame_step. apply add_registered. }
  frame_step.
  { frame_step. frame_step.
    - apply (preserves_lift_w quiet); [intros; by apply quiet_registered|].
      by apply call_quiet.
    - intros [o w]. simpl. split; [done|]. split; [exists []; by rewrite app_nil_r|].
      split; [done|]. intros dir k Hk. by left. }
  frame_step; [|frame_step].
  apply (preserves_lift_w quiet); [intros; by apply quiet_registered|].
  by apply call_quiet.
Qed.

Lemma info_quiet (g : option OME.t) : preserves untouched (OME.info g).
Proof.
  assert (forall ev, preserves untouched (lift_w (emit ev))) as Hemit.
  { intros ev. apply (preserves_lift_w quiet); [by intros|apply emit_quiet]. }
  unfold OME.info. frame_step; [frame_step|].
  frame_step. frame_step; [apply Hemit|]. frame_step; apply Hemit.
Qed.

(** [cleanup] never raises; it tries every registered remote, and what is
    then left of them in the checkout are those whose removal failed. *)
Lemma cleanup_loop (o : OME.t) (l : list (string * string)) (w : World) :
  exists w' evs,
    for_each l (fun '(k, v) =>
      try_except (lift_w (OME.call E ["git"; "remote"; "rm"; k]) ;; ret tt)
                 (fun e => lift_w (emit (LogError "Failed to remove" [k])))) (o, w)
    = (Return tt, (o, w')) /\
    cwd w' = cwd w /\ trace w' = trace w ++ evs /\
    (forall dir k, k ∈ remotes_in w' dir ->
                   k ∈ remotes_in w dir /\
                   (dir = cwd w -> k ∈ l.*1 -> rm_failed evs dir k)) /\
    (forall k, k ∈ l.*1 ->
               exists rc, Popen (cwd w) ["git"; "remote"; "rm"; k] rc ∈ evs /\
                          (rc <> 0 -> LogError "Failed to remove" [k] ∈ evs)).
Proof.
  revert w. induction l as [|[k0 v0] l IH]; intros w.
  - exists w, []. rewrite app_nil_r. simpl. repeat split; try done.
    + intros _ Hk. by apply elem_of_nil in Hk.
    + intros k Hk. by apply elem_of_nil in Hk.
  - simpl. unfold bind at 1. unfold try_except at 1. unfold bind at 1. unfold lift_w at 1.
    destruct (OME.call E _ w) as [r w1] eqn:Hrm.
    apply call_frame in Hrm as (Hc & _ & rc & Ht & Hr).
    destruct Hr as [(-> & Hrc & Hg) | ((out & ->) & -> & Hg)]; simpl.
    + match goal with |- context [for_each l ?b (o, ?w2)] =>
        destruct (IH w2) as (w' & evs & -> & Hc' & Ht' & Hrem & Hall) end.
      simpl in *.
      exists w', ([Popen (cwd w) ["git"; "remote"; "rm"; k0] rc;
                   LogError "Failed to remove" [k0]] ++ evs).
      split; [done|]. split; [congruence|].
      split; [by rewrite Ht', Ht, <- !app_assoc|].
      rewrite Hc in *. split.
      * intros dir k Hk. destruct (Hrem dir k Hk) as [Hk1 Hf].
        unfold remotes_in in *. simpl in *. rewrite Hg in Hk1. split; [done|].
        intros -> [->|Hin]%elem_of_cons.
        -- exists rc. split; [done|]. left.
        -- apply (rm_failed_app_r [_; _]). by apply Hf.
      * intros k [->|Hin]%elem_of_cons.
        -- exists rc. split; [left|]. intros _. right. left.
        -- destruct (Hall k Hin) as (rc' & Hin' & Hlog). exists rc'.
           split; [by do 2 right|]. intros Hne. do 2 right. by apply Hlog.
    + match goal with |- context [for_each l ?b (o, ?w2)] =>
        destruct (IH w2) as (w' & evs & -> & Hc' & Ht' & Hrem & Hall) end.
      exists w', ([Popen (cwd w) ["git"; "remote"; "rm"; k0] 0] ++ evs).
      split; [done|]. split; [congruence|].
      split; [by rewrite Ht', Ht, <- !app_assoc|].
      rewrite Hc in *. split.
      * intros dir k Hk. destruct (Hrem dir k Hk) as [Hk1 Hf].
        unfold remotes_in in *. rewrite Hg in Hk1. simpl in Hk1.
        destruct (decide (dir = cwd w)) as [->|Hne].
        -- rewrite lookup_total_insert_eq in Hk1.
           apply elem_of_difference in Hk1 as [Hk1 Hk0]. split; [done|].
           intros _ [->|Hin]%elem_of_cons.
           ++ exfalso. apply Hk0. by apply elem_of_singleton.
           ++ apply (rm_failed_app_r [_]). by apply Hf.
        -- rewrite lookup_total_insert_ne in Hk1 by done. by split.
      * intros k [->|Hin]%elem_of_cons.
        -- exists 0. split; [left | done].
        -- destruct (Hall k Hin) as (rc' & Hin' & Hlog). exists rc'.
           split; [by right|]. intros Hne. right. by apply Hlog.
Qed.

Lemma cleanup_spec (o : OME.t) (w : World) :
  exists w' evs,
    OME.cleanup E (o, w) = (Return tt, (o, w')) /\
    cwd w' = cwd w /\ trace w' = trace w ++ evs /\
    (forall dir k, k ∈ remotes_in w' dir ->
                   k ∈ remotes_in w dir /\
                   (dir = cwd w -> k ∈ dom (OME.remotes o) -> rm_failed evs dir k)) /\
    (forall k, k ∈ dom (OME.remotes o) ->
               exists rc, Popen (cwd w) ["git"; "remote"; "rm"; k] rc ∈ evs /\
                          (rc <> 0 -> LogError "Failed to remove" [k] ∈ evs)).
Proof.
  destruct (cleanup_loop o (map_to_list (OME.remotes o)) w)
    as (w' & evs & Hrun & Hc & Ht & Hrem & Hall).
  assert (forall k, k ∈ dom (OME.remotes o) -> k ∈ (map_to_list (OME.remotes o)).*1) as Hdom.
  { intros k [v Hv]%elem_of_dom. apply list_elem_of_fmap. exists (k, v).
    split; [done|]. by apply elem_of_map_to_list. }
  exists w', evs. split; [exact Hrun|]. split; [done|]. split; [done|]. split.
  - intros dir k Hk. destruct (Hrem dir k Hk) as [? Hf]. split; [done|]. auto.
  - intros k Hk. auto.
Qed.

End Remotes.

(** ** The loop body of submodules *)

Lemma startswith_abspath (c dir : string) :
  Py.startswith c "/" = true -> Py.startswith (OME.abspath c dir) "/" = true.
Proof.
  intros Hc. unfold OME.abspath. destruct (Py.startswith dir "/") eqn:Hd; [done|].
  destruct c as [|a c]; [discriminate|]. rewrite app_cons_str. exact Hc.
Qed.

Lemma abspath_absolute (c dir : string) :
  Py.startswith dir "/" = true -> OME.abspath c dir = dir.
Proof. intros H. unfold OME.abspath. by rewrite H. Qed.

Lemma pending_quiet self w w' :
  git_remotes w' = git_remotes w -> (exists evs, trace w' = trace w ++ evs) ->
  pending self w ((self, None), w').
Proof.
  intros Hg (evs & Ht). split; [apply set_modifications_same|].
  exists evs. split; [done|]. intros dir k Hk. left.
  unfold remotes_in in *. simpl in *. by rewrite <- Hg.
Qed.

Lemma pending_registered self w w2 o2 o3 w3 :
  git_remotes w2 = git_remotes w -> (exists evs, trace w2 = trace w ++ evs) ->
  registered (o2, w2) (o3, w3) ->
  pending self w ((self, Some o3), w3).
Proof.
  intros Hg (evs & Ht) (Hc & (evs' & Ht') & _ & Hr). simpl in *.
  split; [apply set_modifications_same|].
  exists (evs ++ evs'). simpl. split; [by rewrite Ht', Ht, app_assoc|].
  intros dir k Hk. destruct (Hr dir k Hk) as [Hk2 | [-> Hk3]].
  - left. unfold remotes_in in *. by rewrite <- Hg.
  - right. right. exists o3. by rewrite Hc.
Qed.

Lemma pending_walked self w o3 w3 o4 w4 :
  pending self w ((self, Some o3), w3) ->
  cwd w4 = cwd w3 -> clean w3 w4 -> only_modifications o3 o4 ->
  pending self w ((self, Some o4), w4).
Proof.
  intros (Hs & evs & Ht & Hr) Hc (evs' & Ht' & Hr') Ho. simpl in *.
  split; [done|]. exists (evs ++ evs'). simpl. split; [by rewrite Ht', Ht, app_assoc|].
  intros dir k Hk. destruct (Hr' dir k Hk) as [Hk3 | Hf].
  - destruct (Hr dir k Hk3) as [? | [Hf | (o & [= <-] & -> & Hd)]].
    + by left.
    + right. left. by apply rm_failed_app_l.
    + right. right. exists o4. rewrite Hc.
      by rewrite (only_modifications_remotes _ _ Ho).
  - right. left. by apply rm_failed_app_r.
Qed.

Lemma pending_modifications self w self1 ome w1 n :
  pending self w ((self1, ome), w1) ->
  pending self w ((OME.set_modifications n self1, ome), w1).
Proof.
  intros (Hs & H). split; [|exact H]. simpl in *.
  eapply only_modifications_trans; [exact Hs|]. unfold only_modifications. by destruct self1.
Qed.

Lemma on_ome_some {A} (m : M (OME.t * World) A) (self o : OME.t) (w : World) :
  OME.on_ome m ((self, Some o), w)
  = (fst (m (o, w)), ((self, Some (fst (snd (m (o, w))))), snd (snd (m (o, w))))).
Proof. unfold OME.on_ome. by destruct (m (o, w)) as [r [o' w']]. Qed.

Lemma snd_bind {S A B} (m : M S A) (k : A -> M S B) (s : S) (Q : S -> Prop) :
  (forall a s1, m s = (Return a, s1) -> Q (snd (k a s1))) ->
  (forall e s1, m s = (Raise e, s1) -> Q s1) ->
  Q (snd (bind m k s)).
Proof.
  intros Hr He. unfold bind. destruct (m s) as [[a|e] s1]; [by apply Hr | by apply (He e)].
Qed.

Lemma lift_w_run {X A} (m : M World A) (x : X) (w : World) r s1 :
  lift_w m (x, w) = (r, s1) -> exists w', m w = (r, w') /\ s1 = (x, w').
Proof.
  unfold lift_w. destruct (m w) as [r' w']. intros [= <- <-]. by exists w'.
Qed.

Section Step.
Context (E : Env).

Lemma cd_run dir w r w' :
  OME.cd E dir w = (r, w') ->
  (r = Return tt /\ isdir E (OME.abspath (cwd w) dir) = true /\
   w' = set_cwd (OME.abspath (cwd w) dir) w) \/
  (r = Raise OSError /\ w' = w).
Proof.
  unfold OME.cd. destruct (isdir E _) eqn:H; intros [= <- <-]; [by left | by right].
Qed.

Lemma step_try_pending rec g info_mode dir org repo self w :
  walks E rec -> Py.startswith (cwd w) "/" = true ->
  pending self w (snd (OME.step_try E rec g info_mode dir org repo ((self, None), w))).
Proof.
  intros Hrec Habs. unfold OME.step_try.
  apply (snd_bind _ _ _ (pending self w)); [intros [] s Hs | intros e s Hs]; [|done].
  injection Hs as <-.
  (* self.cd(dir) *)
  apply (snd_bind _ _ _ (pending self w)); intros x s Hs;
    apply lift_w_run in Hs as (w1 & Hcd & ->);
    apply cd_run in Hcd as [(Hr & Hdir & ->) | (Hr & ->)]; try discriminate Hr.
  2: { apply pending_quiet; [done|]. exists []. by rewrite app_nil_r. }
  set (w1 := set_cwd (OME.abspath (cwd w) dir) w).
  assert (git_remotes w1 = git_remotes w /\ trace w1 = trace w) as [Hg1 Ht1] by done.
  assert (Py.startswith (cwd w1) "/" = true) as Habs1 by (by apply startswith_abspath).
  assert (isdir E (cwd w1) = true) as Hdir1 by done.
  clearbody w1.
  apply (snd_bind _ _ _ (pending self w)); [intros locals s Hs | intros e s Hs]; [|done].
  injection Hs as <- <-. simpl (fst _).
  (* ome = OME(...) *)
  clear x Hr.
  apply (snd_bind _ _ _ (pending self w)); intros o2 s Hs;
    apply lift_w_run in Hs as (w2 & Hinit & ->);
    pose proof (init_quiet E org repo (OME.base self) (OME.reset self) (OME.exclude self)
                  (OME.include self) (OME.token self) w1) as Hq;
    rewrite Hinit in Hq; destruct Hq as (Hc2 & Hg2 & evs2 & Ht2); simpl in Hc2, Hg2, Ht2.
  2: { apply pending_quiet; [congruence|]. exists evs2. congruence. }
  assert (git_remotes w2 = git_remotes w) as Hg2' by congruence.
  assert (exists evs, trace w2 = trace w ++ evs) as Ht2' by (exists evs2; congruence).
  apply (snd_bind _ _ _ (pending self w)); [intros [] s Hs | intros e s Hs]; [|done].
  injection Hs as <-.
  (* ome.info() or ome.merge() *)
  assert (exists r3 o3 w3,
            (if info_mode then OME.on_ome (OME.info g) else OME.on_ome (OME.merge E))
              ((self, Some o2), w2) = (r3, ((self, Some o3), w3)) /\
            registered (o2, w2) (o3, w3)) as (r3 & o3 & w3 & Hrun & Hreg).
  { destruct info_mode; rewrite on_ome_some; eexists _, _, _; (split; [reflexivity|]).
    - pose proof (info_quiet g (o2, w2)) as [Ho Hq].
      destruct (OME.info g (o2, w2)) as [r [o' w']]. simpl in *. subst o'.
      by apply quiet_registered.
    - pose proof (merge_registered E (o2, w2)) as Hm.
      by destruct (OME.merge E (o2, w2)) as [r [o' w']]. }
  pose proof (pending_registered self w w2 o2 o3 w3 Hg2' Ht2' Hreg) as Hp3.
  apply (snd_bind _ _ _ (pending self w)); intros x s Hs; rewrite Hrun in Hs;
    injection Hs as _ <-; [|exact Hp3].
  (* ome.submodules(info) *)
  assert (cwd w3 = cwd w1) as Hc3 by (destruct Hreg as (Hc & _); simpl in Hc; congruence).
  destruct (Hrec info_mode o3 w3) as (Hc4 & Hcl4 & Ho4); [congruence..|].
  apply (snd_bind _ _ _ (pending self w)); intros y s Hs; rewrite on_ome_some in Hs;
    injection Hs as _ <-;
    pose proof (pending_walked self w o3 w3 _ _ Hp3 Hc4 Hcl4 Ho4) as Hp4; [|exact Hp4].
  simpl. by apply pending_modifications.
Qed.

Lemma pending_cleanup self w self1 o w1 :
  pending self w ((self1, Some o), w1) ->
  exists w2, OME.cleanup E (o, w1) = (Return tt, (o, w2)) /\
             cwd w2 = cwd w1 /\ clean w w2.
Proof.
  intros (_ & evs1 & Ht1 & Hp). simpl in Ht1, Hp.
  destruct (cleanup_spec E o w1) as (w2 & evs2 & Hrun & Hc & Ht2 & Hrem & _).
  exists w2. split; [done|]. split; [done|].
  exists (evs1 ++ evs2). split; [by rewrite Ht2, Ht1, app_assoc|].
  intros dir k Hk. destruct (Hrem dir k Hk) as [Hk1 Hf].
  destruct (Hp dir k Hk1) as [? | [? | (o' & [= <-] & Hd & Hk')]].
  - by left.
  - right. by apply rm_failed_app_l.
  - right. apply rm_failed_app_r. by apply Hf.
Qed.

Lemma pending_none_clean self w self1 w1 : pending self w ((self1, None), w1) -> clean w w1.
Proof.
  intros (_ & evs & Ht & Hp). simpl in *. exists evs. split; [done|].
  intros dir k Hk. destruct (Hp dir k Hk) as [? | [? | (o & [=] & _)]]; auto.
Qed.

Lemma step_finally_spec cwd0 self w self1 ome1 w1 :
  pending self w ((self1, ome1), w1) ->
  Py.startswith cwd0 "/" = true -> isdir E cwd0 = true ->
  exists w3,
    OME.step_finally E cwd0 ((self1, ome1), w1) = (Return tt, ((self1, ome1), w3)) /\
    cwd w3 = cwd0 /\ clean w w3.
Proof.
  intros Hp Habs Hdir.
  assert (exists w2,
            (locals <- get_self ;;
             match snd locals with
             | Some _ => OME.on_ome (OME.cleanup E)
             | None => ret tt
             end) ((self1, ome1), w1) = (Return tt, ((self1, ome1), w2)) /\
            clean w w2) as (w2 & Hrun & Hcl).
  { destruct ome1 as [o|].
    - destruct (pending_cleanup _ _ _ _ _ Hp) as (w2 & Hc & _ & Hcl).
      exists w2. cbv [bind get_self snd]. by rewrite on_ome_some, Hc.
    - exists w1. split; [done|]. by eapply pending_none_clean. }
  exists (set_cwd cwd0 w2). unfold OME.step_finally, try_finally. rewrite Hrun.
  unfold lift_w, OME.cd. rewrite (abspath_absolute _ _ Habs), Hdir.
  split; [done|]. split; [done|].
  destruct Hcl as (evs & Ht & H). by exists evs.
Qed.

(** One submodule, whatever the outcome. *)
Lemma step_spec rec g info_mode cwd0 dir org repo self w :
  walks E rec ->
  Py.startswith cwd0 "/" = true -> isdir E cwd0 = true ->
  Py.startswith (cwd w) "/" = true ->
  walked cwd0 self w (snd (OME.step E rec g info_mode cwd0 dir org repo (self, w))).
Proof.
  intros Hrec Habs0 Hdir0 Habs. unfold OME.step, try_finally.
  pose proof (step_try_pending rec g info_mode dir org repo self w Hrec Habs) as Hp.
  destruct (OME.step_try E rec g info_mode dir org repo (self, None, w))
    as [r [[self1 ome1] w1]]. simpl in Hp.
  destruct (step_finally_spec cwd0 self w self1 ome1 w1 Hp Habs0 Hdir0)
    as (w3 & -> & Hc & Hcl).
  split; [done|]. split; [done|]. by destruct Hp.
Qed.

Lemma walked_stay self w : walked (cwd w) self w (self, w).
Proof. split; [done|]. split; [reflexivity | apply set_modifications_same]. Qed.

Lemma walked_trans dir self w self1 w1 s2 :
  walked dir self w (self1, w1) -> walked dir self1 w1 s2 -> walked dir self w s2.
Proof.
  intros (Hc & Hcl & Ho) (Hc' & Hcl' & Ho'). simpl in *.
  split; [done|]. split; [by etrans | by eapply only_modifications_trans].
Qed.

Lemma walked_quiet self w w' : quiet w w' -> walked (cwd w) self w (self, w').
Proof.
  intros Hq. split; [by destruct Hq|].
  split; [by apply quiet_clean | apply set_modifications_same].
Qed.

Lemma loop_spec rec g info_mode cwd0 :
  walks E rec -> Py.startswith cwd0 "/" = true -> isdir E cwd0 = true ->
  forall n lines self w,
    (length lines <= n)%nat -> cwd w = cwd0 ->
    walked cwd0 self w (snd (OME.submodules_loop E rec g info_mode cwd0 lines (self, w))).
Proof.
  intros Hrec Habs Hdir.
  induction n as [|n IH]; intros lines self w Hn <-.
  { destruct lines; [|simpl in Hn; lia]. apply walked_stay. }
  destruct lines as [|l1 rest]; [apply walked_stay|].
  cbn [OME.submodules_loop].
  destruct (bool_decide _); [apply walked_stay|].
  apply (snd_bind _ _ _ (walked (cwd w) self w)); intros dir s [= _ <-];
    [|apply walked_stay].
  destruct rest as [|l2 lines']; [apply walked_stay|].
  apply (snd_bind _ _ _ (walked (cwd w) self w));
    [intros [org repo] s [= _ <-] | intros e s [= _ <-]; apply walked_stay].
  pose proof (step_spec rec g info_mode (cwd w) dir org repo self w Hrec Habs Hdir Habs)
    as Hstep.
  apply (snd_bind _ _ _ (walked (cwd w) self w)); intros x [self1 w1] Hs;
    rewrite Hs in Hstep; simpl in Hstep; [|exact Hstep].
  eapply walked_trans; [exact Hstep|].
  destruct Hstep as (Hc1 & _). simpl in Hc1.
  apply IH; [simpl in Hn; lia | done].
Qed.

Lemma foreach_quiet :
  preserves quiet
    (OME.call E ["git"; "submodule"; "foreach"; "git config --get remote.origin.url"]).
Proof. by apply call_quiet. Qed.

Lemma commit_quiet self : preserves quiet (OME.call E (OME.commit_command self)).
Proof. by apply call_quiet. Qed.

(** The whole walk, whatever the outcome. *)
Lemma submodules_walks depth g : walks E (OME.submodules E depth g).
Proof.
  induction depth as [|depth IH]; intros info_mode self w Habs Hdir.
  { apply walked_stay. }
  cbn [OME.submodules].
  apply (snd_bind _ _ _ (walked (cwd w) self w)); intros o s Hs;
    apply lift_w_run in Hs as (w1 & Hcall & ->);
    pose proof (foreach_quiet w) as Hq; rewrite Hcall in Hq; simpl in Hq;
    [|by apply walked_quiet].
  apply (walked_trans _ _ _ self w1); [by apply walked_quiet|].
  assert (cwd w1 = cwd w) as Hc1 by (by destruct Hq). rewrite <- Hc1 in *.
  clear Hq Hcall w Hc1.
  apply (snd_bind _ _ _ (walked (cwd w1) self w1)); [intros cwd0 s Hs | intros e s Hs];
    apply lift_w_run in Hs as (w' & [= <- <-] & ->).
  rewrite abspath_absolute by done.
  pose proof (loop_spec (OME.submodules E depth g) g info_mode (cwd w1) IH Habs Hdir
                _ (Py.split o "010") self w1 (le_n _) eq_refl) as Hloop.
  apply (snd_bind _ _ _ (walked (cwd w1) self w1)); intros x [self2 w2] Hs;
    rewrite Hs in Hloop; simpl in Hloop; [|exact Hloop].
  apply (walked_trans _ _ _ self2 w2); [exact Hloop|].
  destruct Hloop as (Hc2 & _). simpl in Hc2. rewrite <- Hc2. clear Hs.
  apply (snd_bind _ _ _ (walked (cwd w2) self2 w2));
    [intros self3 s [= <- <-] | intros e s [=]].
  destruct (OME.modifications self2 =? 0); [apply walked_stay|].
  apply (snd_bind _ _ _ (walked (cwd w2) self2 w2)); intros y s Hs;
    apply lift_w_run in Hs as (w3 & Hcall & ->);
    pose proof (commit_quiet self2 w2) as Hq; rewrite Hcall in Hq; simpl in Hq;
    by apply walked_quiet.
Qed.

Lemma push_quiet format_g base n : preserves quiet (OME.pushTeam E format_g base n).
Proof. unfold OME.pushTeam. frame_step; [by apply call_quiet | frame_step]. Qed.

(** The top-level pass, whatever the outcome. *)
Lemma main_clean format_g depth org repo base reset info_mode exclude include
    buildnumber token w :
  Py.startswith (cwd w) "/" = true -> isdir E (cwd w) = true ->
  clean w (snd (OME.main E format_g depth org repo base reset info_mode exclude include
                         buildnumber token w)) /\
  cwd (snd (OME.main E format_g depth org repo base reset info_mode exclude include
                     buildnumber token w)) = cwd w.
Proof.
  intros Habs Hdir. unfold OME.main.
  apply (snd_bind _ _ _ (fun w' => clean w w' /\ cwd w' = cwd w)); intros ome w1 Hinit;
    pose proof (init_quiet E org repo base reset exclude include token w) as Hq;
    rewrite Hinit in Hq; simpl in Hq; [|split; [by apply quiet_clean | by destruct Hq]].
  destruct Hq as (Hc1 & Hg1 & Ht1).
  unfold try_finally.
  match goal with
  | |- context [?body (ome, w1)] =>
      assert (pending ome w ((ome, Some (fst (snd (body (ome, w1))))),
                             snd (snd (body (ome, w1)))) /\
              cwd (snd (snd (body (ome, w1)))) = cwd w) as [Hp Hc];
        [|destruct (body (ome, w1)) as [r [o' w']]]
  end.
  { set (Q := fun s : OME.t * World =>
                pending ome w ((ome, Some (fst s)), snd s) /\ cwd (snd s) = cwd w).
    assert (forall o2 w2 s3,
              Q (o2, w2) -> walked (cwd w2) o2 w2 s3 -> Q s3) as Hwalked.
    { intros o2 w2 [o3 w3] [Hp2 Hc2] (Hc3 & Hcl3 & Ho3). simpl in *.
      split; [|simpl; congruence].
      by apply (pending_walked ome w o2 w2 o3 w3). }
    apply (snd_bind _ _ _ Q).
    2: { intros e [o2 w2] Hm.
         assert (registered (ome, w1) (o2, w2)) as Hreg.
         { destruct info_mode; [discriminate Hm|].
           pose proof (merge_registered E (ome, w1)) as Hr. by rewrite Hm in Hr. }
         split; [by eapply pending_registered|].
         destruct Hreg as (Hc & _). simpl in *. congruence. }
    intros [] [o2 w2] Hm.
    assert (Q (o2, w2)) as HQ2.
    { assert (registered (ome, w1) (o2, w2)) as Hreg.
      { destruct info_mode; [injection Hm as <- <-; reflexivity|].
        pose proof (merge_registered E (ome, w1)) as Hr. by rewrite Hm in Hr. }
      split; [by eapply pending_registered|].
      destruct Hreg as (Hc & _). simpl in *. congruence. }
    assert (cwd w2 = cwd w) as Hc2 by (by destruct HQ2).
    pose proof (submodules_walks depth (Some ome) info_mode o2 w2
                  ltac:(congruence) ltac:(congruence)) as Hw.
    apply (snd_bind _ _ _ Q); intros x [o3 w3] Hs; rewrite Hs in Hw; simpl in Hw;
      pose proof (Hwalked _ _ _ HQ2 Hw) as HQ3; [|exact HQ3].
    destruct buildnumber as [n|]; [|exact HQ3].
    destruct (n =? 0); [exact HQ3|].
    apply (Hwalked o3 w3); [exact HQ3|].
    pose proof (push_quiet format_g base n w3) as Hq.
    unfold lift_w. destruct (OME.pushTeam E format_g base n w3) as [r w4].
    by apply walked_quiet. }
  simpl in Hp, Hc.
  destruct (pending_cleanup _ _ _ _ _ Hp) as (w2 & -> & Hc2 & Hcl).
  simpl. split; [done | congruence].
Qed.

End Step.

(** ** The walk over the submodules *)

Lemma preserves_try_finally {S A} (P : S -> S -> Prop) `{!Transitive P}
    (m : M S A) (fin : M S unit) :
  preserves P m -> preserves P fin -> preserves P (try_finally m fin).
Proof.
  intros Hm Hf s. unfold try_finally. specialize (Hm s).
  destruct (m s) as [r s1]. specialize (Hf s1).
  destruct (fin s1) as [[[]|e] s2]; simpl in *; by etrans.
Qed.

Global Instance keeps_self_refl {X} : Reflexive (@keeps_self X).
Proof. intros [[o x] w]. apply set_modifications_same. Qed.

Global Instance keeps_self_trans {X} : Transitive (@keeps_self X).
Proof. intros s1 s2 s3. apply only_modifications_trans. Qed.

Lemma lift_w_keeps_self {X A} (m : M World A) :
  preserves (@keeps_self X) (lift_w m).
Proof.
  intros [[o x] w]. unfold lift_w. destruct (m w) as [r w'].
  apply set_modifications_same.
Qed.

Section Walk.
Context (E : Env).

Lemma on_ome_keeps_self {A} (m : M (OME.t * World) A) :
  preserves keeps_self (OME.on_ome m).
Proof.
  intros [[o [c|]] w]; simpl; [|apply set_modifications_same].
  destruct (m (c, w)) as [r [c' w']]. apply set_modifications_same.
Qed.

Lemma step_try_keeps_self rec g info_mode dir org repo :
  preserves keeps_self (OME.step_try E rec g info_mode dir org repo).
Proof.
  unfold OME.step_try.
  frame_step. { intros [[o c] w]. apply set_modifications_same. }
  frame_step; [apply lift_w_keeps_self|].
  frame_step; [apply preserves_get_self; apply _|].
  frame_step; [apply lift_w_keeps_self|].
  frame_step. { intros [[o c] w]. apply set_modifications_same. }
  frame_step. { destruct info_mode; apply on_ome_keeps_self. }
  frame_step; [apply on_ome_keeps_self|].
  intros [[o c] w]. unfold keeps_self, only_modifications. simpl. by destruct o.
Qed.

Lemma step_finally_keeps_self cwd0 : preserves keeps_self (OME.step_finally E cwd0).
Proof.
  unfold OME.step_finally.
  apply preserves_try_finally; [apply _ | | apply lift_w_keeps_self].
  frame_step; [apply preserves_get_self; apply _|].
  destruct (snd _); [apply on_ome_keeps_self | frame_step].
Qed.

Lemma step_only_modifications rec g info_mode cwd0 dir org repo self w :
  only_modifications self
    (fst (snd (OME.step E rec g info_mode cwd0 dir org repo (self, w)))).
Proof.
  unfold OME.step.
  pose proof (preserves_try_finally keeps_self _ _
                (step_try_keeps_self rec g info_mode dir org repo)
                (step_finally_keeps_self cwd0) (self, None, w)) as H.
  destruct (try_finally _ _ (self, None, w)) as [r [[self' c] w']]. exact H.
Qed.

Lemma loop_only_modifications rec g info_mode cwd0 lines :
  forall n self w, (length lines <= n)%nat ->
    only_modifications self
      (fst (snd (OME.submodules_loop E rec g info_mode cwd0 lines (self, w)))).
Proof.
  intros n. revert lines. induction n as [|n IH]; intros lines self w Hn.
  { destruct lines; [|simpl in Hn; lia]. apply set_modifications_same. }
  destruct lines as [|l1 rest]; [apply set_modifications_same|].
  cbn [OME.submodules_loop].
  destruct (bool_decide _); [apply set_modifications_same|].
  apply (snd_bind _ _ _ (fun s => only_modifications self (fst s)));
    intros dir s [= _ <-]; [|apply set_modifications_same].
  destruct rest as [|l2 lines']; [apply set_modifications_same|].
  apply (snd_bind _ _ _ (fun s => only_modifications self (fst s)));
    [intros [org repo] s [= _ <-] | intros e s [= _ <-]; apply set_modifications_same].
  pose proof (step_only_modifications rec g info_mode cwd0 dir org repo self w) as Hstep.
  apply (snd_bind _ _ _ (fun s => only_modifications self (fst s)));
    intros x [self1 w1] Hs; rewrite Hs in Hstep; simpl in Hstep; [|exact Hstep].
  eapply only_modifications_trans; [exact Hstep|].
  apply IH. simpl in Hn. lia.
Qed.

(** C6. When the loop over the submodules of a level has ended normally:
    if [modifications] is zero, [submodules] returns and nothing more has
    happened, there is no commit at that level; if it is not zero, exactly
    one more command is run, after the loop, [git commit --allow-empty -a
    -n -m <message>] in the directory of the level, and [submodules]
    returns when it succeeds. The message is the commit message of the
    instance, which the loop does not change and which the constructor
    builds from the base branch and the include and exclude labels,
    followed by [: Update all modules w/o hooks]. *)
Theorem aggregate_commit depth g info_mode self w o w1 self2 w2 :
  OME.call E ["git"; "submodule"; "foreach"; "git config --get remote.origin.url"] w
  = (Return o, w1) ->
  OME.submodules_loop E (OME.submodules E depth g) g info_mode
    (OME.abspath (cwd w1) (cwd w1)) (Py.split o "010") (self, w1)
  = (Return tt, (self2, w2)) ->
  (OME.modifications self2 = 0 ->
   OME.submodules E (S depth) g info_mode (self, w) = (Return tt, (self2, w2))) /\
  (OME.modifications self2 <> 0 ->
   exists rc w3,
     OME.submodules E (S depth) g info_mode (self, w)
     = (if rc =? 0 then Return tt else Raise (CallFailed rc), (self2, w3)) /\
     trace w3
     = trace w2 ++ [Popen (cwd w2)
                      ["git"; "commit"; "--allow-empty"; "-a"; "-n"; "-m";
                       OME.commit_msg self +:+ ": Update all modules w/o hooks"] rc]) /\
  OME.commit_msg self2 = OME.commit_msg self /\
  (forall org name base reset exclude include token wa wb,
     OME.init E org name base reset exclude include token wa = (Return self, wb) ->
     OME.commit_msg self = OME.make_commit_msg base include exclude).
Proof.
  intros Hcall Hloop.
  assert (OME.commit_msg self2 = OME.commit_msg self) as Hmsg.
  { pose proof (loop_only_modifications (OME.submodules E depth g) g info_mode
                  (OME.abspath (cwd w1) (cwd w1)) (Py.split o "010") _ self w1 (le_n _))
      as Ho.
    rewrite Hloop in Ho. simpl in Ho. unfold only_modifications in Ho. by rewrite Ho. }
  assert (OME.submodules E (S depth) g info_mode (self, w)
          = (if OME.modifications self2 =? 0 then ret tt
             else lift_w (OME.call E (OME.commit_command self2)) ;; ret tt) (self2, w2))
    as Hrun.
  { cbn [OME.submodules]. unfold bind at 1. unfold lift_w at 1. rewrite Hcall.
    unfold bind at 1. simpl (lift_w _ _). unfold bind at 1. rewrite Hloop.
    reflexivity. }
  split; [|split; [|split; [done|]]].
  - intros Hz. rewrite Hrun, Hz. reflexivity.
  - intros Hnz. rewrite Hrun. apply Z.eqb_neq in Hnz. rewrite Hnz.
    unfold bind, lift_w.
    destruct (OME.call E (OME.commit_command self2) w2) as [r w3] eqn:Hcommit.
    apply call_frame in Hcommit as (_ & _ & rc & Ht & Hr).
    exists rc, w3. unfold OME.commit_command in Ht. rewrite Hmsg in Ht.
    split; [|exact Ht].
    destruct Hr as [(-> & Hrc & _) | ((out & ->) & -> & _)].
    + apply Z.eqb_neq in Hrc. by rewrite Hrc.
    + reflexivity.
  - intros org name base reset exclude include token wa wb Hinit.
    apply init_returns in Hinit as (? & ? & ? & _ & _ & _ & -> & _). reflexivity.
Qed.

(** C7. A submodule is processed from an existing working directory
    given by an absolute path, as [os.getcwd] gives it. Whatever happens
    while it is processed, also when that raises an error, the working
    directory after the step is the one before it; and so it is after the
    whole walk of [submodules]. *)
Theorem working_directory_restored depth g info_mode dir org repo self w :
  Py.startswith (cwd w) "/" = true -> isdir E (cwd w) = true ->
  cwd (snd (snd (OME.step E (OME.submodules E depth g) g info_mode
                          (OME.abspath (cwd w) (cwd w)) dir org repo (self, w))))
  = cwd w /\
  cwd (snd (snd (OME.submodules E depth g info_mode (self, w)))) = cwd w.
Proof.
  intros Habs Hdir. split.
  - rewrite abspath_absolute by done.
    by destruct (step_spec E (OME.submodules E depth g) g info_mode (cwd w) dir org repo
                   self w (submodules_walks E depth g) Habs Hdir Habs).
  - by destruct (submodules_walks E depth g info_mode self w Habs Hdir).
Qed.

(** C3. A pass started in an existing working directory given by an
    absolute path leaves no remote behind, whether it returns or raises: a
    remote that a checkout has after the pass and did not have before it is
    one whose [git remote rm] failed. This holds for the top-level pass and
    for the pass of each submodule. [cleanup] itself never raises: it runs
    [git remote rm] for every registered remote, logs each failure and
    goes on with the others, and the registered remotes that are left in
    the checkout are those whose removal failed. *)
Theorem remotes_removed format_g depth org repo base reset info_mode exclude include
    buildnumber token w :
  Py.startswith (cwd w) "/" = true -> isdir E (cwd w) = true ->
  clean w (snd (OME.main E format_g depth org repo base reset info_mode exclude include
                         buildnumber token w)) /\
  (forall g self dir org' repo',
     clean w (snd (snd (OME.step E (OME.submodules E depth g) g info_mode (cwd w)
                                 dir org' repo' (self, w))))) /\
  (forall o, exists w' evs,
     OME.cleanup E (o, w) = (Return tt, (o, w')) /\ trace w' = trace w ++ evs /\
     forall k, k ∈ dom (OME.remotes o) ->
       (exists rc, Popen (cwd w) ["git"; "remote"; "rm"; k] rc ∈ evs /\
                   (rc <> 0 -> LogError "Failed to remove" [k] ∈ evs)) /\
       (k ∈ remotes_in w' (cwd w) -> rm_failed evs (cwd w) k)).
Proof.
  intros Habs Hdir. split; [|split].
  - by destruct (main_clean E format_g depth org repo base reset info_mode exclude include
                   buildnumber token w Habs Hdir).
  - intros g self dir org' repo'.
    by destruct (step_spec E (OME.submodules E depth g) g info_mode (cwd w) dir org' repo'
                   self w (submodules_walks E depth g) Habs Hdir Habs) as (_ & ? & _).
  - intros o. destruct (cleanup_spec E o w) as (w' & evs & Hrun & _ & Ht & Hrem & Hall).
    exists w', evs. split; [done|]. split; [done|]. intros k Hk. split; [by apply Hall|].
    intros Hin. by destruct (Hrem _ _ Hin) as [_ Hf]; apply Hf.
Qed.

End Walk.

Lemma aggregate_commit_witness :
  exists o w1 self2 w2,
    OME.call Scenario.env Scenario.foreach Scenario.w0 = (Return o, w1) /\
    OME.submodules_loop Scenario.env (OME.submodules Scenario.env 2 None) None false
      (OME.abspath (cwd w1) (cwd w1)) (Py.split o "010") (Scenario.self0, w1)
    = (Return tt, (self2, w2)) /\
    OME.modifications self2 = 1 /\
    OME.commit_msg self2 = OME.commit_msg Scenario.self0.
Proof.
  eexists _, _, _, _.
  split; [vm_compute; reflexivity|]. split; [vm_compute; reflexivity|].
  split; [reflexivity|].
  refine (proj1 (proj2 (proj2
    (aggregate_commit Scenario.env 2 None false Scenario.self0 Scenario.w0 _ _ _ _ _ _)))).
  - vm_compute. reflexivity.
  - vm_compute. reflexivity.
Defined.

Lemma working_directory_restored_witness :
  Py.startswith (cwd Scenario.w0) "/" = true /\
  isdir Scenario.env_bad (cwd Scenario.w0) = true /\
  fst (OME.step Scenario.env_bad (OME.submodules Scenario.env_bad 2 None) None false
                "/work" "sub" "openmicroscopy" "sub" (Scenario.self0, Scenario.w0))
  = Raise (CallFailed 1) /\
  cwd (snd (snd (OME.step Scenario.env_bad (OME.submodules Scenario.env_bad 2 None) None
                          false "/work" "sub" "openmicroscopy" "sub"
                          (Scenario.self0, Scenario.w0))))
  = "/work".
Proof.
  split; [reflexivity|]. split; [reflexivity|]. split; [vm_compute; reflexivity|].
  exact (proj1 (working_directory_restored Scenario.env_bad 2 None false "sub"
                  "openmicroscopy" "sub" Scenario.self0 Scenario.w0 eq_refl eq_refl)).
Defined.

Lemma remotes_removed_witness :
  Py.startswith (cwd Scenario.w0) "/" = true /\
  isdir Scenario.env_bad (cwd Scenario.w0) = true /\
  fst (Scenario.main Scenario.env_bad false) = Raise (CallFailed 1) /\
  clean Scenario.w0 (snd (Scenario.main Scenario.env_bad false)).
Proof.
  split; [reflexivity|]. split; [reflexivity|]. split; [vm_compute; reflexivity|].
  exact (proj1 (remotes_removed Scenario.env_bad Py.str 5 "openmicroscopy" "top" "dev"
                  false false Scenario.exclude Scenario.include None None Scenario.w0
                  eq_refl eq_refl)).
Defined.

(** When [git remote rm] fails too, every removal is still tried and
    logged, and the remotes stay. *)
Example cleanup_goes_on :
  let w := snd (Scenario.main Scenario.env_worse false) in
  omap (fun ev => match ev with
                  | LogError _ [k] => Some k
                  | _ => None
                  end) (trace w)
  = ["merge_dave"; "merge_alice"; "merge_bob"] /\
  elements (remotes_in w "/work/sub") = ["merge_dave"] /\
  elements (remotes_in w "/work") ≡ₚ ["merge_alice"; "merge_bob"].
Proof.
  split; [vm_compute; reflexivity|]. split; [vm_compute; reflexivity|].
  vm_compute. done.
Qed.

(** * Further properties of the code *)

(** ** The lines of [git submodule foreach] *)

Lemma rstrip_snoc (a : string) (c : ascii) :
  Ascii.is_space c = false -> Py.rstrip (a +:+ String c "") = a +:+ String c "".
Proof.
  intros Hc. induction a as [|x a IH].
  - change ("" +:+ String c "") with (String c ""). simpl. by rewrite Hc.
  - rewrite app_cons_str. simpl. rewrite IH.
    destruct a; reflexivity.
Qed.

Lemma strip_framed (x c : ascii) (a : string) :
  Ascii.is_space x = false -> Ascii.is_space c = false ->
  Py.strip (String x (a +:+ String c "")) = String x (a +:+ String c "").
Proof.
  intros Hx Hc. unfold Py.strip. simpl. rewrite Hx.
  change (String x (a +:+ String c "")) with (String x a +:+ String c "").
  by apply rstrip_snoc.
Qed.

Lemma str_slice_inner (x c : ascii) (a : string) :
  Py.str_slice (String x (a +:+ String c "")) 1 (-1) = a.
Proof.
  unfold Py.str_slice, Py.slice. simpl. rewrite list_ascii_app, length_app, length_list_ascii.
  simpl.
  rewrite (clip_in _ 1), (clip_neg _ (-1)) by lia.
  change (Z.to_nat 1) with 1%nat. simpl.
  replace (Z.to_nat _) with (length (list_ascii_of_string a))
    by (rewrite length_list_ascii; lia).
  rewrite drop_0, take_app_length. apply string_of_list_ascii_of_string.
Qed.

Lemma entering_line_dir (p : string) :
  no_char " " p -> OME.parse_dir ("Entering '" +:+ p +:+ "'") = Return p.
Proof.
  intros Hp. unfold OME.parse_dir.
  change ("Entering '" +:+ p +:+ "'") with (String "E" ("ntering '" +:+ p +:+ "'")).
  replace ("ntering '" +:+ p +:+ "'") with (("ntering '" +:+ p) +:+ String "'" "")
    by (by rewrite app_assoc_str).
  rewrite strip_framed by reflexivity.
  change (String "E" (("ntering '" +:+ p) +:+ "'"))
    with ("Entering" +:+ String " " (String "'" (p +:+ "'"))).
  rewrite split_app_sep, (split_absent "Entering") by reflexivity.
  rewrite split_absent.
  2:{ apply no_char_cons. split; [done|]. apply no_char_app; [done | reflexivity]. }
  simpl. unfold Py.item. simpl. by rewrite str_slice_inner.
Qed.

Lemma str_slice_behead (x : ascii) (a : string) :
  Py.str_slice (String x a) 1 (-1) = Py.str_slice a 0 (-1).
Proof.
  unfold Py.str_slice, Py.slice. simpl length. rewrite length_list_ascii.
  f_equal. rewrite (clip_in _ 1), (clip_neg _ (-1)), (clip_in _ 0) by lia.
  change (Z.to_nat 1) with 1%nat. change (Z.to_nat 0) with 0%nat. simpl drop. rewrite drop_0.
  destruct a as [|y a]; [reflexivity|].
  rewrite clip_neg by (simpl; lia). f_equal. simpl. lia.
Qed.

Lemma length_string_of_list (l : list ascii) : String.length (string_of_list_ascii l) = length l.
Proof. induction l; simpl; auto. Qed.

Lemma length_str_slice (s : string) (a b : Z) :
  (String.length (Py.str_slice s a b) <= String.length s)%nat.
Proof.
  unfold Py.str_slice, Py.slice. rewrite length_string_of_list, length_take, length_drop,
    length_list_ascii. lia.
Qed.

Lemma entering_line_blank (a b : string) :
  no_char " " a ->
  OME.parse_dir ("Entering '" +:+ a +:+ " " +:+ b +:+ "'") = Return (Py.str_slice a 0 (-1)).
Proof.
  intros Ha. unfold OME.parse_dir.
  change ("Entering '" +:+ a +:+ " " +:+ b +:+ "'")
    with (String "E" ("ntering '" +:+ a +:+ " " +:+ b +:+ "'")).
  replace ("ntering '" +:+ a +:+ " " +:+ b +:+ "'")
    with (("ntering '" +:+ a +:+ " " +:+ b) +:+ String "'" "")
    by (by rewrite !app_assoc_str).
  rewrite strip_framed by reflexivity.
  replace (String "E" (("ntering '" +:+ a +:+ " " +:+ b) +:+ "'"))
    with ("Entering" +:+ String " " (String "'" a +:+ String " " (b +:+ "'"))).
  2:{ rewrite !app_cons_str, !app_assoc_str. reflexivity. }
  rewrite split_app_sep, (split_absent "Entering") by reflexivity.
  rewrite split_app_sep, (split_absent (String "'" a)).
  2:{ apply no_char_cons. by split. }
  simpl. unfold Py.item. simpl.
  destruct (Z.ltb_spec 1 (Z.of_nat (S (S (length (Py.split (b +:+ "'") " ")))))); [|lia].
  by rewrite str_slice_behead.
Qed.

(** X1. The directory of a submodule is what stands between the quotes of
    the line [Entering 'dir'] that [git submodule foreach] prints, when
    it holds no blank. *)
Theorem parse_dir_entering (p : string) :
  no_char " " p -> OME.parse_dir ("Entering '" +:+ p +:+ "'") = Return p.
Proof. apply entering_line_dir. Qed.

Lemma parse_dir_entering_witness :
  no_char " " "components/bioformats" /\
  OME.parse_dir "Entering 'components/bioformats'" = Return "components/bioformats".
Proof. split; [reflexivity|]. exact (parse_dir_entering "components/bioformats" eq_refl). Defined.

(** X2. A directory with a blank is not found: the line is cut at the
    blanks, so what is taken for the directory is the part before the
    first blank without its last character. *)
Theorem parse_dir_blank (a b : string) :
  no_char " " a ->
  OME.parse_dir ("Entering '" +:+ a +:+ " " +:+ b +:+ "'") = Return (Py.str_slice a 0 (-1)) /\
  Py.str_slice a 0 (-1) <> a +:+ " " +:+ b.
Proof.
  intros Ha. split; [by apply entering_line_blank|].
  intros Heq. apply (f_equal String.length) in Heq. rewrite !length_app_str in Heq.
  change (String.length " ") with 1%nat in Heq.
  pose proof (length_str_slice a 0 (-1)). lia.
Qed.

Lemma parse_dir_blank_witness :
  no_char " " "my" /\ OME.parse_dir "Entering 'my dir'" = Return "m".
Proof. split; [reflexivity|]. exact (proj1 (parse_dir_blank "my" "dir" eq_refl)). Defined.

(** ** The name of the repository *)

Lemma rfind_absent (s : string) (c : ascii) : no_char c s -> Path.rfind s c = -1.
Proof.
  induction s as [|a s IH]; [done|]. intros [Ha Hs]%no_char_cons. simpl.
  rewrite IH by done. simpl. destruct (Ascii.eqb_spec a c); congruence.
Qed.

Lemma rfind_last (a b : string) (c : ascii) :
  no_char c b -> Path.rfind (a +:+ String c b) c = Z.of_nat (String.length a).
Proof.
  intros Hb. induction a as [|x a IH].
  - change ("" +:+ String c b) with (String c b). simpl.
    rewrite rfind_absent by done. simpl. by rewrite Ascii.eqb_refl.
  - rewrite app_cons_str. cbn [Path.rfind String.length]. rewrite IH.
    destruct (Z.leb_spec 0 (Z.of_nat (String.length a))); lia.
Qed.

Lemma str_slice_prefix (a b : string) :
  Py.str_slice (a +:+ b) 0 (Z.of_nat (String.length a)) = a.
Proof.
  unfold Py.str_slice, Py.slice.
  rewrite list_ascii_app, length_app, !length_list_ascii, !clip_in by lia.
  change (Z.to_nat 0) with 0%nat. rewrite drop_0, Z.sub_0_r, Nat2Z.id.
  rewrite <- (length_list_ascii a), take_app_length.
  apply string_of_list_ascii_of_string.
Qed.

Lemma str_slice_suffix (a b : string) :
  Py.str_slice (a +:+ b) (Z.of_nat (String.length a)) (Py.len (a +:+ b)) = b.
Proof.
  unfold Py.str_slice, Py.slice, Py.len.
  rewrite list_ascii_app, length_app, length_app_str, !length_list_ascii, !clip_in by lia.
  rewrite Nat2Z.id, <- (length_list_ascii a), drop_app_length.
  rewrite take_ge by (rewrite !length_list_ascii; lia).
  apply string_of_list_ascii_of_string.
Qed.

Lemma basename_join (dir base : string) :
  no_char "/" base -> Path.basename (dir +:+ "/" +:+ base) = base.
Proof.
  intros Hb. unfold Path.basename.
  change (dir +:+ "/" +:+ base) with (dir +:+ String "/" base).
  rewrite rfind_last by done.
  replace (dir +:+ String "/" base) with ((dir +:+ "/") +:+ base) by (by rewrite app_assoc_str).
  replace (Z.of_nat (String.length dir) + 1) with (Z.of_nat (String.length (dir +:+ "/")))
    by (rewrite length_app_str; simpl; lia).
  apply str_slice_suffix.
Qed.

Lemma rstrip_char_snoc (s : string) (c : ascii) :
  Path.rstrip_char (s +:+ String c "") c = Path.rstrip_char s c.
Proof.
  induction s as [|a s IH].
  - change ("" +:+ String c "") with (String c ""). simpl. by rewrite Ascii.eqb_refl.
  - rewrite app_cons_str. simpl. by rewrite IH.
Qed.

Lemma only_snoc (s : string) (c : ascii) : Path.only (s +:+ String c "") c = Path.only s c.
Proof.
  induction s as [|a s IH].
  - change ("" +:+ String c "") with (String c ""). simpl. by rewrite Ascii.eqb_refl.
  - rewrite app_cons_str. simpl. by rewrite IH.
Qed.

Lemma only_no_github (s : string) : Path.only s "/" = true -> Py.contains "github" s = false.
Proof.
  induction s as [|a s IH]; [done|]. simpl. intros [Ha Hs]%andb_true_iff.
  apply Ascii.eqb_eq in Ha as ->. simpl. by apply IH.
Qed.

(** The directory part of [dir/base] when [dir] is not made of slashes. *)
Lemma dirname_join (dir base : string) :
  Path.only dir "/" = false -> no_char "/" base ->
  Path.dirname (dir +:+ "/" +:+ base) = Path.rstrip_char dir "/".
Proof.
  intros Hd Hb. unfold Path.dirname.
  change (dir +:+ "/" +:+ base) with (dir +:+ String "/" base).
  rewrite rfind_last by done.
  replace (dir +:+ String "/" base) with ((dir +:+ "/") +:+ base) by (by rewrite app_assoc_str).
  replace (Z.of_nat (String.length dir) + 1) with (Z.of_nat (String.length (dir +:+ "/")))
    by (rewrite length_app_str; simpl; lia).
  rewrite str_slice_prefix.
  change (dir +:+ "/") with (dir +:+ String "/" "").
  rewrite only_snoc, Hd, rstrip_char_snoc.
  unfold Py.len. rewrite length_app_str. simpl.
  destruct (Z.eqb_spec (Z.of_nat (String.length dir + 1)) 0); [lia | reflexivity].
Qed.

Lemma existsb_not_only (s : string) (c : ascii) :
  existsb (fun x => negb (Ascii.eqb x c)) (list_ascii_of_string s) = negb (Path.only s c).
Proof.
  induction s as [|a s IH]; [done|]. simpl. rewrite IH. by destruct (Ascii.eqb a c).
Qed.

Lemma splitext_ext (name ext : string) :
  no_char "/" name -> no_char "/" ext -> no_char "." ext -> Path.only name "." = false ->
  Path.splitext (name +:+ "." +:+ ext) = (name, "." +:+ ext).
Proof.
  intros Hn He Hd Ho. unfold Path.splitext.
  rewrite rfind_absent.
  2:{ apply no_char_app; [done|]. apply no_char_cons. by split. }
  change (name +:+ "." +:+ ext) with (name +:+ String "." ext).
  rewrite rfind_last by done.
  destruct (Z.ltb_spec (-1) (Z.of_nat (String.length name))); [|lia]. simpl andb.
  assert (Py.slice (list_ascii_of_string (name +:+ String "." ext)) (-1 + 1)
                   (Z.of_nat (String.length name)) = list_ascii_of_string name) as ->.
  { unfold Py.slice. rewrite list_ascii_app, length_app, !length_list_ascii, !clip_in by lia.
    change (Z.to_nat (-1 + 1)) with 0%nat. rewrite drop_0.
    replace (Z.to_nat _) with (length (list_ascii_of_string name))
      by (rewrite length_list_ascii; lia).
    apply take_app_length. }
  rewrite existsb_not_only, Ho. simpl.
  by rewrite str_slice_prefix, str_slice_suffix.
Qed.

Lemma splitext_plain (base : string) :
  no_char "." base -> Path.splitext base = (base, "").
Proof.
  intros Hb. unfold Path.splitext. rewrite (rfind_absent base ".") by done.
  destruct (Z.ltb_spec (Path.rfind base "/") (-1)); [|done].
  exfalso. clear Hb. induction base as [|a s IH]; simpl in *; [lia|].
  destruct (Z.leb_spec 0 (Path.rfind s "/")); [lia|].
  destruct (Ascii.eqb a "/"); lia.
Qed.

Lemma startswith_snoc (s sub : string) (c : ascii) :
  no_char c sub -> Py.startswith (s +:+ String c "") sub = Py.startswith s sub.
Proof.
  revert s. induction sub as [|x sub IH]; intros s Hsub; [by destruct s|].
  apply no_char_cons in Hsub as [Hx Hsub]. destruct s as [|a s].
  - change ("" +:+ String c "") with (String c ""). simpl.
    destruct (Ascii.eqb_spec x c); [congruence | done].
  - rewrite app_cons_str. simpl. by rewrite IH.
Qed.

Lemma contains_snoc (s sub : string) (c : ascii) :
  no_char c sub -> Py.contains sub (s +:+ String c "") = Py.contains sub s.
Proof.
  intros Hsub. induction s as [|a s IH].
  - change ("" +:+ String c "") with (String c ""). simpl.
    rewrite <- (startswith_snoc "" sub c Hsub).
    change ("" +:+ String c "") with (String c "").
    by destruct (Py.startswith (String c "") sub), (Py.startswith "" sub).
  - rewrite app_cons_str.
    change (Py.contains sub (String a (s +:+ String c "")))
      with (Py.startswith (String a s +:+ String c "") sub || Py.contains sub (s +:+ String c "")).
    by rewrite startswith_snoc, IH.
Qed.

Lemma contains_only (r t sub : string) (c : ascii) :
  no_char c sub -> Path.only t c = true -> Py.contains sub (r +:+ t) = Py.contains sub r.
Proof.
  intros Hsub. revert r. induction t as [|a t IH]; intros r Ht.
  - by rewrite app_nil_r_str.
  - simpl in Ht. apply andb_true_iff in Ht as [->%Ascii.eqb_eq Ht].
    replace (r +:+ String c t) with ((r +:+ String c "") +:+ t) by (by rewrite app_assoc_str).
    by rewrite IH, contains_snoc.
Qed.

Lemma rstrip_char_tail (s : string) (c : ascii) :
  exists t, s = Path.rstrip_char s c +:+ t /\ Path.only t c = true.
Proof.
  induction s as [|a s (t & Hs & Ht)]; [by exists ""|]. simpl.
  destruct (Path.rstrip_char s c) as [|b r] eqn:Hr.
  - change ("" +:+ t) with t in Hs. subst t.
    destruct (Ascii.eqb_spec a c) as [->|Hne].
    + exists (String c s). split; [done|]. simpl. by rewrite Ascii.eqb_refl.
    + by exists s.
  - exists t. split; [|done]. rewrite app_cons_str. by f_equal.
Qed.

Lemma contains_rstrip_char (s sub : string) (c : ascii) :
  no_char c sub -> Py.contains sub (Path.rstrip_char s c) = Py.contains sub s.
Proof.
  intros Hsub. destruct (rstrip_char_tail s c) as (t & Hs & Ht).
  rewrite Hs at 2. by rewrite (contains_only _ t sub c).
Qed.

Lemma dirname_slashes (dir base : string) :
  Path.only dir "/" = true -> no_char "/" base ->
  Path.dirname (dir +:+ "/" +:+ base) = dir +:+ "/".
Proof.
  intros Hd Hb. unfold Path.dirname.
  change (dir +:+ "/" +:+ base) with (dir +:+ String "/" base).
  rewrite rfind_last by done.
  replace (dir +:+ String "/" base) with ((dir +:+ "/") +:+ base) by (by rewrite app_assoc_str).
  replace (Z.of_nat (String.length dir) + 1) with (Z.of_nat (String.length (dir +:+ "/")))
    by (rewrite length_app_str; simpl; lia).
  rewrite str_slice_prefix.
  change (dir +:+ "/") with (dir +:+ String "/" "").
  by rewrite only_snoc, Hd, andb_false_r.
Qed.

(** Whether the directory part of [dir/base] holds the marker. *)
Lemma dirname_github (dir base : string) :
  no_char "/" base ->
  Py.contains "github" (Path.dirname (dir +:+ "/" +:+ base)) = Py.contains "github" dir.
Proof.
  intros Hb. destruct (Path.only dir "/") eqn:Hd.
  - rewrite dirname_slashes by done. change (dir +:+ "/") with (dir +:+ String "/" "").
    by rewrite contains_snoc.
  - rewrite dirname_join by done. by apply contains_rstrip_char.
Qed.

Section Origin.
Context (E : Env) (w : World).

Lemma getRepository_run (dir base : string) :
  git E (trace w) (cwd w) ["git"; "config"; "--get"; "remote.origin.url"]
  = (0, dir +:+ "/" +:+ base) ->
  no_char "/" base ->
  snd (getRepository E w)
  = add_event (Popen (cwd w) ["git"; "config"; "--get"; "remote.origin.url"] 0) w /\
  if Py.contains "github" dir
  then fst (getRepository E w) = Ok (fst (Path.splitext base))
  else exists message, fst (getRepository E w) = AssertionError message.
Proof.
  intros Hc Hb. unfold getRepository. rewrite Hc. simpl.
  rewrite dirname_github, basename_join by done.
  destruct (Py.contains "github" dir); simpl; eauto.
Qed.

(** X10. [getRepository] drops what follows the last dot of the last
    component of the origin URL: for [dir/name.git] followed by the line
    end that git prints, it returns [name]; it would do the same to any
    other extension. *)
Theorem getRepository_drops_extension (dir name ext : string) :
  git E (trace w) (cwd w) ["git"; "config"; "--get"; "remote.origin.url"]
  = (0, dir +:+ "/" +:+ name +:+ "." +:+ ext) ->
  Py.contains "github" dir = true ->
  no_char "/" name -> Path.only name "." = false -> no_char "/" ext -> no_char "." ext ->
  fst (getRepository E w) = Ok name.
Proof.
  intros Hc Hg Hn Ho He Hd.
  destruct (getRepository_run dir (name +:+ "." +:+ ext) Hc) as [_ H].
  { apply no_char_app; [done|]. apply no_char_cons. by split. }
  rewrite Hg in H. by rewrite H, splitext_ext.
Qed.

(** X11. When the last component of the origin URL has no dot, nothing
    is dropped: the name returned ends with the line end that git
    printed after the URL. *)
Theorem getRepository_keeps_line_end (dir name : string) :
  git E (trace w) (cwd w) ["git"; "config"; "--get"; "remote.origin.url"]
  = (0, dir +:+ "/" +:+ name +:+ Py.nl) ->
  Py.contains "github" dir = true -> no_char "/" name -> no_char "." name ->
  fst (getRepository E w) = Ok (name +:+ Py.nl).
Proof.
  intros Hc Hg Hn Hd.
  destruct (getRepository_run dir (name +:+ Py.nl) Hc) as [_ H].
  { by apply no_char_app. }
  rewrite Hg in H. rewrite H, splitext_plain; [done|]. by apply no_char_app.
Qed.

(** X12. The marker [github] is looked for in the directory part of the
    origin URL only: when it is not there the assertion fails, whatever
    the last component is, and nothing but [git config] was run. *)
Theorem getRepository_marker (dir base : string) :
  git E (trace w) (cwd w) ["git"; "config"; "--get"; "remote.origin.url"]
  = (0, dir +:+ "/" +:+ base) ->
  no_char "/" base -> Py.contains "github" dir = false ->
  (exists message, fst (getRepository E w) = AssertionError message) /\
  trace (snd (getRepository E w))
  = trace w ++ [Popen (cwd w) ["git"; "config"; "--get"; "remote.origin.url"] 0].
Proof.
  intros Hc Hb Hg. destruct (getRepository_run dir base Hc Hb) as [-> H].
  by rewrite Hg in H.
Qed.

End Origin.

Lemma getRepository_drops_extension_witness :
  fst (getRepository (origin_env ("git@github.com:openmicroscopy/ome.js.git" +:+ Py.nl))
                     Scenario.w0)
  = Ok "ome.js".
Proof.
  apply (getRepository_drops_extension _ _ "git@github.com:openmicroscopy" "ome.js"
           ("git" +:+ Py.nl)); reflexivity.
Defined.

Lemma getRepository_keeps_line_end_witness :
  fst (getRepository (origin_env ("https://github.com/openmicroscopy/bioformats" +:+ Py.nl))
                     Scenario.w0)
  = Ok ("bioformats" +:+ Py.nl).
Proof.
  apply (getRepository_keeps_line_end _ _ "https://github.com/openmicroscopy" "bioformats");
    reflexivity.
Defined.

Lemma getRepository_marker_witness :
  exists message,
    fst (getRepository (origin_env ("git@gitlab.com:ome/github-mirror.git" +:+ Py.nl))
                       Scenario.w0)
    = AssertionError message.
Proof.
  apply (getRepository_marker _ _ "git@gitlab.com:ome" ("github-mirror.git" +:+ Py.nl));
    reflexivity.
Defined.

(** ** The messages of [LoggerWrapper] *)

Lemma last_char_snoc (s : string) (c : ascii) :
  LoggerWrapper.last_char (s +:+ String c "") = Some (String c "").
Proof.
  unfold LoggerWrapper.last_char. rewrite list_ascii_app. simpl.
  by rewrite item_last.
Qed.

Lemma str_slice_but_last (s : string) (c : ascii) :
  Py.str_slice (s +:+ String c "") 0 (-1) = s.
Proof.
  unfold Py.str_slice, Py.slice.
  rewrite list_ascii_app, length_app, length_list_ascii. simpl.
  rewrite (clip_in _ 0), (clip_neg _ (-1)) by lia.
  change (Z.to_nat 0) with 0%nat. rewrite drop_0.
  replace (Z.to_nat _) with (length (list_ascii_of_string s))
    by (rewrite length_list_ascii; lia).
  rewrite take_app_length. apply string_of_list_ascii_of_string.
Qed.

Lemma last_char_length (s x : string) :
  LoggerWrapper.last_char s = Some x -> String.length x = 1%nat.
Proof.
  unfold LoggerWrapper.last_char. destruct (Py.item _ _); [|done]. by intros [= <-].
Qed.

(** X13. With the line separator of POSIX, [LoggerWrapper.run] logs
    each line it reads without its line end, an empty line as an empty
    message, and nothing of what follows the end of the file. *)
Theorem run_strips_line_ends (lines rest : list string) :
  LoggerWrapper.run Py.nl (((fun l => l +:+ Py.nl) <$> lines) ++ "" :: rest) = lines.
Proof.
  induction lines as [|l lines IH]; [reflexivity|].
  cbn [fmap list_fmap app LoggerWrapper.run].
  unfold Py.len. rewrite length_app_str.
  destruct (Z.eqb_spec (Z.of_nat (String.length l + String.length Py.nl)) 0) as [H|_].
  { simpl in H. lia. }
  rewrite (bool_decide_eq_true_2 _ (last_char_snoc l "010")).
  unfold Py.nl at 1. rewrite str_slice_but_last. f_equal. exact IH.
Qed.

(** X14. The last character of a line is compared with the whole line
    separator: where that is not one character long, as on Windows, no
    line end is removed and every line is logged as it was read. *)
Theorem run_keeps_line_ends (linesep : string) (pipe : list string) :
  String.length linesep <> 1%nat ->
  LoggerWrapper.run linesep pipe = until_eof pipe.
Proof.
  intros Hl. induction pipe as [|m pipe IH]; [reflexivity|]. simpl.
  unfold Py.len. destruct m as [|c m]; [reflexivity|].
  destruct (Z.eqb_spec (Z.of_nat (String.length (String c m))) 0) as [H|_].
  { simpl in H. lia. }
  rewrite bool_decide_eq_false_2, IH; [done|].
  intros H. apply last_char_length in H. done.
Qed.

Lemma run_keeps_line_ends_witness :
  let crlf := String "013" Py.nl in
  LoggerWrapper.run crlf ["Merge made" +:+ crlf; "Already up-to-date." +:+ crlf; ""; "late"]
  = ["Merge made" +:+ crlf; "Already up-to-date." +:+ crlf].
Proof.
  intros crlf.
  exact (run_keeps_line_ends crlf
           ["Merge made" +:+ crlf; "Already up-to-date." +:+ crlf; ""; "late"]
           ltac:(discriminate)).
Defined.

(** ** The loop over the submodules *)

Lemma split_lines_text (ls : list string) :
  Forall (no_char "010") ls -> Py.split (lines_text ls) "010" = ls ++ [""].
Proof.
  induction 1 as [|l ls Hl _ IH]; [reflexivity|].
  cbn [lines_text]. change (l +:+ Py.nl +:+ lines_text ls) with (l +:+ String "010" (lines_text ls)).
  by rewrite split_app_sep, split_absent, IH.
Qed.

Lemma join_not_empty (c : ascii) (s : string) (l : list string) :
  Py.join "" (String c s :: l) <> "".
Proof. unfold Py.join. simpl. by destruct l. Qed.

Section Loop.
Context (E : Env).

Lemma loop_pair rec g info_mode cwd0 dir url lines s :
  no_char " " dir ->
  OME.submodules_loop E rec g info_mode cwd0 (("Entering '" +:+ dir +:+ "'") :: url :: lines) s
  = ('(org, repo) <- of_result (OME.parse_origin url) ;;
     OME.step E rec g info_mode cwd0 dir org repo ;;
     OME.submodules_loop E rec g info_mode cwd0 lines) s.
Proof.
  intros Hd. cbn [OME.submodules_loop].
  rewrite bool_decide_eq_false_2 by apply join_not_empty.
  rewrite entering_line_dir by done. reflexivity.
Qed.

(** X3. On what [git submodule foreach] prints for submodules whose
    directories hold no blank, the loop of [submodules] runs one step for
    each of them, in the order of the output, in the directory named
    between the quotes and for the organization and the repository of
    the origin URL, and stops at the first step that raises; for no
    submodule at all it does nothing. *)
Theorem loop_visits_each_submodule rec g info_mode cwd0 (subs : list (string * string)) s :
  Forall (fun '(dir, url) => no_char " " dir /\ no_char "010" dir /\ no_char "010" url) subs ->
  OME.submodules_loop E rec g info_mode cwd0 (Py.split (foreach_output subs) "010") s
  = for_each subs
      (fun '(dir, url) =>
         '(org, repo) <- of_result (OME.parse_origin url) ;;
         OME.step E rec g info_mode cwd0 dir org repo) s.
Proof.
  intros Hs. unfold foreach_output. rewrite split_lines_text.
  2:{ induction Hs as [|[dir url] subs (Hb & Hd & Hu) _ IH]; [constructor|]. simpl.
      constructor; [|by constructor].
      apply no_char_app; [reflexivity|]. apply no_char_app; [done | reflexivity]. }
  revert s. induction Hs as [|[dir url] subs (Hb & _) _ IH]; intros s; [reflexivity|].
  cbn [flat_map app for_each]. rewrite loop_pair by done.
  unfold bind, of_result. destruct (OME.parse_origin url) as [[org repo]|e]; [|reflexivity].
  destruct (OME.step _ _ _ _ _ _ _ _ s) as [[[]|e] s2]; [apply IH | reflexivity].
Qed.

End Loop.

Lemma loop_visits_each_submodule_witness :
  foreach_output [("sub", "git@github.com:openmicroscopy/sub.git")]
  = snd (Scenario.git_ok [] "/work" Scenario.foreach) /\
  OME.submodules_loop Scenario.env (OME.submodules Scenario.env 2 None) None false "/work"
    (Py.split (foreach_output [("sub", "git@github.com:openmicroscopy/sub.git")]) "010")
    (Scenario.self0, Scenario.w0)
  = OME.step Scenario.env (OME.submodules Scenario.env 2 None) None false "/work"
      "sub" "openmicroscopy" "sub" (Scenario.self0, Scenario.w0).
Proof.
  split; [reflexivity|].
  rewrite (loop_visits_each_submodule Scenario.env).
  - vm_compute. reflexivity.
  - constructor; [|constructor]. repeat split; reflexivity.
Defined.

(** ** The pull requests of the constructor *)

Lemma all_data_each (repo : Repository) (pulls : list PullRequest) (ds : list Data.t) :
  all_data repo pulls = Some ds ->
  forall pr, pr ∈ pulls -> exists d, Data.init repo pr = Return d.
Proof.
  revert ds. induction pulls as [|p pulls IH]; intros ds H pr Hin.
  - by apply elem_of_nil in Hin.
  - simpl in H. destruct (Data.init repo p) as [d|e] eqn:Hp; [|discriminate].
    destruct (all_data repo pulls) as [ds'|]; [|discriminate].
    apply elem_of_cons in Hin as [->|Hin]; [by exists d | by apply (IH ds')].
Qed.

(** X9. [OME.__init__] builds a [Data] for every open pull request
    before it looks at its base or its labels: when that fails for one
    of them, whether it would qualify or not, the constructor raises. *)
Theorem init_needs_every_pull_request E org name base reset exclude include token w
    (o : Organization) (repo : Repository) (pr : PullRequest) (e : exn) :
  get_organization (github E) org = Some o -> get_repo o name = Some repo ->
  pr ∈ get_pulls repo -> Data.init repo pr = Raise e ->
  exists e', fst (OME.init E org name base reset exclude include token w) = Raise e'.
Proof.
  intros Ho Hr Hin He.
  destruct (OME.init E org name base reset exclude include token w) as [[self|e'] w'] eqn:Hi;
    [|by exists e'].
  apply init_returns in Hi as (o' & repo' & ds & Ho' & Hr' & Hds & _).
  rewrite Ho in Ho'. injection Ho' as <-. rewrite Hr in Hr'. injection Hr' as <-.
  destruct (all_data_each _ _ _ Hds pr Hin) as [d Hd]. congruence.
Qed.

Lemma init_needs_every_pull_request_witness :
  let stray := Scenario.pull "4" "eve" "release" "four" in
  let repo := {| get_pulls := [stray]; get_issue := fun _ => None |} in
  let o := {| get_repo := fun _ => Some repo; has_in_public_members := fun _ => false |} in
  let E := {| github := {| get_user_login := None; get_organization := fun _ => Some o |};
              git := Scenario.git_ok; isdir := Scenario.dirs |} in
  Data.init repo stray = Raise GithubException /\
  exists e', fst (OME.init E "openmicroscopy" "top" "dev" false None None None Scenario.w0)
             = Raise e'.
Proof.
  intros stray repo o E. split; [reflexivity|].
  apply (init_needs_every_pull_request E "openmicroscopy" "top" "dev" false None None None
           Scenario.w0 o repo stray GithubException); [reflexivity | reflexivity | | reflexivity].
  left.
Defined.

(** ** Origin URLs and numbers *)

Lemma no_char_lstrip (c : ascii) (s : string) : no_char c s -> no_char c (Py.lstrip s).
Proof.
  induction s as [|a s IH]; [done|]. intros H. simpl.
  destruct (Ascii.is_space a); [|done]. apply no_char_cons in H as [_ H]. by apply IH.
Qed.

Lemma no_char_rstrip (c : ascii) (s : string) : no_char c s -> no_char c (Py.rstrip s).
Proof.
  induction s as [|a s IH]; [done|]. intros [Ha Hs]%no_char_cons. simpl.
  specialize (IH Hs). destruct (Py.rstrip s) as [|b r].
  - destruct (Ascii.is_space a); [done|]. by apply no_char_cons.
  - by apply no_char_cons.
Qed.

(** X16. An origin URL without a slash, as [host:repo.git] is, cannot be
    parsed: unpacking its last two components raises ValueError. *)
Theorem parse_origin_no_slash (line : string) :
  no_char "/" line -> OME.parse_origin line = Raise ValueError.
Proof.
  intros H. unfold OME.parse_origin.
  rewrite split_absent by (by apply no_char_rstrip, no_char_lstrip). reflexivity.
Qed.

Lemma parse_origin_no_slash_witness :
  no_char "/" "git@example.org:sub.git" /\
  OME.parse_origin "git@example.org:sub.git" = Raise ValueError.
Proof. split; [reflexivity|]. exact (parse_origin_no_slash "git@example.org:sub.git" eq_refl). Defined.

(** *** Decimal numbers *)

Lemma pretty_N_go_app (x : N) (s : string) : pretty_N_go x s = pretty_N_go x "" +:+ s.
Proof.
  revert s. induction (N.lt_wf_0 x) as [x _ IH]; intros s.
  destruct (decide (x = 0)%N) as [->|Hx]; [by rewrite !pretty_N_go_0|].
  assert (x `div` 10 < x)%N as Hlt by (apply N.div_lt; lia).
  rewrite !(pretty_N_go_step x) by lia.
  rewrite (IH _ Hlt (String (pretty_N_char (x `mod` 10)) s)),
    (IH _ Hlt (String (pretty_N_char (x `mod` 10)) "")).
  by rewrite app_assoc_str.
Qed.

Lemma digits_app (a b : string) (acc : Z) :
  Py.digits acc (a +:+ b) = Py.digits acc a ≫= fun v => Py.digits v b.
Proof.
  revert acc. induction a as [|c a IH]; intros acc; [done|].
  rewrite app_cons_str. simpl. destruct (Ascii.is_nat c); [apply IH | done].
Qed.

Lemma is_nat_pretty_N_char (d : N) :
  (d < 10)%N -> Ascii.is_nat (pretty_N_char d) = Some (N.to_nat d).
Proof.
  intros Hd.
  assert (d = 0 \/ d = 1 \/ d = 2 \/ d = 3 \/ d = 4 \/ d = 5 \/ d = 6 \/ d = 7 \/ d = 8 \/ d = 9)%N
    as H by lia.
  by repeat (destruct H as [->|H]; [done|]); subst.
Qed.

Lemma digits_pretty_N_go (x : N) : Py.digits 0 (pretty_N_go x "") = Some (Z.of_N x).
Proof.
  induction (N.lt_wf_0 x) as [x _ IH].
  destruct (decide (x = 0)%N) as [->|Hx]; [done|].
  assert (x `div` 10 < x)%N as Hlt by (apply N.div_lt; lia).
  rewrite pretty_N_go_step, pretty_N_go_app, digits_app by lia.
  rewrite (IH _ Hlt). simpl.
  rewrite is_nat_pretty_N_char by (apply N.mod_lt; lia).
  f_equal. rewrite N_nat_Z. pose proof (N.div_mod x 10). lia.
Qed.

(** A string of decimal digits. *)
Lemma digit_not_space (d : N) : (d < 10)%N -> Ascii.is_space (pretty_N_char d) = false.
Proof.
  intros Hd.
  assert (d = 0 \/ d = 1 \/ d = 2 \/ d = 3 \/ d = 4 \/ d = 5 \/ d = 6 \/ d = 7 \/ d = 8 \/ d = 9)%N
    as H by lia.
  by repeat (destruct H as [->|H]; [done|]); subst.
Qed.

Lemma is_nat_not_space (c : ascii) (d : nat) :
  Ascii.is_nat c = Some d -> Ascii.is_space c = false.
Proof. destruct c as [[] [] [] [] [] [] [] []]; done. Qed.

Lemma digits_lstrip (s : string) (acc v : Z) : Py.digits acc s = Some v -> Py.lstrip s = s.
Proof.
  destruct s as [|c s]; [done|]. simpl. destruct (Ascii.is_nat c) as [d|] eqn:Hc; [|done].
  by rewrite (is_nat_not_space c d).
Qed.

Lemma digits_rstrip (s : string) (acc v : Z) : Py.digits acc s = Some v -> Py.rstrip s = s.
Proof.
  revert acc. induction s as [|c s IH]; intros acc H; [done|]. simpl in *.
  destruct (Ascii.is_nat c) as [d|] eqn:Hc; [|done].
  rewrite (IH _ H). destruct s; [|done]. by rewrite (is_nat_not_space c d).
Qed.

Lemma digits_no_char (x : ascii) (s : string) (acc v : Z) :
  Ascii.is_nat x = None -> Py.digits acc s = Some v -> no_char x s.
Proof.
  intros Hx. revert acc. induction s as [|c s IH]; intros acc H; [done|]. simpl in H.
  destruct (Ascii.is_nat c) as [d|] eqn:Hc; [|done].
  apply no_char_cons. split; [congruence | by eapply IH].
Qed.

Lemma int_digits (s : string) (v : Z) :
  s <> "" -> Py.digits 0 s = Some v -> Py.int s = Some v.
Proof.
  intros Hs H. unfold Py.int, Py.strip.
  rewrite (digits_lstrip s 0 v H), (digits_rstrip s 0 v H).
  destruct s as [|c s]; [done|]. clear Hs.
  assert (exists d, Ascii.is_nat c = Some d) as [d Hc].
  { simpl in H. destruct (Ascii.is_nat c); [by eexists | done]. }
  destruct c as [[] [] [] [] [] [] [] []]; try discriminate Hc; exact H.
Qed.

Lemma pretty_N_go_not_empty (x : N) : (0 < x)%N -> pretty_N_go x "" <> "".
Proof.
  intros Hx. rewrite pretty_N_go_step, pretty_N_go_app by done.
  by destruct (pretty_N_go (x `div` 10) "").
Qed.

Lemma str_decimal (n : Z) :
  0 <= n -> Py.str n <> "" /\ Py.digits 0 (Py.str n) = Some n.
Proof.
  intros Hn. unfold Py.str, pretty, pretty_Z. destruct n as [|p|p]; [done| |lia].
  unfold pretty, pretty_positive, pretty, pretty_N. simpl.
  split; [by apply pretty_N_go_not_empty|]. by rewrite digits_pretty_N_go.
Qed.

(** The number that [str] writes is the number that [int] reads. *)
Lemma int_str (n : Z) : 0 <= n -> Py.int (Py.str n) = Some n.
Proof. intros Hn. destruct (str_decimal n Hn). by apply int_digits. Qed.

(** X17. The number of a pull request is the decimal number after the
    last slash of the URL of its issue: the labels and the comments are
    those of the issue with that number, and the number shows again,
    written the same way, in the message of the merge commit. *)
Theorem data_number (repo : Repository) (pr : PullRequest) (prefix : string) (n : Z)
    (issue : Issue) :
  0 <= n -> issue_url pr = prefix +:+ "/" +:+ Py.str n -> get_issue repo n = Some issue ->
  exists d,
    Data.init repo pr = Return d /\ Data.num d = n /\
    Data.labels d = issue_labels issue /\
    forall self, OME.merge_message self d
                 = OME.commit_msg self +:+ ": PR " +:+ Py.str n +:+ " (" +:+ pr_title pr +:+ ")".
Proof.
  intros Hn Hurl Hissue. destruct (str_decimal n Hn) as [Hne Hd].
  unfold Data.init. rewrite Hurl.
  change (prefix +:+ "/" +:+ Py.str n) with (prefix +:+ String "/" (Py.str n)).
  rewrite split_app_sep, (split_absent (Py.str n)) by (by eapply digits_no_char).
  rewrite item_last, int_str, Hissue by done.
  eexists. split; [reflexivity|]. by repeat split.
Qed.

Lemma data_number_witness :
  exists d, Data.init Scenario.top (Scenario.pull "7" "alice" "dev" "seven") = Return d /\
            Data.num d = 7 /\ Data.labels d = ["Include"].
Proof.
  destruct (data_number Scenario.top (Scenario.pull "7" "alice" "dev" "seven")
              "https://api.github.com/repos/openmicroscopy/r/issues" 7
              (Scenario.issue ["Include"] ["hello" +:+ Py.nl +:+ "--test integration/foo"])
              ltac:(lia) eq_refl eq_refl) as (d & Hd & Hnum & Hl & _).
  by exists d.
Defined.
(** ** What was run *)

Global Instance journal_refl ok : Reflexive (journal ok).
Proof. intros w. exists []. by rewrite app_nil_r. Qed.

Global Instance journal_trans ok : Transitive (journal ok).
Proof.
  intros w1 w2 w3 (e1 & H1 & F1) (e2 & H2 & F2). exists (e1 ++ e2).
  rewrite H2, H1, app_assoc. split; [done|]. by apply Forall_app.
Qed.

Global Instance on_world_refl {X} R `{!Reflexive R} : Reflexive (@on_world X R).
Proof. intros s. unfold on_world. reflexivity. Qed.

Global Instance on_world_trans {X} R `{!Transitive R} : Transitive (@on_world X R).
Proof. intros s1 s2 s3. unfold on_world. apply transitivity. Qed.

Global Instance aside_refl {X} R `{!Reflexive R} : Reflexive (@aside X R).
Proof. intros s. split; reflexivity. Qed.

Global Instance aside_trans {X} R `{!Transitive R} : Transitive (@aside X R).
Proof. intros s1 s2 s3 [H1 R1] [H2 R2]. split; [congruence | by etrans]. Qed.

Global Instance keeps_refl {S} (I : S -> Prop) R `{!Reflexive R} : Reflexive (keeps I R).
Proof. intros s Hs. split; [done | reflexivity]. Qed.

Global Instance keeps_trans {S} (I : S -> Prop) R `{!Transitive R} : Transitive (keeps I R).
Proof.
  intros s1 s2 s3 H1 H2 Hs. destruct (H1 Hs) as [Hs2 R1]. destruct (H2 Hs2) as [Hs3 R2].
  split; [done | by etrans].
Qed.

Lemma lift_w_aside {X A} R (m : M World A) : preserves R m -> preserves (@aside X R) (lift_w m).
Proof. intros Hm. by apply (preserves_lift_w R). Qed.

Lemma lift_w_on_world {X A} R (m : M World A) :
  preserves R m -> preserves (@on_world X R) (lift_w m).
Proof. intros Hm. by apply (preserves_lift_w R). Qed.

Section Journal.
Context (E : Env) (ok : event -> Prop).
Hypothesis others : ok_but_popen ok.

Lemma call_journal command :
  (forall dir rc, ok (Popen dir command rc)) -> preserves (journal ok) (OME.call E command).
Proof.
  intros Hok w. destruct (OME.call E command w) as [r w'] eqn:H.
  apply call_frame in H as (_ & _ & rc & Ht & _).
  exists [Popen (cwd w) command rc]. split; [done|]. constructor; [apply Hok | constructor].
Qed.

Lemma emit_journal ev : ok ev -> preserves (journal ok) (emit ev).
Proof. intros Hok w. exists [ev]. split; [done|]. by constructor. Qed.

Lemma silent_journal {A} (m : M World A) :
  (forall w, trace (snd (m w)) = trace w) -> preserves (journal ok) m.
Proof. intros H w. exists []. rewrite app_nil_r. split; [apply H | constructor]. Qed.

Lemma cd_journal dir : preserves (journal ok) (OME.cd E dir).
Proof. apply silent_journal. intros w. unfold OME.cd. by destruct (isdir E _). Qed.

Lemma scan_journal org repo base include exclude pulls st :
  preserves (journal ok) (OME.scan org repo base include exclude pulls st).
Proof.
  revert st. induction pulls as [|pr pulls IH]; intros st; simpl.
  - frame_step.
  - frame_step; [|apply IH].
    unfold OME.scan_pr. destruct st as [[storage logins] log].
    frame_step; [frame_step|].
    destruct (OME.qualifies _ _ _ _ _); [|frame_step].
    destruct (Data.test_directories _) as [|d dirs]; [frame_step|].
    frame_step.
    { destruct log; [frame_step | by apply silent_journal]. }
    frame_step; [|frame_step].
    frame_step. frame_step; by apply silent_journal.
Qed.

Lemma init_journal org name base reset exclude include token :
  (reset = true -> forall dir rc, ok (Popen dir ["git"; "reset"; "--hard"; "HEAD"] rc)) ->
  (forall dir rc, ok (Popen dir ["git"; "log"; "--oneline"; "-n"; "1"; "HEAD"] rc)) ->
  (forall dir rc, ok (Popen dir ["git"; "submodule"; "status"] rc)) ->
  preserves (journal ok) (OME.init E org name base reset exclude include token).
Proof.
  intros Hreset Hlog Hstatus. unfold OME.init.
  frame_step.
  { destruct reset; [|frame_step].
    frame_step; [by apply call_journal, Hreset | frame_step]. }
  frame_step; [by apply call_journal|].
  frame_step; [by apply call_journal|].
  frame_step.
  { destruct (truthy exclude); [apply emit_journal, (others (PrintList _)) | frame_step]. }
  frame_step.
  { destruct token as [[|? ?]|]; try frame_step; frame_step. }
  frame_step; [frame_step|].
  frame_step.
  { frame_step.
    - frame_step; frame_step.
    - frame_step; [apply emit_journal, (others (LogError _ _)) | frame_step]. }
  frame_step; [frame_step|].
  apply preserves_bind; [apply _ | apply scan_journal | intros [[st u] log]].
  frame_step.
Qed.

Lemma info_journal (g : option OME.t) : preserves (aside (journal ok)) (OME.info g).
Proof.
  assert (forall line, preserves (aside (X := OME.t) (journal ok)) (lift_w (emit (Print line))))
    as Hemit.
  { intros line. apply lift_w_aside, emit_journal, (others (Print _)). }
  unfold OME.info. frame_step; [frame_step|].
  frame_step. frame_step; [apply Hemit|]. frame_step; apply Hemit.
Qed.

Lemma cleanup_journal :
  (forall dir k rc, ok (Popen dir ["git"; "remote"; "rm"; k] rc)) ->
  preserves (aside (journal ok)) (OME.cleanup E).
Proof.
  intros Hrm. unfold OME.cleanup.
  frame_step; [apply preserves_get_self; apply _|].
  apply preserves_for_each; [apply _ | apply _ | intros [k v]].
  frame_step.
  - frame_step; [|frame_step]. by apply lift_w_aside, call_journal.
  - apply lift_w_aside, emit_journal, (others (LogError _ _)).
Qed.

End Journal.
(** ** Counting the merges *)

Lemma merged_app (a b : list event) : merged (a ++ b) = merged a + merged b.
Proof. unfold merged. rewrite List.filter_app, length_app. lia. Qed.

Lemma merged_nonneg (evs : list event) : 0 <= merged evs.
Proof. unfold merged. lia. Qed.

Lemma merged_calm (evs : list event) :
  Forall (fun ev => merged_event ev = false) evs -> merged evs = 0.
Proof.
  unfold merged. induction 1 as [|ev evs Hev _ IH]; [done|]. simpl. by rewrite Hev.
Qed.

Lemma calm_others : ok_but_popen (fun ev => merged_event ev = false).
Proof. by intros []. Qed.

Global Instance tallied_refl : Reflexive tallied.
Proof. intros s. exists []. rewrite app_nil_r. split; [done|]. unfold merged. simpl. lia. Qed.

Global Instance tallied_trans : Transitive tallied.
Proof.
  intros s1 s2 s3 (e1 & H1 & M1) (e2 & H2 & M2). exists (e1 ++ e2).
  rewrite H2, H1, app_assoc, merged_app. split; [done | lia].
Qed.

Lemma calm_tallied (o : OME.t) (w w' : World) : calm w w' -> tallied (o, w) (o, w').
Proof. intros (evs & Ht & Hc). exists evs. split; [done|]. rewrite merged_calm by done. simpl. lia. Qed.

Lemma counts_stay self w exact : counts self w exact (self, w).
Proof.
  exists []. rewrite app_nil_r. split; [done|]. unfold merged. simpl. lia.
Qed.

Lemma counts_raise self w w' :
  (exists evs, trace w' = trace w ++ evs) -> counts self w false (self, w').
Proof.
  intros (evs & Ht). exists evs. split; [done|]. pose proof (merged_nonneg evs).
  simpl. split; [lia | done].
Qed.

Lemma counts_weaken self w exact s : counts self w exact s -> counts self w false s.
Proof. intros (evs & Ht & Hb & _). by exists evs. Qed.

Lemma counts_trans self w self1 w1 exact s2 :
  counts self w true (self1, w1) -> counts self1 w1 exact s2 -> counts self w exact s2.
Proof.
  intros (e1 & H1 & B1 & X1) (e2 & H2 & B2 & X2). simpl in *. exists (e1 ++ e2).
  rewrite H2, H1, app_assoc, merged_app. split; [done|].
  specialize (X1 eq_refl). split; [lia|]. intros Hx. specialize (X2 Hx). lia.
Qed.

Lemma counts_calm self w exact self1 w1 w2 :
  counts self w exact (self1, w1) -> calm w1 w2 -> counts self w exact (self1, w2).
Proof.
  intros (e1 & H1 & B1 & X1) (e2 & H2 & C2). simpl in *. exists (e1 ++ e2). simpl.
  rewrite H2, H1, app_assoc, merged_app, (merged_calm e2) by done.
  split; [done|]. split; [lia|]. intros Hx. specialize (X1 Hx). lia.
Qed.

Lemma run_bind {S A B} (m : M S A) (k : A -> M S B) (s : S) (Q : result B * S -> Prop) :
  (forall a s1, m s = (Return a, s1) -> Q (k a s1)) ->
  (forall e s1, m s = (Raise e, s1) -> Q (Raise e, s1)) ->
  Q (bind m k s).
Proof.
  intros Hr He. unfold bind. destruct (m s) as [[a|e] s1]; [by apply Hr | by apply He].
Qed.

Lemma accounts_bind {A B} (m : M (OME.t * World) A) (k : A -> M (OME.t * World) B) :
  accounts m -> (forall a, accounts (k a)) -> accounts (bind m k).
Proof.
  intros Hm Hk self w. specialize (Hm self w). unfold bind.
  destruct (m (self, w)) as [[a|e] [self1 w1]]; simpl in *; [|exact Hm].
  eapply counts_trans; [exact Hm | apply Hk].
Qed.

Lemma accounts_ret {A} (a : A) : accounts (ret a).
Proof. intros self w. apply counts_stay. Qed.

Lemma accounts_raise {A} e : accounts (raise (A := A) e).
Proof. intros self w. apply counts_stay. Qed.

Lemma accounts_of_result {A} (r : result A) : accounts (of_result r).
Proof. intros self w. apply counts_stay. Qed.

Lemma accounts_get_self : accounts get_self.
Proof. intros self w. apply counts_stay. Qed.

Lemma accounts_calm {A} (m : M World A) : preserves calm m -> accounts (lift_w m).
Proof.
  intros Hm self w. unfold lift_w. specialize (Hm w). destruct (m w) as [r w']. simpl in *.
  eapply counts_calm; [apply counts_stay | exact Hm].
Qed.

Section Tally.
Context (E : Env).

Lemma call_calm command :
  take 2 command <> ["git"; "merge"] -> preserves calm (OME.call E command).
Proof.
  intros Hc. apply call_journal. intros dir rc. simpl. by rewrite bool_decide_eq_false_2.
Qed.

Lemma init_calm org name base reset exclude include token :
  preserves calm (OME.init E org name base reset exclude include token).
Proof. apply init_journal; [apply calm_others | intros; reflexivity..]. Qed.

(** Whatever the outcome of [merge], [modifications] has grown by the
    number of merges. *)
Lemma merge_tallied : preserves tallied (OME.merge E).
Proof.
  assert (forall command, take 2 command <> ["git"; "merge"] ->
            preserves tallied (lift_w (OME.call E command))) as Hcall.
  { intros command Hc. apply (preserves_lift_w calm); [intros; by apply calm_tallied|].
    by apply call_calm. }
  unfold OME.merge.
  frame_step; [apply preserves_get_self; apply _|].
  frame_step.
  { frame_step. frame_step; [by apply Hcall|].
    frame_step.
    { intros [o w]. exists []. simpl. rewrite app_nil_r. split; [done|].
      unfold merged. simpl. lia. }
    frame_step; [by apply Hcall | frame_step]. }
  frame_step; [|frame_step; [by apply Hcall | frame_step]].
  frame_step. intros [o w]. unfold bind, lift_w.
  destruct (OME.call E _ w) as [r w1] eqn:Hrun.
  apply call_frame in Hrun as (_ & _ & rc & Ht & Hr).
  destruct Hr as [(-> & Hrc & _) | ((out & ->) & -> & _)]; simpl;
    (eexists; split; [exact Ht|]); unfold merged; simpl.
  - destruct (Z.eqb_spec rc 0); [done | simpl; lia].
  - lia.
Qed.

End Tally.
Lemma on_ome_aside {A} R `{!Reflexive R} (m : M (OME.t * World) A) :
  preserves (aside R) m -> preserves (aside R) (OME.on_ome m).
Proof.
  intros Hm [[self [o|]] w]; simpl; [|reflexivity].
  specialize (Hm (o, w)). destruct (m (o, w)) as [r [o' w']]. destruct Hm as [Ho Hr].
  simpl in *. subst o'. by split.
Qed.

Lemma calm_from (w w1 w2 : World) : trace w1 = trace w -> calm w1 w2 -> calm w w2.
Proof. intros Ht (evs & H & Hc). exists evs. split; [congruence | done]. Qed.

Section Count.
Context (E : Env).

Lemma step_finally_calm cwd0 : preserves (aside calm) (OME.step_finally E cwd0).
Proof.
  unfold OME.step_finally.
  apply preserves_try_finally; [apply _ | | apply lift_w_aside, cd_journal].
  frame_step; [apply preserves_get_self; apply _|].
  destruct (snd _); [|frame_step].
  apply on_ome_aside; [apply _|]. apply cleanup_journal; [apply calm_others | done].
Qed.

Lemma step_try_counts rec g info_mode dir org repo self w :
  (forall info, accounts (rec info)) ->
  counts self w
    (returned (fst (OME.step_try E rec g info_mode dir org repo ((self, None), w))))
    (fst (fst (snd (OME.step_try E rec g info_mode dir org repo ((self, None), w)))),
     snd (snd (OME.step_try E rec g info_mode dir org repo ((self, None), w)))).
Proof.
  intros Hrec.
  set (Q := fun rs : result unit * ((OME.t * option OME.t) * World) =>
              counts self w (returned (fst rs)) (fst (fst (snd rs)), snd (snd rs))).
  change (Q (OME.step_try E rec g info_mode dir org repo ((self, None), w))).
  unfold OME.step_try.
  apply (run_bind _ _ _ Q); [intros [] s Hs | intros e s Hs]; [|done].
  injection Hs as <-.
  (* self.cd(dir) *)
  apply (run_bind _ _ _ Q); intros x s Hs;
    apply lift_w_run in Hs as (w1 & Hcd & ->);
    apply cd_run in Hcd as [(Hr & Hdir & ->) | (Hr & ->)]; try discriminate Hr.
  2: { apply counts_stay. }
  set (w1 := set_cwd (OME.abspath (cwd w) dir) w).
  assert (trace w1 = trace w) as Ht1 by done. clearbody w1. clear x Hr Hdir.
  apply (run_bind _ _ _ Q); [intros locals s Hs | intros e s Hs]; [|done].
  injection Hs as <- <-. simpl (fst _).
  (* ome = OME(...) *)
  apply (run_bind _ _ _ Q); intros o2 s Hs;
    apply lift_w_run in Hs as (w2 & Hinit & ->);
    pose proof (init_calm E org repo (OME.base self) (OME.reset self) (OME.exclude self)
                  (OME.include self) (OME.token self) w1) as Hq;
    rewrite Hinit in Hq; simpl in Hq; apply (calm_from w) in Hq; try done.
  2: { unfold Q. simpl. eapply counts_calm; [apply counts_stay | exact Hq]. }
  assert (OME.modifications o2 = 0) as Hm2.
  { apply init_returns in Hinit as (? & ? & ? & _ & _ & _ & -> & _). done. }
  clear Hinit.
  apply (run_bind _ _ _ Q); [intros [] s Hs | intros e s Hs]; [|done].
  injection Hs as <-.
  (* ome.info() or ome.merge() *)
  assert (exists r3 o3 w3,
            (if info_mode then OME.on_ome (OME.info g) else OME.on_ome (OME.merge E))
              ((self, Some o2), w2) = (r3, ((self, Some o3), w3)) /\
            tallied (o2, w2) (o3, w3)) as (r3 & o3 & w3 & Hrun & Htal).
  { destruct info_mode; rewrite on_ome_some; eexists _, _, _; (split; [reflexivity|]).
    - pose proof (info_journal _ calm_others g (o2, w2)) as [Ho Hc].
      destruct (OME.info g (o2, w2)) as [r [o' w']]. simpl in *. subst o'.
      by apply calm_tallied.
    - pose proof (merge_tallied E (o2, w2)) as Hm.
      by destruct (OME.merge E (o2, w2)) as [r [o' w']]. }
  destruct Hq as (e2 & Ht2 & Hc2). destruct Htal as (e3 & Ht3 & Hm3). simpl in Ht3, Hm3.
  apply (run_bind _ _ _ Q); intros x s Hs; rewrite Hrun in Hs; injection Hs as _ <-.
  2: { unfold Q. simpl. apply counts_raise. exists (e2 ++ e3). by rewrite Ht3, Ht2, app_assoc. }
  (* ome.submodules(info) *)
  pose proof (Hrec info_mode o3 w3) as Hacc.
  destruct (rec info_mode (o3, w3)) as [r4 [o4 w4]] eqn:Hrun4.
  destruct Hacc as (e4 & Ht4 & Hb4 & Hx4). simpl in Ht4, Hb4, Hx4.
  apply (run_bind _ _ _ Q); intros y s Hs; rewrite on_ome_some, Hrun4 in Hs;
    simpl in Hs; injection Hs as -> <-.
  2: { unfold Q. simpl. apply counts_raise. exists (e2 ++ e3 ++ e4).
       by rewrite Ht4, Ht3, Ht2, !app_assoc. }
  unfold Q. simpl. exists (e2 ++ e3 ++ e4). simpl.
  split; [by rewrite Ht4, Ht3, Ht2, !app_assoc|].
  specialize (Hx4 eq_refl). rewrite !merged_app, (merged_calm e2) by done.
  pose proof (merged_nonneg e3). pose proof (merged_nonneg e4).
  split; [lia|]. intros _. lia.
Qed.

Lemma step_accounts rec g info_mode cwd0 dir org repo :
  (forall info, accounts (rec info)) ->
  accounts (OME.step E rec g info_mode cwd0 dir org repo).
Proof.
  intros Hrec self w. unfold OME.step, try_finally.
  pose proof (step_try_counts rec g info_mode dir org repo self w Hrec) as Hc.
  destruct (OME.step_try E rec g info_mode dir org repo (self, None, w))
    as [r [[self1 ome1] w1]]. simpl in Hc.
  pose proof (step_finally_calm cwd0 ((self1, ome1), w1)) as [Hf Hq].
  destruct (OME.step_finally E cwd0 (self1, ome1, w1)) as [[[]|e] [[self2 ome2] w2]];
    simpl in *; injection Hf as -> ->.
  - by eapply counts_calm.
  - eapply counts_calm; [|exact Hq]. by eapply counts_weaken.
Qed.

Lemma loop_accounts rec g info_mode cwd0 :
  (forall info, accounts (rec info)) ->
  forall n lines, (length lines <= n)%nat ->
    accounts (OME.submodules_loop E rec g info_mode cwd0 lines).
Proof.
  intros Hrec. induction n as [|n IH]; intros lines Hn.
  { destruct lines; [apply accounts_ret | simpl in Hn; lia]. }
  destruct lines as [|l1 rest]; [apply accounts_ret|].
  cbn [OME.submodules_loop].
  destruct (bool_decide _); [apply accounts_ret|].
  apply accounts_bind; [apply accounts_of_result | intros dir].
  destruct rest as [|l2 lines']; [apply accounts_raise|].
  apply accounts_bind; [apply accounts_of_result | intros [org repo]].
  apply accounts_bind; [by apply step_accounts | intros _].
  apply IH. simpl in Hn. lia.
Qed.

Lemma submodules_accounts depth g info_mode : accounts (OME.submodules E depth g info_mode).
Proof.
  revert info_mode. induction depth as [|depth IH]; intros info_mode; [apply accounts_raise|].
  cbn [OME.submodules].
  apply accounts_bind; [by apply accounts_calm, call_calm | intros o].
  apply accounts_bind; [apply accounts_calm; by apply silent_journal | intros cwd0].
  apply accounts_bind; [by eapply loop_accounts | intros _].
  apply accounts_bind; [apply accounts_get_self | intros self].
  destruct (_ =? 0); [apply accounts_ret|].
  apply accounts_bind; [by apply accounts_calm, call_calm | intros _; apply accounts_ret].
Qed.

End Count.
Lemma filter_merged_zip (dir : string) (cs : list (list string)) (rcs : list Z) :
  Forall (fun rc => rc = 0) rcs -> length rcs = length cs ->
  length (List.filter merged_event (zip_with (Popen dir) cs rcs))
  = length (List.filter (fun c => bool_decide (take 2 c = ["git"; "merge"])) cs).
Proof.
  intros Hz. revert cs. induction Hz as [|rc rcs -> _ IH]; intros [|c cs] Hl; try done.
  simpl in *. rewrite andb_true_r.
  destruct (bool_decide _); simpl; rewrite IH by lia; done.
Qed.

Lemma merge_commands_merges (self : OME.t) :
  length (List.filter (fun c => bool_decide (take 2 c = ["git"; "merge"]))
                      (merge_commands self))
  = length (OME.storage self).
Proof.
  unfold merge_commands. rewrite !List.filter_app, !length_app.
  assert (forall l : list string,
            List.filter (fun c => bool_decide (take 2 c = ["git"; "merge"]))
              (flat_map (fun user =>
                 [["git"; "remote"; "add"; OME.remote_key user;
                   OME.remote_url user (OME.name self)];
                  ["git"; "fetch"; OME.remote_key user]]) l) = []) as ->.
  { induction l as [|u l IH]; [done|]. simpl. exact IH. }
  assert (forall l : list Data.t,
            length (List.filter (fun c => bool_decide (take 2 c = ["git"; "merge"]))
                      (map (fun data => ["git"; "merge"; "--no-ff"; "-m";
                                         OME.merge_message self data; Data.sha data]) l))
            = length l) as ->.
  { induction l as [|d l IH]; [done|]. simpl. by rewrite IH. }
  simpl. lia.
Qed.

(** X8. Whatever its outcome, the constructor leaves the working
    directory and the remotes as they are, and the only commands it runs
    are [git reset --hard HEAD], when a reset is asked for, [git log] and
    [git submodule status]. *)
Theorem constructor_commands E org name base reset exclude include token w :
  quiet w (snd (OME.init E org name base reset exclude include token w)) /\
  journal (init_event reset) w (snd (OME.init E org name base reset exclude include token w)).
Proof.
  split; [apply init_quiet|].
  apply init_journal.
  - by intros [].
  - intros -> dir rc. left.
  - intros dir rc. destruct reset; simpl; [right; left | left].
  - intros dir rc. destruct reset; simpl; [do 2 right; left | right; left].
Qed.

(** X4. [modifications] counts the merges that were made: whatever the
    outcome of [merge], it has grown by the number of [git merge]
    commands that exited with status zero, and when [merge] returns that
    is the number of the stored pull requests. *)
Theorem merge_counts E (self : OME.t) (w : World) :
  tallied (self, w) (snd (OME.merge E (self, w))) /\
  (fst (OME.merge E (self, w)) = Return tt ->
   OME.modifications (fst (snd (OME.merge E (self, w))))
   = OME.modifications self + Z.of_nat (length (OME.storage self))).
Proof.
  split; [apply merge_tallied|]. intros Hret.
  destruct (merge_tallied E (self, w)) as (evs & Ht & Hm). simpl in Ht, Hm.
  destruct (merge_issued E self w) as (rcs & Ht' & _ & Hr). rewrite Hret in Hr.
  destruct Hr as [Hl Hz]. rewrite Ht in Ht'. apply app_inv_head in Ht' as ->.
  rewrite Hm. unfold merged. by rewrite filter_merged_zip, merge_commands_merges.
Qed.

Lemma merge_counts_witness :
  exists self w,
    Scenario.init Scenario.env = (Return self, w) /\
    fst (OME.merge Scenario.env (self, w)) = Return tt /\
    OME.modifications (fst (snd (OME.merge Scenario.env (self, w)))) = 3.
Proof.
  eexists; eexists. split; [vm_compute; reflexivity|].
  split; [vm_compute; reflexivity|].
  match goal with
  | |- OME.modifications (fst (snd (OME.merge _ (?self, ?w)))) = _ =>
      rewrite (proj2 (merge_counts Scenario.env self w)); [reflexivity|]
  end.
  vm_compute. reflexivity.
Defined.

(** X5. [modifications] counts the merges of a walk. Whatever the outcome
    of [submodules], or of one step of its loop, [modifications] has
    grown by at most the number of [git merge] commands that exited with
    status zero, in the checkout and in its submodules at any depth; when
    it returns, it has grown by exactly that number. *)
Theorem modifications_count_merges E depth g info_mode (self : OME.t) (w : World) :
  counts self w (returned (fst (OME.submodules E depth g info_mode (self, w))))
         (snd (OME.submodules E depth g info_mode (self, w))) /\
  forall cwd0 dir org repo,
    counts self w
      (returned (fst (OME.step E (OME.submodules E depth g) g info_mode cwd0 dir org repo
                               (self, w))))
      (snd (OME.step E (OME.submodules E depth g) g info_mode cwd0 dir org repo (self, w))).
Proof.
  split; [apply submodules_accounts|]. intros cwd0 dir org repo.
  apply step_accounts. intros info. apply submodules_accounts.
Qed.

Lemma modifications_count_merges_witness :
  let s' := snd (OME.submodules Scenario.env 3 None false (Scenario.self0, Scenario.w0)) in
  fst (OME.submodules Scenario.env 3 None false (Scenario.self0, Scenario.w0)) = Return tt /\
  OME.modifications (fst s') = 1 /\
  counts Scenario.self0 Scenario.w0 true s'.
Proof.
  intros s'. split; [vm_compute; reflexivity|]. split; [vm_compute; reflexivity|].
  pose proof (proj1 (modifications_count_merges Scenario.env 3 None false
                       Scenario.self0 Scenario.w0)) as H.
  replace (returned _) with true in H by (vm_compute; reflexivity). exact H.
Defined.
(** ** The remotes of the user *)

Global Instance spares_refl : Reflexive spares.
Proof. by intros w dir k. Qed.

Global Instance spares_trans : Transitive spares.
Proof. intros w1 w2 w3 H1 H2 dir k Hf Hk. by apply H2, H1. Qed.

Global Instance holding_refl {X} (J : X -> Prop) R `{!Reflexive R} : Reflexive (holding J R).
Proof. unfold holding. apply _. Qed.

Global Instance holding_trans {X} (J : X -> Prop) R `{!Transitive R} :
  Transitive (holding J R).
Proof. unfold holding. apply _. Qed.

Lemma still_spares w w' : git_remotes w' = git_remotes w -> spares w w'.
Proof. intros Hg dir k _. unfold remotes_in. by rewrite Hg. Qed.

Lemma preserves_bind_ret {S A B} (P : S -> S -> Prop) `{!Transitive P}
    (m : M S A) (k : A -> M S B) :
  preserves P m -> (forall a, (exists s s1, m s = (Return a, s1)) -> preserves P (k a)) ->
  preserves P (bind m k).
Proof.
  intros Hm Hk s. unfold bind. specialize (Hm s).
  destruct (m s) as [[a|e] s1] eqn:Hs; simpl in *; [|done].
  etrans; [exact Hm|]. apply Hk. eauto.
Qed.

Lemma preserves_for_each_in {S A} (P : S -> S -> Prop) `{!Reflexive P, !Transitive P}
    (l : list A) (body : A -> M S unit) :
  (forall x, x ∈ l -> preserves P (body x)) -> preserves P (for_each l body).
Proof.
  intros H. induction l as [|x l IH]; simpl.
  - by apply preserves_ret.
  - apply preserves_bind; [done | apply H; left | intros _; apply IH].
    intros y Hy. apply H. by right.
Qed.

Lemma lift_w_holding {X A} (J : X -> Prop) R (m : M World A) :
  preserves R m -> preserves (holding J R) (lift_w m).
Proof.
  intros Hm [x w] HJ. unfold lift_w. specialize (Hm w). destruct (m w) as [r w']. by split.
Qed.

Lemma modify_holding {X} (J : X -> Prop) R `{!Reflexive R} (f : X -> X) :
  (forall x, J x -> J (f x)) -> preserves (holding J R) (modify_self f).
Proof. intros Hf [x w] HJ. split; [by apply Hf|]. unfold on_world. simpl. reflexivity. Qed.

Lemma on_ome_holding {A} (J : OME.t -> Prop) R `{!Reflexive R} (m : M (OME.t * World) A) :
  preserves (holding J R) m -> preserves (holding (of_ome J) R) (OME.on_ome m).
Proof.
  intros Hm [[self [o|]] w] HJ; simpl; [|split; [done | reflexivity]].
  specialize (Hm (o, w)). destruct (m (o, w)) as [r [o' w']].
  destruct Hm as [Ho Hr]; [by apply HJ|]. split; [|done].
  intros o0 [= <-]. exact Ho.
Qed.

Lemma keys_ok_modifications (self self' : OME.t) :
  only_modifications self self' -> keys_ok self -> keys_ok self'.
Proof. intros H Hk k. rewrite (only_modifications_remotes _ _ H). apply Hk. Qed.

(** ** One pass through the whole run

    What a relation on the process needs to be kept by a run: it is kept
    by the constructor, by [cd], by what is logged or printed, and by
    each of the commands, where [git remote rm] is only run on the
    remotes that [merge] names. *)

Section Pass.
Context (E : Env) (format_g : Z -> string) (base0 : string) (buildnumber : option Z).
Context (R : World -> World -> Prop) `{!Reflexive R, !Transitive R}.
Hypothesis R_init : forall org name base reset exclude include token,
  preserves R (OME.init E org name base reset exclude include token).
Hypothesis R_cd : forall dir, preserves R (OME.cd E dir).
Hypothesis R_emit : forall ev,
  match ev with Popen _ _ _ => False | _ => True end -> preserves R (emit ev).
Hypothesis R_add : forall user name,
  preserves R (OME.call E ["git"; "remote"; "add"; OME.remote_key user;
                           OME.remote_url user name]).
Hypothesis R_fetch : forall user, preserves R (OME.call E ["git"; "fetch"; OME.remote_key user]).
Hypothesis R_merge : forall message sha,
  preserves R (OME.call E ["git"; "merge"; "--no-ff"; "-m"; message; sha]).
Hypothesis R_update : preserves R (OME.call E ["git"; "submodule"; "update"]).
Hypothesis R_foreach :
  preserves R (OME.call E ["git"; "submodule"; "foreach";
                           "git config --get remote.origin.url"]).
Hypothesis R_commit : forall self, preserves R (OME.call E (OME.commit_command self)).
Hypothesis R_rm : forall user,
  preserves R (OME.call E ["git"; "remote"; "rm"; OME.remote_key user]).
Hypothesis R_push : forall n,
  buildnumber = Some n -> n <> 0 -> preserves R (OME.pushTeam E format_g base0 n).

Lemma merge_pass : preserves (holding keys_ok R) (OME.merge E).
Proof.
  unfold OME.merge.
  frame_step; [apply preserves_get_self; apply _|].
  frame_step.
  { frame_step. frame_step; [apply lift_w_holding, R_add|].
    frame_step.
    { apply modify_holding; [apply _|]. intros o Ho k. simpl. rewrite dom_insert_L.
      intros [->%elem_of_singleton | Hk]%elem_of_union; [by eexists | by apply Ho]. }
    frame_step; [apply lift_w_holding, R_fetch | frame_step]. }
  frame_step; [|frame_step; [apply lift_w_holding, R_update | frame_step]].
  frame_step. frame_step; [apply lift_w_holding, R_merge|].
  apply modify_holding; [apply _ | done].
Qed.

Lemma info_pass (g : option OME.t) : preserves (holding keys_ok R) (OME.info g).
Proof.
  assert (forall line, preserves (holding keys_ok R) (lift_w (emit (Print line)))) as Hemit.
  { intros line. by apply lift_w_holding, R_emit. }
  unfold OME.info. frame_step; [frame_step|].
  frame_step. frame_step; [apply Hemit|]. frame_step; apply Hemit.
Qed.

Lemma cleanup_pass : preserves (holding keys_ok R) (OME.cleanup E).
Proof.
  intros [o w] Ho. simpl in Ho.
  destruct (cleanup_spec E o w) as (w' & evs & Hrun & _).
  assert (preserves (on_world (X := OME.t) R)
            (for_each (map_to_list (OME.remotes o)) (fun '(k, v) =>
               try_except (lift_w (OME.call E ["git"; "remote"; "rm"; k]) ;; ret tt)
                          (fun e => lift_w (emit (LogError "Failed to remove" [k])))))) as Hp.
  { apply preserves_for_each_in; [apply _ | apply _ |]. intros [k v] Hin.
    destruct (Ho k) as [user ->].
    { apply elem_of_dom. exists v. by apply elem_of_map_to_list. }
    frame_step.
    - frame_step; [|frame_step]. apply lift_w_on_world, R_rm.
    - by apply lift_w_on_world, R_emit. }
  specialize (Hp (o, w)).
  change (for_each _ _ (o, w)) with (OME.cleanup E (o, w)) in Hp.
  rewrite Hrun in *. by split.
Qed.

Lemma step_try_pass rec g info_mode dir org repo :
  (forall info, preserves (holding keys_ok R) (rec info)) ->
  preserves (holding (of_ome keys_ok) R) (OME.step_try E rec g info_mode dir org repo).
Proof.
  intros Hrec. unfold OME.step_try.
  frame_step. { apply modify_holding; [apply _|]. by intros [self ome] _ o. }
  frame_step; [apply lift_w_holding, R_cd|].
  frame_step; [apply preserves_get_self; apply _|].
  apply preserves_bind_ret; [apply _ | apply lift_w_holding, R_init|].
  intros ome ([locals w] & s1 & Hs). apply lift_w_run in Hs as (w1 & Hinit & _).
  apply init_returns in Hinit as (? & ? & ? & _ & _ & _ & -> & _).
  frame_step.
  { apply modify_holding; [apply _|]. intros [self c] _ o [= <-] k Hk. simpl in Hk.
    by rewrite dom_empty_L in Hk. }
  frame_step.
  { destruct info_mode; apply on_ome_holding; try apply _; [apply info_pass | apply merge_pass]. }
  frame_step; [by apply on_ome_holding; [apply _|]|].
  apply modify_holding; [apply _|]. by intros [self ome].
Qed.

Lemma step_finally_pass cwd0 :
  preserves (holding (of_ome keys_ok) R) (OME.step_finally E cwd0).
Proof.
  unfold OME.step_finally.
  apply preserves_try_finally; [apply _ | | apply lift_w_holding, R_cd].
  frame_step; [apply preserves_get_self; apply _|].
  destruct (snd _); [|frame_step].
  apply on_ome_holding; [apply _ | apply cleanup_pass].
Qed.

Lemma step_world_pass rec g info_mode cwd0 dir org repo :
  (forall info, preserves (holding keys_ok R) (rec info)) ->
  preserves (on_world R) (OME.step E rec g info_mode cwd0 dir org repo).
Proof.
  intros Hrec [self w]. unfold OME.step.
  pose proof (preserves_try_finally (holding (of_ome keys_ok) R) _ _
                (step_try_pass rec g info_mode dir org repo Hrec)
                (step_finally_pass cwd0) (self, None, w)) as H.
  destruct (try_finally _ _ (self, None, w)) as [r [[self' c] w']].
  destruct H as [_ H]; [by intros o|]. exact H.
Qed.

Lemma step_pass rec g info_mode cwd0 dir org repo :
  (forall info, preserves (holding keys_ok R) (rec info)) ->
  preserves (holding keys_ok R) (OME.step E rec g info_mode cwd0 dir org repo).
Proof.
  intros Hrec [self w] Hk. split; [|by apply step_world_pass].
  eapply keys_ok_modifications; [apply step_only_modifications | exact Hk].
Qed.

Lemma loop_pass rec g info_mode cwd0 :
  (forall info, preserves (holding keys_ok R) (rec info)) ->
  forall n lines, (length lines <= n)%nat ->
    preserves (holding keys_ok R) (OME.submodules_loop E rec g info_mode cwd0 lines).
Proof.
  intros Hrec. induction n as [|n IH]; intros lines Hn.
  { destruct lines; [simpl; frame_step | simpl in Hn; lia]. }
  destruct lines as [|l1 rest]; [simpl; frame_step|].
  cbn [OME.submodules_loop].
  destruct (bool_decide _); [frame_step|].
  frame_step; [frame_step|].
  destruct rest as [|l2 lines']; [frame_step|].
  apply preserves_bind; [apply _ | frame_step | intros [org repo]].
  frame_step; [by apply step_pass|].
  apply IH. simpl in Hn. lia.
Qed.

Lemma submodules_pass depth g info_mode :
  preserves (holding keys_ok R) (OME.submodules E depth g info_mode).
Proof.
  revert info_mode. induction depth as [|depth IH]; intros info_mode; [simpl; frame_step|].
  cbn [OME.submodules].
  frame_step; [apply lift_w_holding, R_foreach|].
  frame_step. { apply lift_w_holding. intros w. reflexivity. }
  frame_step; [by eapply loop_pass|].
  apply preserves_bind; [apply _ | apply preserves_get_self; apply _ | intros self].
  destruct (_ =? 0); [frame_step|].
  frame_step; [|frame_step]. apply lift_w_holding, R_commit.
Qed.

Lemma step_submodules_pass depth g info_mode cwd0 dir org repo :
  preserves (on_world R)
    (OME.step E (OME.submodules E depth g) g info_mode cwd0 dir org repo).
Proof. apply step_world_pass. intros info. apply submodules_pass. Qed.

Lemma main_pass depth org repo reset info_mode exclude include token w :
  R w (snd (OME.main E format_g depth org repo base0 reset info_mode exclude include
                     buildnumber token w)).
Proof.
  unfold OME.main.
  apply (snd_bind _ _ _ (R w)); intros ome w1 Hinit;
    pose proof (R_init org repo base0 reset exclude include token w) as Hq;
    rewrite Hinit in Hq; simpl in Hq; [|exact Hq].
  apply init_returns in Hinit as (? & ? & ? & _ & _ & _ & Hself & _).
  match goal with
  | |- context [try_finally ?body ?fin (ome, w1)] =>
      assert (preserves (holding keys_ok R) (try_finally body fin)) as Hp;
        [|specialize (Hp (ome, w1)); destruct (try_finally body fin (ome, w1)) as [r [o' w']]]
  end.
  { apply preserves_try_finally; [apply _ | | apply cleanup_pass].
    frame_step. { destruct info_mode; [frame_step | apply merge_pass]. }
    frame_step; [apply submodules_pass|].
    destruct buildnumber as [n|] eqn:Hb; [|frame_step].
    destruct (Z.eqb_spec n 0); [frame_step|].
    by apply lift_w_holding, R_push. }
  simpl. etrans; [exact Hq|]. apply Hp. simpl. intros k Hk. subst ome. simpl in Hk.
  by rewrite dom_empty_L in Hk.
Qed.

Lemma whole_pass :
  (forall depth org repo reset info_mode exclude include token w,
     R w (snd (OME.main E format_g depth org repo base0 reset info_mode exclude include
                        buildnumber token w))) /\
  (forall depth g info_mode cwd0 dir org repo s,
     R (snd s) (snd (snd (OME.step E (OME.submodules E depth g) g info_mode cwd0 dir org repo
                                   s)))).
Proof.
  split; [intros; apply main_pass|]. intros. apply step_submodules_pass.
Qed.

End Pass.

(** ** The remotes of the user *)

Lemma not_foreign (user : string) : ~ foreign (OME.remote_key user).
Proof. intros H. by apply (H user). Qed.

Lemma git_effect_spares (cwd0 : string) (command : list string) (m : gmap string (gset string))
    (dir k : string) :
  (forall k', command = ["git"; "remote"; "rm"; k'] -> k' <> k) ->
  k ∈ m !!! dir -> k ∈ OME.git_effect cwd0 command m !!! dir.
Proof.
  intros Hrm Hk. unfold OME.git_effect.
  destruct command as [|a [|b [|c [|k' [|x [|? ?]]]]]]; try done.
  - case_bool_decide as Heq; [|done]. injection Heq as -> -> ->.
    destruct (decide (dir = cwd0)) as [->|Hne].
    + rewrite lookup_total_insert_eq. apply elem_of_difference. split; [done|].
      intros Heq%elem_of_singleton. by apply (Hrm k').
    + by rewrite lookup_total_insert_ne.
  - case_bool_decide; [|done].
    destruct (decide (dir = cwd0)) as [->|Hne].
    + rewrite lookup_total_insert_eq. apply elem_of_union. by right.
    + by rewrite lookup_total_insert_ne.
Qed.

Section Spares.
Context (E : Env).

Lemma call_spares command :
  (forall k, command = ["git"; "remote"; "rm"; k] -> ~ foreign k) ->
  preserves spares (OME.call E command).
Proof.
  intros Hrm w. destruct (OME.call E command w) as [r w'] eqn:H.
  apply call_frame in H as (_ & _ & rc & _ & Hr). simpl.
  destruct Hr as [(_ & _ & Hg) | (_ & _ & Hg)]; [by apply still_spares|].
  intros dir k Hf Hk. unfold remotes_in. rewrite Hg. apply git_effect_spares; [|done].
  intros k' Hc ->. by apply (Hrm k).
Qed.

Lemma quiet_spares {A} (m : M World A) : preserves quiet m -> preserves spares m.
Proof. intros Hm w. destruct (Hm w) as (_ & Hg & _). by apply still_spares. Qed.

Lemma cd_spares dir : preserves spares (OME.cd E dir).
Proof. intros w. apply still_spares. unfold OME.cd. by destruct (isdir E _). Qed.

Lemma spares_pass format_g base buildnumber :
  (forall depth org repo reset info_mode exclude include token w,
     spares w (snd (OME.main E format_g depth org repo base reset info_mode exclude include
                             buildnumber token w))) /\
  (forall depth g info_mode cwd0 dir org repo s,
     spares (snd s)
       (snd (snd (OME.step E (OME.submodules E depth g) g info_mode cwd0 dir org repo s)))).
Proof.
  apply (whole_pass E format_g base buildnumber spares).
  - intros. apply quiet_spares, init_quiet.
  - apply cd_spares.
  - intros ev _ w0. by apply still_spares.
  - intros. apply call_spares. intros k [=].
  - intros. apply call_spares. intros k [=].
  - intros. apply call_spares. intros k [=].
  - apply call_spares. intros k [=].
  - apply call_spares. intros k [=].
  - intros. apply call_spares. intros k [=].
  - intros. apply call_spares. intros k [= <-]. apply not_foreign.
  - intros. apply quiet_spares, push_quiet.
Qed.

(** X6. The remotes of the user are safe: whatever the outcome, a run,
    or one step of the loop of [submodules], removes no remote from any
    checkout but those named [merge_] followed by a login. *)
Theorem foreign_remotes_kept format_g depth org repo base reset info_mode exclude include
    buildnumber token g cwd0 dir self w :
  spares w (snd (OME.main E format_g depth org repo base reset info_mode exclude include
                          buildnumber token w)) /\
  spares w (snd (snd (OME.step E (OME.submodules E depth g) g info_mode cwd0 dir org repo
                               (self, w)))).
Proof.
  destruct (spares_pass format_g base buildnumber) as [Hmain Hstep].
  split; [apply Hmain | apply (Hstep depth g info_mode cwd0 dir org repo (self, w))].
Qed.

End Spares.

Lemma foreign_remotes_kept_witness :
  foreign "origin" /\
  fst (Scenario.main Scenario.env false) = Return tt /\
  "origin" ∈ remotes_in
    (snd (OME.main Scenario.env Py.str 5 "openmicroscopy" "top" "dev" false false
                   Scenario.exclude Scenario.include None None w_origin)) "/work".
Proof.
  assert (foreign "origin") as Hf by (intros user; discriminate).
  split; [exact Hf|]. split; [vm_compute; reflexivity|].
  apply (proj1 (foreign_remotes_kept Scenario.env Py.str 5 "openmicroscopy" "top" "dev"
                  false false Scenario.exclude Scenario.include None None None "/work" "sub"
                  Scenario.self0 w_origin)); [exact Hf|].
  unfold remotes_in, w_origin. simpl. rewrite lookup_total_singleton.
  by apply elem_of_singleton.
Defined.

Section Known.
Context (E : Env) (format_g : Z -> string) (base0 : string) (buildnumber : option Z).

Lemma known_others : ok_but_popen (known_event format_g base0 buildnumber).
Proof. by intros []. Qed.

Lemma call_known command :
  known_command format_g base0 buildnumber command ->
  preserves (journal (known_event format_g base0 buildnumber)) (OME.call E command).
Proof. intros Hk. apply call_journal. by intros dir rc. Qed.

Lemma known_pass :
  forall depth org repo reset info_mode exclude include token w,
    journal (known_event format_g base0 buildnumber) w
      (snd (OME.main E format_g depth org repo base0 reset info_mode exclude include
                     buildnumber token w)).
Proof.
  apply (whole_pass E format_g base0 buildnumber
           (journal (known_event format_g base0 buildnumber))).
  - intros. apply init_journal; [apply known_others | intros; left..].
    + apply list_elem_of_In. simpl. tauto.
    + apply list_elem_of_In. simpl. tauto.
    + apply list_elem_of_In. simpl. tauto.
  - apply cd_journal.
  - intros ev Hev. apply emit_journal. by destruct ev.
  - intros. apply call_known. right. left. eauto.
  - intros. apply call_known. do 2 right. left. eauto.
  - intros. apply call_known. do 3 right. left. eauto.
  - apply call_known. left. apply list_elem_of_In. simpl. tauto.
  - apply call_known. left. apply list_elem_of_In. simpl. tauto.
  - intros. apply call_known. do 4 right. left. eauto.
  - intros. apply call_known. do 5 right. left. eauto.
  - intros n Hn Hne. unfold OME.pushTeam. frame_step; [|frame_step].
    apply call_known. do 6 right. eauto.
Qed.

(** X15. Whatever the outcome, a run from the construction of the
    top-level instance on starts no child process but these: [git reset
    --hard HEAD], [git log], [git submodule status], [update] and
    [foreach], [git remote add] and [git fetch] of a remote named after a
    login, [git merge --no-ff -m], [git commit --allow-empty -a -n -m],
    [git remote rm] of a remote named after a login, and [git push team]
    of the build number when one is given that is not zero. *)
Theorem known_commands_only depth org repo reset info_mode exclude include token w :
  journal (known_event format_g base0 buildnumber) w
    (snd (OME.main E format_g depth org repo base0 reset info_mode exclude include
                   buildnumber token w)).
Proof. apply known_pass. Qed.

End Known.

(** ** The dry run *)

Global Instance dry_refl : Reflexive dry.
Proof. intros w. split; [done | reflexivity]. Qed.

Global Instance dry_trans : Transitive dry.
Proof. intros w1 w2 w3 [G1 J1] [G2 J2]. split; [congruence | by etrans]. Qed.

Lemma dry_others : ok_but_popen dry_event.
Proof. by intros []. Qed.

Lemma preserves_dry {A} (m : M World A) :
  preserves quiet m -> preserves (journal dry_event) m -> preserves dry m.
Proof. intros Hq Hj w. destruct (Hq w) as (_ & Hg & _). split; [done | apply Hj]. Qed.

Lemma on_ome_locals {A} (K J : OME.t -> Prop) R `{!Reflexive R} (m : M (OME.t * World) A) :
  preserves (holding J R) m ->
  preserves (holding (fun locals => K (fst locals) /\ of_ome J locals) R) (OME.on_ome m).
Proof.
  intros Hm [[self [o|]] w] [HK HJ]; simpl in *; [|split; [done | reflexivity]].
  specialize (Hm (o, w)). destruct (m (o, w)) as [r [o' w']].
  destruct Hm as [Ho Hr]; [by apply HJ|]. split; [|done].
  split; [done|]. intros o0 [= <-]. exact Ho.
Qed.

Section Dry.
Context (E : Env).

Lemma call_dry command :
  dry_command command = true -> (forall dir m, OME.git_effect dir command m = m) ->
  preserves dry (OME.call E command).
Proof.
  intros Hd Heff. apply preserves_dry; [by apply call_quiet|].
  apply call_journal. by intros dir rc.
Qed.

Lemma init_dry org name base reset exclude include token :
  preserves dry (OME.init E org name base reset exclude include token).
Proof.
  apply preserves_dry; [apply init_quiet|].
  apply init_journal; [apply dry_others | intros; reflexivity..].
Qed.

Lemma cd_dry dir : preserves dry (OME.cd E dir).
Proof.
  intros w. split; [|apply cd_journal].
  unfold OME.cd. by destruct (isdir E _).
Qed.

Lemma info_dry (g : option OME.t) : preserves (holding plain dry) (OME.info g).
Proof.
  intros s Hp. pose proof (info_quiet g s) as [Ho (_ & Hg & _)].
  pose proof (info_journal dry_event dry_others g s) as [_ Hj].
  rewrite Ho. by split.
Qed.

Lemma cleanup_plain (o : OME.t) (w : World) :
  plain o -> OME.cleanup E (o, w) = (Return tt, (o, w)).
Proof.
  intros [Hr _]. unfold OME.cleanup, bind, get_self. by rewrite Hr, map_to_list_empty.
Qed.

Lemma cleanup_dry : preserves (holding plain dry) (OME.cleanup E).
Proof. intros [o w] Hp. rewrite cleanup_plain by done. split; [done | reflexivity]. Qed.

Lemma step_try_dry rec g dir org repo :
  preserves (holding plain dry) (rec true) ->
  preserves (holding (fun locals => plain (fst locals) /\ of_ome plain locals) dry)
            (OME.step_try E rec g true dir org repo).
Proof.
  intros Hrec. unfold OME.step_try.
  frame_step. { apply modify_holding; [apply _|]. by intros [self ome] [Hs _]. }
  frame_step; [apply lift_w_holding, cd_dry|].
  frame_step; [apply preserves_get_self; apply _|].
  apply preserves_bind_ret; [apply _ | apply lift_w_holding, init_dry|].
  intros ome ([locals w] & s1 & Hs). apply lift_w_run in Hs as (w1 & Hinit & _).
  apply init_returns in Hinit as (? & ? & ? & _ & _ & _ & -> & _).
  frame_step.
  { apply modify_holding; [apply _|]. intros [self c] [Hs _]. split; [done|].
    by intros o [= <-]. }
  frame_step; [apply on_ome_locals; [apply _ | apply info_dry]|].
  frame_step; [by apply on_ome_locals; [apply _|]|].
  apply modify_holding; [apply _|]. intros [self [o|]] [[Hr Hm] Ho]; simpl in *.
  - destruct (Ho o eq_refl) as [Hro Hmo]. split; [split; simpl; [done | lia]|].
    by intros ? [= <-].
  - split; [split; simpl; [done | lia]|]. by intros ?.
Qed.

Lemma step_finally_dry cwd0 :
  preserves (holding (fun locals => plain (fst locals) /\ of_ome plain locals) dry)
            (OME.step_finally E cwd0).
Proof.
  unfold OME.step_finally.
  apply preserves_try_finally; [apply _ | | apply lift_w_holding, cd_dry].
  frame_step; [apply preserves_get_self; apply _|].
  destruct (snd _); [|frame_step].
  apply on_ome_locals; [apply _ | apply cleanup_dry].
Qed.

Lemma step_dry rec g cwd0 dir org repo :
  preserves (holding plain dry) (rec true) ->
  preserves (holding plain dry) (OME.step E rec g true cwd0 dir org repo).
Proof.
  intros Hrec [self w] Hp. unfold OME.step.
  pose proof (preserves_try_finally _ _ _ (step_try_dry rec g dir org repo Hrec)
                (step_finally_dry cwd0) (self, None, w)) as H.
  destruct (try_finally _ _ (self, None, w)) as [r [[self' c] w']].
  destruct H as [[Hs _] H]; [by split|]. by split.
Qed.

Lemma loop_dry rec g cwd0 :
  preserves (holding plain dry) (rec true) ->
  forall n lines, (length lines <= n)%nat ->
    preserves (holding plain dry) (OME.submodules_loop E rec g true cwd0 lines).
Proof.
  intros Hrec. induction n as [|n IH]; intros lines Hn.
  { destruct lines; [simpl; frame_step | simpl in Hn; lia]. }
  destruct lines as [|l1 rest]; [simpl; frame_step|].
  cbn [OME.submodules_loop].
  destruct (bool_decide _); [frame_step|].
  frame_step; [frame_step|].
  destruct rest as [|l2 lines']; [frame_step|].
  apply preserves_bind; [apply _ | frame_step | intros [org repo]].
  frame_step; [by apply step_dry|].
  apply IH. simpl in Hn. lia.
Qed.

Lemma submodules_dry depth g : preserves (holding plain dry) (OME.submodules E depth g true).
Proof.
  induction depth as [|depth IH]; [simpl; frame_step|].
  cbn [OME.submodules].
  frame_step. { by apply lift_w_holding, call_dry. }
  frame_step. { apply lift_w_holding. intros w. reflexivity. }
  frame_step; [by eapply loop_dry|].
  intros [o w] [Hr Hm]. unfold bind, get_self. simpl in *. rewrite Hm. simpl.
  split; [done | reflexivity].
Qed.

(** X7. A dry run, with [--info], leaves the remotes of every checkout
    as they are and runs no git command but [git reset --hard HEAD],
    [git log], [git submodule status], [git submodule foreach] and [git
    push team]: whatever the outcome, it does not merge, fetch or commit
    and it adds and removes no remote. *)
Theorem dry_run format_g depth org repo base reset exclude include buildnumber token w :
  dry w (snd (OME.main E format_g depth org repo base reset true exclude include
                       buildnumber token w)).
Proof.
  unfold OME.main.
  apply (snd_bind _ _ _ (dry w)); intros ome w1 Hinit;
    pose proof (init_dry org repo base reset exclude include token w) as Hq;
    rewrite Hinit in Hq; simpl in Hq; [|exact Hq].
  apply init_returns in Hinit as (? & ? & ? & _ & _ & _ & Hself & _).
  match goal with
  | |- context [try_finally ?body ?fin (ome, w1)] =>
      assert (preserves (holding plain dry) (try_finally body fin)) as Hp;
        [|specialize (Hp (ome, w1)); destruct (try_finally body fin (ome, w1)) as [r [o' w']]]
  end.
  { apply preserves_try_finally; [apply _ | | apply cleanup_dry].
    frame_step; [frame_step|].
    frame_step; [apply submodules_dry|].
    destruct buildnumber as [n|]; [|frame_step].
    destruct (n =? 0); [frame_step|].
    apply lift_w_holding. unfold OME.pushTeam. frame_step; [|frame_step].
    by apply call_dry. }
  simpl. etrans; [exact Hq|]. apply Hp. simpl. by subst ome.
Qed.

End Dry.

(** The reset and the push are not switched off by [--info]. *)
Lemma dry_run_witness :
  let w' := snd (OME.main Scenario.env Py.str 5 "openmicroscopy" "top" "dev" true true
                          Scenario.exclude Scenario.include (Some 7) None Scenario.w0) in
  dry Scenario.w0 w' /\
  Popen "/work" ["git"; "reset"; "--hard"; "HEAD"] 0 ∈ trace w' /\
  Popen "/work" ["git"; "push"; "team"; "HEAD:dev/7"] 0 ∈ trace w'.
Proof.
  intros w'. split; [apply dry_run|].
  split; apply list_elem_of_In; vm_compute; repeat first [left; reflexivity | right].
Defined.

(** ** The working directory of a run *)

(** X18. A run that starts in an existing directory ends in it, whatever
    the outcome. *)
Theorem run_restores_cwd E format_g depth org repo base reset info_mode exclude include
    buildnumber token w :
  Py.startswith (cwd w) "/" = true -> isdir E (cwd w) = true ->
  cwd (snd (OME.main E format_g depth org repo base reset info_mode exclude include
                     buildnumber token w)) = cwd w.
Proof. intros Habs Hdir. by apply main_clean. Qed.

Lemma run_restores_cwd_witness :
  fst (Scenario.main Scenario.env_bad false) = Raise (CallFailed 1) /\
  cwd (snd (Scenario.main Scenario.env_bad false)) = "/work".
Proof.
  split; [vm_compute; reflexivity|].
  exact (run_restores_cwd Scenario.env_bad Py.str 5 "openmicroscopy" "top" "dev" false false
           Scenario.exclude Scenario.include None None Scenario.w0 eq_refl eq_refl).
Defined.

(** ** The files of a run *)

Global Instance side_only_refl : Reflexive side_only.
Proof. by intros w p Hp. Qed.

Global Instance side_only_trans : Transitive side_only.
Proof.
  intros w1 w2 w3 H1 H2 p Hp.
  destruct (decide (files w2 !! p = files w1 !! p)) as [Heq|Hne]; [|by apply H1].
  apply H2. congruence.
Qed.




Section Files.
Context (E : Env).






(** X19. A failed run pushes nothing: when a run without a build number
    raises, the same run with a build number does the same, up to the
    same exception, and no [git push] is among its commands. *)
Theorem no_push_after_failure format_g depth org repo base reset info_mode exclude include
    token w (n : Z) (e : exn) :
  fst (OME.main E format_g depth org repo base reset info_mode exclude include None token w)
  = Raise e ->
  OME.main E format_g depth org repo base reset info_mode exclude include (Some n) token w
  = OME.main E format_g depth org repo base reset info_mode exclude include None token w /\
  journal (known_event format_g base None) w
    (snd (OME.main E format_g depth org repo base reset info_mode exclude include (Some n)
                   token w)).
Proof.
  intros Hraise.
  assert (OME.main E format_g depth org repo base reset info_mode exclude include (Some n)
                   token w
          = OME.main E format_g depth org repo base reset info_mode exclude include None
                     token w) as Heq; [|split; [exact Heq | rewrite Heq; apply known_pass]].
  revert Hraise. unfold OME.main, bind.
  destruct (OME.init E org repo base reset exclude include token w) as [[ome|e0] w1]; [|done].
  unfold try_finally.
  destruct ((if info_mode then ret tt else OME.merge E) (ome, w1)) as [[[]|ea] s1]; [|done].
  destruct (OME.submodules E depth (Some ome) info_mode s1) as [[[]|eb] [o2 w2]]; [|done].
  intros Hraise. exfalso. simpl in Hraise.
  destruct (cleanup_spec E o2 w2) as (w3 & evs & Hc & _). rewrite Hc in Hraise. discriminate.
Qed.

End Files.

Lemma no_push_after_failure_witness :
  fst (Scenario.main Scenario.env_bad false) = Raise (CallFailed 1) /\
  OME.main Scenario.env_bad Py.str 5 "openmicroscopy" "top" "dev" false false
           Scenario.exclude Scenario.include (Some 7) None Scenario.w0
  = Scenario.main Scenario.env_bad false.
Proof.
  split; [vm_compute; reflexivity|].
  refine (proj1 (no_push_after_failure Scenario.env_bad Py.str 5 "openmicroscopy" "top" "dev"
                   false false Scenario.exclude Scenario.include None Scenario.w0 7
                   (CallFailed 1) _)).
  vm_compute. reflexivity.
Defined.
